(** * AI-Media-Forensics-System: verdict policy, calibration, replay store,
      EWC and saliency, embedded from
      [src/lib/enhanced-ai-detector-fixed.py] (module [Fixed]) and
      [src/lib/enhanced-ai-detector.py] (module [Pipeline]).

    Tensor entries are finite floats; they are read as rationals ([Q]) and
    the rounding of arithmetic is not modelled.  Comparisons of finite
    floats agree with the comparisons of their rational values; where the
    code compares a float32 tensor with a Python float, the cast of the
    Python float to float32 is modelled ([Torch.float32]).  Library code
    (the network's forward pass, softmax, FFT/DCT, numpy statistics,
    optimizers, random choice) is taken through interfaces; everything
    written in the repository itself is transcribed. *)

From Stdlib Require Import String ZArith Qround Qminmax Qpower QArith Qabs Lia
  Lqa Bool Arith List.
Import ListNotations.

Set Implicit Arguments.

(* ================================================================== *)
(** * Part I: the embedding                                            *)
(* ================================================================== *)

(** ** Tensors and the few torch/numpy primitives the code relies on *)

Module Torch.

(** A one-dimensional tensor (or a flattened one). *)
Definition tensor := list Q.

Definition Qltb (a b : Q) : bool := negb (Qle_bool b a).
Definition Qgeb (a b : Q) : bool := Qle_bool b a.

(** [torch.max(t)] / [torch.max(t, dim)] on one row: the maximum and the
    index of its first occurrence; an empty row raises. *)
Fixpoint max_from (best : Q) (besti : nat) (i : nat) (l : tensor) : Q * nat :=
  match l with
  | [] => (best, besti)
  | x :: r =>
      if Qltb best x then max_from x i (S i) r
      else max_from best besti (S i) r
  end.

Definition max (l : tensor) : option (Q * nat) :=
  match l with
  | [] => None
  | x :: r => Some (max_from x 0 1 r)
  end.

(** *** The cast of a Python float to float32

    A comparison of a float32 tensor with a Python float is carried out
    in float32: the double is rounded to the nearest float32, ties to
    even.  Infinity, the cast of a double beyond the float32 range, is
    written [2^128]: it compares with every finite float32 as infinity
    does. *)

(** Round half to even. *)
Definition rne (x : Q) : Z :=
  let k := Qfloor x in
  match Qcompare (x - inject_Z k) (1 # 2) with
  | Lt => k
  | Gt => (k + 1)%Z
  | Eq => if Z.even k then k else (k + 1)%Z
  end.

(** [floor(log2 q)] for a positive [q]. *)
Definition ilog2 (q : Q) : Z :=
  let c := (Z.log2 (Qnum q) - Z.log2 (Zpos (Qden q)))%Z in
  if Qle_bool (2 ^ c) q then c else (c - 1)%Z.

(** The binary exponent of a float32 next to [q]; below [2^-126] the
    numbers are subnormal and keep the exponent -126. *)
Definition exponent (q : Q) : Z := Z.max (ilog2 q) (-126).

(** The multiple of [2^(e-23)] nearest to [q]: 24 significant bits at
    exponent [e]. *)
Definition round_at (e : Z) (q : Q) : Q :=
  inject_Z (rne (q * 2 ^ (23 - e))) * 2 ^ (e - 23).

Definition round_magnitude (q : Q) : Q :=
  Qmin (round_at (exponent q) q) (2 ^ 128).

(** The float32 nearest to [q], in lowest terms. *)
Definition float32 (q : Q) : Q :=
  Qred (if Qltb q 0 then - round_magnitude (- q) else round_magnitude q).

(** [t.cpu().numpy()]: a tensor that is part of the autograd graph
    ([requires_grad]) cannot be converted and raises RuntimeError; a
    detached one is returned. *)
Definition numpy (A : Type) (requires_grad : bool) (t : A) : option A :=
  if requires_grad then None else Some t.

(** [torch.clamp(x, min=lo, max=hi)]. *)
Definition clamp (lo hi x : Q) : Q :=
  if Qltb x lo then lo else if Qltb hi x then hi else x.

(** [F.relu] on one entry. *)
Definition relu (x : Q) : Q := if Qltb x 0 then 0 else x.

(** The result of a float division whose divisor may be zero. *)
Inductive fval : Type :=
| Fin (q : Q)
| PInf
| NInf
| NaN.

Definition fdiv (a b : Q) : fval :=
  if Qeq_bool b 0 then
    (if Qeq_bool a 0 then NaN else if Qltb 0 a then PInf else NInf)
  else Fin (a / b).

(** [v >= 0] as a float comparison: false on NaN. *)
Definition fnonneg (v : fval) : Prop :=
  match v with
  | Fin q => 0 <= q
  | PInf => True
  | NInf => False
  | NaN => False
  end.

(** A spatial map [H,W]; a stack of channels [C,H,W] is a list of them. *)
Definition map2d := list (list Q).

(** [t.sum()]. *)
Definition sum_list (l : list Q) : Q := fold_right Qplus 0 l.

(** The mean of one channel over its two spatial dimensions. *)
Definition spatial_mean (ch : map2d) : Q :=
  sum_list (concat ch) / inject_Z (Z.of_nat (length (concat ch))).

(** [cam += w * act] on maps of one shape. *)
Definition add_scaled (cam : map2d) (w : Q) (act : map2d) : map2d :=
  map (fun rows =>
         map (fun ca => fst ca + w * snd ca) (combine (fst rows) (snd rows)))
      (combine cam act).

(** [torch.zeros(ch.shape)]. *)
Definition zeros_like (ch : map2d) : map2d := map (map (fun _ => 0)) ch.

(** The loop [for i, w in enumerate(weights): cam += w * activations[i]]
    started from a map of zeros shaped like one channel. *)
Definition weighted_sum (weights : list Q) (activations : list map2d) : map2d :=
  fold_left (fun cam wa => add_scaled cam (fst wa) (snd wa))
            (combine weights activations)
            (zeros_like (hd [] activations)).

(** A saliency map as it is returned, entry by entry. *)
Definition heatmap := list (list fval).

End Torch.

(** ** enhanced-ai-detector-fixed.py *)

Module Fixed.

(** The library side of the detector: the network and [F.softmax]. *)
Class Runtime : Type := {
  image : Type;                 (* one preprocessed image tensor [C,H,W] *)
  params : Type;                (* the weights of backbone, fusion and classifier *)
  generator : Type;             (* state of torch's default random generator *)
  (* [nn.Module.__call__] in eval mode: dropout off, batch-norm frozen *)
  forward_eval : params -> list image -> list Torch.tensor;
  (* the same in train mode: dropout draws from the generator and
     batch-norm updates its running statistics *)
  forward_train : params -> generator -> list image
                  -> list Torch.tensor * params * generator;
  softmax : Torch.tensor -> Torch.tensor
}.

Section Detector.
Context {RT : Runtime}.

(** [class TemperatureScaling]: [forward] is [logits / self.temperature]. *)
Definition TemperatureScaling_forward (temperature : Q) (logits : Torch.tensor)
  : Torch.tensor :=
  map (fun l => l / temperature) logits.

Record EnhancedAIDetector : Type := {
  net : params;
  temperature : Q;                 (* temperature_scaling.temperature *)
  uncertainty_threshold : Q;
  training : bool;                 (* nn.Module.training *)
  gen : generator
}.

(** [self.eval()]. *)
Definition eval (m : EnhancedAIDetector) : EnhancedAIDetector :=
  {| net := net m; temperature := temperature m;
     uncertainty_threshold := uncertainty_threshold m;
     training := false; gen := gen m |}.

(** [EnhancedAIDetector.forward]: raw logits, one row per image. *)
Definition forward (m : EnhancedAIDetector) (x : list image)
  : list Torch.tensor * EnhancedAIDetector :=
  if training m then
    let '(lg, n', g') := forward_train (net m) (gen m) x in
    (lg, {| net := n'; temperature := temperature m;
            uncertainty_threshold := uncertainty_threshold m;
            training := true; gen := g' |})
  else (forward_eval (net m) x, m).

(** One entry of the list [predict_with_uncertainty] returns. *)
Record result : Type := {
  prediction : string;
  confidence : Q;
  synthetic_probability : Q;
  real_probability : Q;
  is_uncertain : bool;
  logits : Torch.tensor;
  calibrated_logits : Torch.tensor
}.

(** The body of the [for i in range(x.size(0))] loop, for the row with
    raw logits [lg], calibrated logits [cal] and probabilities [p].
    [probabilities] is a float32 tensor: the entries of the row are read
    as float32 values, and [max_prob < self.uncertainty_threshold]
    compares [max_prob] with the threshold cast to float32, while
    [max_prob[i].item()] hands the float32 value back as it is.
    [None] stands for the exception raised when the row has fewer than
    two classes ([torch.max] of an empty row, [probabilities[i][1]]). *)
Definition result_of_row (threshold : Q) (lg cal p : Torch.tensor)
  : option result :=
  let p := map Torch.float32 p in
  match Torch.max p with
  | None => None
  | Some (max_prob, predicted) =>
      let uncertain := Torch.Qltb max_prob (Torch.float32 threshold) in
      let verdict :=
        if uncertain then "UNCERTAIN"%string
        else if Nat.eqb predicted 1 then "synthetic"%string
             else "real"%string in
      match nth_error p 1, nth_error p 0 with
      | Some synthetic_prob, Some real_prob =>
          Some {| prediction := verdict;
                  confidence := max_prob;
                  synthetic_probability := synthetic_prob;
                  real_probability := real_prob;
                  is_uncertain := uncertain;
                  logits := lg;
                  calibrated_logits := cal |}
      | _, _ => None
      end
  end.

Fixpoint results_of_rows (threshold : Q) (lgs cals : list Torch.tensor)
  : option (list result) :=
  match lgs, cals with
  | lg :: lgs', cal :: cals' =>
      match result_of_row threshold lg cal (softmax cal),
            results_of_rows threshold lgs' cals' with
      | Some r, Some rs => Some (r :: rs)
      | _, _ => None
      end
  | _, _ => Some []
  end.

(** [EnhancedAIDetector.predict_with_uncertainty(x, apply_temperature)]:
    the results and the detector afterwards. *)
Definition predict_with_uncertainty (m : EnhancedAIDetector) (x : list image)
    (apply_temperature : bool)
  : option (list result) * EnhancedAIDetector :=
  let m1 := eval m in
  let '(lgs, m2) := forward m1 x in
  let cals :=
    if apply_temperature
    then map (TemperatureScaling_forward (temperature m2)) lgs
    else lgs in
  (results_of_rows (uncertainty_threshold m2) lgs cals, m2).

(** [TemperatureScaling.calibrate(logits, labels, max_iter, lr)].
    [lbfgs] is [torch.optim.LBFGS([temperature], lr, max_iter).step] run on
    the closure [eval_loss]: whatever value the optimizer leaves in the
    parameter. *)
Definition calibrate
    (lbfgs : Q -> list Torch.tensor -> list Z -> nat -> Q -> Q)
    (temperature0 : Q) (lgs : list Torch.tensor) (labels : list Z)
    (max_iter : nat) (lr : Q) : Q :=
  let t := lbfgs temperature0 lgs labels max_iter lr in
  Torch.clamp (1 # 10) 10 t.

End Detector.

(** A runtime for tests: one scalar weight per class as network, the
    entries divided by their sum in place of the softmax. *)
Definition linear_runtime : Runtime :=
  {| image := Q;
     params := Q * Q;
     generator := nat;
     forward_eval := fun w xs => map (fun x => [fst w * x; snd w * x]) xs;
     forward_train := fun w g xs =>
       (map (fun x => [fst w * x * inject_Z (Z.of_nat g); snd w * x]) xs,
        w, S g);
     softmax := fun l => map (fun x => x / Torch.sum_list l) l |}.

(** A detector over it, left in train mode, with the default temperature
    and threshold. *)
Definition linear_detector : @EnhancedAIDetector linear_runtime :=
  @Build_EnhancedAIDetector linear_runtime (3, 2) (3 # 2) (3 # 4) true 5%nat.

(** *** [class GradCAM] *)

Import Torch.

(** The part of [GradCAM.generate_cam] after the backward pass.
    [hooks] is what the two hooks stored ([self.gradients[0]],
    [self.activations[0]]) for a layer of at least one channel, [None]
    when no gradient was captured.  The result [None] is an exception:
    [cam.max()] on an empty map, and [cam.cpu().numpy()] on the map that
    was accumulated from the hooked activations, which are part of the
    autograd graph (there is no [detach]). *)
Definition generate_cam (hooks : option (list map2d * list map2d))
  : option heatmap :=
  match hooks with
  | Some (gradients, activations) =>
      let weights := map spatial_mean gradients in
      let cam := weighted_sum weights activations in
      let cam := map (map Torch.relu) cam in
      match Torch.max (concat cam) with
      | None => None
      | Some (mx, _) =>
          let cam :=
            if Torch.Qltb 0 mx
            then map (map (fun c => Torch.Fin (c / mx))) cam
            else map (map Torch.Fin) cam in
          Torch.numpy true cam
      end
  | None => Some (repeat (repeat (Torch.Fin 0) 224) 224)
  end.

(** *** [class FrequencyFeatureExtractor]: the two statistics branches *)

(** numpy and OpenCV as the extractor uses them.  [np_mean] and [np_std]
    return a value on any array (nan with a warning on an empty one);
    [np.max] and [np.percentile] raise on an empty array. *)
Class Numpy : Type := {
  np_mean : list Q -> Q;
  np_std : list Q -> Q;
  np_percentile : list Q -> Q -> option Q;
  cv2_dct : map2d -> map2d
}.

(** [np.percentile] returns a value on every non-empty array. *)
Definition percentile_defined (NP : Numpy) : Prop :=
  forall (l : list Q) (q : Q), l <> [] -> np_percentile l q <> None.

Definition np_max (l : list Q) : option Q := option_map fst (Torch.max l).

(** A numpy for tests: exact mean, a zero deviation, the maximum as every
    percentile, and a transform that leaves the block as it is. *)
Definition exact_numpy : Numpy :=
  {| np_mean := fun l => sum_list l / inject_Z (Z.of_nat (length l));
     np_std := fun _ => 0;
     np_percentile := fun l _ => np_max l;
     cv2_dct := fun b => b |}.

Section Frequency.
Context {NP : Numpy}.

Definition indexed (A : Type) (l : list A) : list (nat * A) :=
  combine (seq 0 (length l)) l.

(** [arr[mask]]: the entries whose position passes [test], row-major. *)
Definition masked (test : nat -> nat -> bool) (arr : map2d) : list Q :=
  flat_map (fun yr =>
              map snd (filter (fun xv => test (fst yr) (fst xv))
                              (indexed (snd yr))))
           (indexed arr).

(** [np.any(mask)] for a mask of shape [(h, w)]. *)
Definition np_any (test : nat -> nat -> bool) (h w : nat) : bool :=
  existsb (fun y => existsb (fun x => test y x) (seq 0 w)) (seq 0 h).

(** [(x - center_w)**2 + (y - center_h)**2].  [distances] is its square
    root; against the integer radii of the code, [distances >= r] is
    [r*r <= d2] and [distances < r] is [d2 < r*r]. *)
Definition dist2 (center_h center_w y x : nat) : nat :=
  let dx := Z.abs_nat (Z.of_nat x - Z.of_nat center_w) in
  let dy := Z.abs_nat (Z.of_nat y - Z.of_nat center_h) in
  (dx * dx + dy * dy)%nat.

Definition band_mask (center_h center_w r_min r_max : nat) (y x : nat) : bool :=
  ((r_min * r_min <=? dist2 center_h center_w y x)
   && (dist2 center_h center_w y x <? r_max * r_max))%nat.

Definition high_freq_mask (center_h center_w : nat) (y x : nat) : bool :=
  (80 * 80 <? dist2 center_h center_w y x)%nat.

Definition shape (arr : map2d) : nat * nat :=
  (length arr, length (hd [] arr)).

(** The four statistics of one radial band, or four zeros. *)
Definition band_stats (spectrum : map2d) (h w center_h center_w : nat)
    (r_min r_max : nat) : option (list Q) :=
  let mask := band_mask center_h center_w r_min r_max in
  if np_any mask h w then
    let band_values := masked mask spectrum in
    match np_max band_values, np_percentile band_values 95 with
    | Some mx, Some p95 =>
        Some [np_mean band_values; np_std band_values; mx; p95]
    | _, _ => None
    end
  else Some [0; 0; 0; 0].

(** [magnitude_spectrum[:, center_w]]; an index out of a row raises. *)
Fixpoint column (arr : map2d) (x : nat) : option (list Q) :=
  match arr with
  | [] => Some []
  | row :: rest =>
      match nth_error row x, column rest x with
      | Some v, Some vs => Some (v :: vs)
      | _, _ => None
      end
  end.

(** [len(v[v > np.mean(v) * 2])]. *)
Definition count_above (v : list Q) (bound : Q) : Q :=
  inject_Z (Z.of_nat (length (filter (fun c => Torch.Qltb bound c) v))).

(** [features = features[:256]; features.extend([0] * (256 - len(features)))]. *)
Definition pad_or_truncate (features : list Q) : list Q :=
  let features := firstn 256 features in
  features ++ repeat 0 (256 - length features)%nat.

(** [FrequencyFeatureExtractor._extract_frequency_stats(magnitude_spectrum)].
    [None] is an exception escaping the function. *)
Definition _extract_frequency_stats (magnitude_spectrum : map2d)
  : option (list Q) :=
  let '(h, w) := shape magnitude_spectrum in
  let center_h := (h / 2)%nat in
  let center_w := (w / 2)%nat in
  let band := band_stats magnitude_spectrum h w center_h center_w in
  match band 0%nat 20%nat, band 20%nat 50%nat, band 50%nat 100%nat with
  | Some b1, Some b2, Some b3 =>
      let features := b1 ++ b2 ++ b3 in
      let flat := concat magnitude_spectrum in
      match np_max flat, np_percentile flat 95, np_percentile flat 5 with
      | Some mx, Some p95, Some p5 =>
          let features :=
            features ++ [np_mean flat; np_std flat; mx; p95; p5] in
          match nth_error magnitude_spectrum center_h,
                column magnitude_spectrum center_w with
          | Some h_line, Some v_line =>
              let features :=
                features ++ [np_mean h_line; np_std h_line;
                             np_mean v_line; np_std v_line] in
              let features :=
                if np_any (high_freq_mask center_h center_w) h w then
                  let high_freq_values :=
                    masked (high_freq_mask center_h center_w)
                           magnitude_spectrum in
                  features ++
                    [np_mean high_freq_values; np_std high_freq_values;
                     count_above high_freq_values
                                 (np_mean high_freq_values * 2)]
                else features ++ [0; 0; 0] in
              Some (pad_or_truncate features)
          | _, _ => None
          end
      | _, _, _ => None
      end
  | _, _, _ => None
  end.

(** [range(0, stop, 8)]. *)
Definition range8 (stop : nat) : list nat :=
  map (fun k => (8 * k)%nat) (seq 0 ((stop + 7) / 8)%nat).

(** [img[i:i+8, j:j+8]]. *)
Definition block_at (img : map2d) (i j : nat) : map2d :=
  map (fun row => firstn 8 (skipn j row)) (firstn 8 (skipn i img)).

(** The statistics one block appends to [features]. *)
Definition block_stats (block : map2d) : option (list Q) :=
  let dct_block := cv2_dct block in
  let ac_coeffs := tl (concat dct_block) in
  if (0 <? length ac_coeffs)%nat then
    match np_max (map Qabs ac_coeffs) with
    | Some mx =>
        Some [np_mean (map Qabs ac_coeffs);
              np_std ac_coeffs;
              mx;
              inject_Z (Z.of_nat (length
                (filter (fun c => Torch.Qltb (np_std ac_coeffs) (Qabs c))
                        ac_coeffs)))]
    | None => None
    end
  else Some [].

(** The inner [for j] loop with its [break]. *)
Fixpoint dct_row (img : map2d) (i : nat) (js : list nat) (features : list Q)
  : option (list Q) :=
  match js with
  | [] => Some features
  | j :: js' =>
      match block_stats (block_at img i j) with
      | Some st =>
          let features := features ++ st in
          if (252 <=? length features)%nat then Some features
          else dct_row img i js' features
      | None => None
      end
  end.

(** The outer [for i] loop with its [break]. *)
Fixpoint dct_rows (img : map2d) (w : nat) (rows : list nat) (features : list Q)
  : option (list Q) :=
  match rows with
  | [] => Some features
  | i :: rows' =>
      match dct_row img i (range8 (w - 7)%nat) features with
      | Some features =>
          if (252 <=? length features)%nat then Some features
          else dct_rows img w rows' features
      | None => None
      end
  end.

(** [FrequencyFeatureExtractor._extract_dct_block_features(img)]. *)
Definition _extract_dct_block_features (img : map2d) : option (list Q) :=
  let '(h, w) := shape img in
  match dct_rows img w (range8 (h - 7)%nat) [] with
  | Some features => Some (pad_or_truncate features)
  | None => None
  end.

End Frequency.

(** *** The prediction log, [class ReplayBuffer] and the statistics *)

(** The lines the logger receives from the functions below. *)
Inductive log_record : Type :=
| error_failed_to_save_logs
| error_failed_to_save_replay_buffer
| error_failed_to_load_logs
| error_failed_to_load_replay_buffer
| info_loaded_prediction_logs (n : nat)
| info_loaded_examples (n : nat)
| info_uncertainty_threshold_set (threshold : Q).

(** A file of the working directory, by what reading it gives. *)
Inductive file (A : Type) : Type :=
| absent
| unreadable                       (* it exists, reading it raises *)
| content (data : A).

Arguments absent {A}.
Arguments unreadable {A}.

Section Logging.
Context {RT : Runtime}.
Variable image_data : Type.        (* the array handed to [log_prediction] *)

(** One dict of [self.prediction_log]; the metadata is a dict of strings. *)
Record log_entry : Type := {
  entry_timestamp : string;
  entry_prediction : string;
  entry_confidence : Q;
  entry_synthetic_probability : Q;
  entry_real_probability : Q;
  entry_is_uncertain : bool;
  entry_metadata : list (string * string)
}.

(** One dict of the replay buffer. *)
Record example : Type := {
  ex_image_data : image_data;
  ex_prediction : string;
  ex_confidence : Q;
  true_label : option Z;
  ex_timestamp : string
}.

Record ReplayBuffer : Type := {
  max_size : nat;
  buffer : list example            (* deque(maxlen=max_size), oldest first *)
}.

(** [deque.append] and [deque.extend] on a deque bounded by [maxlen]. *)
Definition deque_append (A : Type) (maxlen : nat) (d : list A) (x : A) : list A :=
  if (maxlen =? 0)%nat then []
  else if (length d <? maxlen)%nat then d ++ [x]
       else tl d ++ [x].

Definition deque_extend (A : Type) (maxlen : nat) (d xs : list A) : list A :=
  fold_left (deque_append maxlen) xs d.

(** [ReplayBuffer.add]; [now] is the reading of [datetime.now().isoformat()]. *)
Definition add (rb : ReplayBuffer) (img : image_data) (prediction : string)
    (confidence : Q) (true_label : option Z) (now : string) : ReplayBuffer :=
  let example :=
    {| ex_image_data := img; ex_prediction := prediction;
       ex_confidence := confidence; true_label := true_label;
       ex_timestamp := now |} in
  {| max_size := max_size rb;
     buffer := deque_append (max_size rb) (buffer rb) example |}.

(** [ReplayBuffer.get_low_confidence_examples(threshold)]. *)
Definition get_low_confidence_examples (rb : ReplayBuffer) (threshold : Q)
  : list example :=
  filter (fun ex => Torch.Qltb (ex_confidence ex) threshold) (buffer rb).

(** The two files of the working directory.  A write either replaces the
    file or, when [open] raises, leaves it as it is; entries and examples
    are taken to be serialisable. *)
Record disk : Type := {
  writable : bool;
  log_file : file (list log_entry);        (* prediction_log.json *)
  buffer_file : file (list example)        (* replay_buffer.pkl *)
}.

(** [ReplayBuffer.save]: the disk afterwards and what was logged. *)
Definition save (rb : ReplayBuffer) (d : disk) : disk * list log_record :=
  if writable d then
    ({| writable := writable d; log_file := log_file d;
        buffer_file := content (buffer rb) |}, [])
  else (d, [error_failed_to_save_replay_buffer]).

(** [ReplayBuffer.load]. *)
Definition load (rb : ReplayBuffer) (d : disk) : ReplayBuffer * list log_record :=
  match buffer_file d with
  | absent => (rb, [])
  | unreadable => (rb, [error_failed_to_load_replay_buffer])
  | content data =>
      let rb := {| max_size := max_size rb;
                   buffer := deque_extend (max_size rb) (buffer rb) data |} in
      (rb, [info_loaded_examples (length (buffer rb))])
  end.

(** The attributes of [EnhancedAIDetector] beside the network: the replay
    buffer and the prediction log, with the disk and the logger's output. *)
Record EnhancedAIDetector_with_log : Type := {
  model : EnhancedAIDetector;
  replay_buffer : ReplayBuffer;
  prediction_log : list log_entry;
  fs : disk;
  log : list log_record
}.

(** [EnhancedAIDetector._save_logs]. *)
Definition _save_logs (st : EnhancedAIDetector_with_log)
  : EnhancedAIDetector_with_log :=
  if writable (fs st) then
    {| model := model st; replay_buffer := replay_buffer st;
       prediction_log := prediction_log st;
       fs := {| writable := writable (fs st);
                log_file := content (prediction_log st);
                buffer_file := buffer_file (fs st) |};
       log := log st |}
  else
    {| model := model st; replay_buffer := replay_buffer st;
       prediction_log := prediction_log st; fs := fs st;
       log := log st ++ [error_failed_to_save_logs] |}.

(** [EnhancedAIDetector._load_logs]. *)
Definition _load_logs (st : EnhancedAIDetector_with_log)
  : EnhancedAIDetector_with_log :=
  match log_file (fs st) with
  | absent => st
  | unreadable =>
      {| model := model st; replay_buffer := replay_buffer st;
         prediction_log := prediction_log st; fs := fs st;
         log := log st ++ [error_failed_to_load_logs] |}
  | content data =>
      {| model := model st; replay_buffer := replay_buffer st;
         prediction_log := data; fs := fs st;
         log := log st ++ [info_loaded_prediction_logs (length data)] |}
  end.

(** [EnhancedAIDetector.log_prediction(image_data, result, metadata)];
    [now] and [now_add] are the two readings of the clock, for the log
    entry and for the example. *)
Definition log_prediction (st : EnhancedAIDetector_with_log)
    (img : image_data) (result : result)
    (metadata : option (list (string * string))) (now now_add : string)
  : EnhancedAIDetector_with_log :=
  let log_entry :=
    {| entry_timestamp := now;
       entry_prediction := prediction result;
       entry_confidence := confidence result;
       entry_synthetic_probability := synthetic_probability result;
       entry_real_probability := real_probability result;
       entry_is_uncertain := is_uncertain result;
       entry_metadata := match metadata with
                         | Some m => m
                         | None => []
                         end |} in
  let prediction_log := prediction_log st ++ [log_entry] in
  let replay_buffer :=
    if (is_uncertain result || Torch.Qltb (confidence result) (4 # 5))%bool
    then add (replay_buffer st) img (prediction result) (confidence result)
             None now_add
    else replay_buffer st in
  let st := {| model := model st; replay_buffer := replay_buffer;
               prediction_log := prediction_log; fs := fs st;
               log := log st |} in
  if (length prediction_log mod 10 =? 0)%nat then
    let st := _save_logs st in
    let '(d, lines) := save (replay_buffer) (fs st) in
    {| model := model st; replay_buffer := replay_buffer;
       prediction_log := prediction_log; fs := d;
       log := log st ++ lines |}
  else st.

(** [EnhancedAIDetector.set_uncertainty_threshold(threshold)]. *)
Definition set_uncertainty_threshold (st : EnhancedAIDetector_with_log)
    (threshold : Q) : EnhancedAIDetector_with_log :=
  {| model := {| net := net (model st);
                 temperature := temperature (model st);
                 uncertainty_threshold := threshold;
                 training := training (model st);
                 gen := gen (model st) |};
     replay_buffer := replay_buffer st;
     prediction_log := prediction_log st; fs := fs st;
     log := log st ++ [info_uncertainty_threshold_set threshold] |}.

(** The dict [get_model_stats] returns; the last three keys are missing
    from the dict of an empty log. *)
Record model_stats : Type := {
  total_predictions : nat;
  uncertain_predictions : nat;
  synthetic_predictions : nat;
  real_predictions : nat;
  average_confidence : Q;
  (* 'uncertainty_threshold', 'temperature', 'replay_buffer_size' *)
  settings : option (Q * Q * nat)
}.

(** [sum(1 for log in self.prediction_log if test(log))]. *)
Definition count (test : log_entry -> bool) (l : list log_entry) : nat :=
  fold_left (fun n entry => if test entry then (n + 1)%nat else n) l 0%nat.

(** [EnhancedAIDetector.get_model_stats]. *)
Definition get_model_stats (st : EnhancedAIDetector_with_log) : model_stats :=
  let total_preds := length (prediction_log st) in
  if (total_preds =? 0)%nat then
    {| total_predictions := 0; uncertain_predictions := 0;
       synthetic_predictions := 0; real_predictions := 0;
       average_confidence := 0; settings := None |}
  else
    let uncertain_count := count entry_is_uncertain (prediction_log st) in
    let synthetic_count :=
      count (fun entry => String.eqb (entry_prediction entry) "synthetic")
            (prediction_log st) in
    let real_count :=
      count (fun entry => String.eqb (entry_prediction entry) "real")
            (prediction_log st) in
    let avg_confidence :=
      fold_left Qplus (map entry_confidence (prediction_log st)) 0
      / inject_Z (Z.of_nat total_preds) in
    {| total_predictions := total_preds;
       uncertain_predictions := uncertain_count;
       synthetic_predictions := synthetic_count;
       real_predictions := real_count;
       average_confidence := avg_confidence;
       settings := Some (uncertainty_threshold (model st),
                         temperature (model st),
                         length (buffer (replay_buffer st))) |}.

End Logging.

(** A detector with an empty log and an empty replay buffer of capacity
    [cap] over [linear_detector], on a writable disk without files. *)
Definition linear_logged (cap : nat)
  : @EnhancedAIDetector_with_log linear_runtime Q :=
  {| model := linear_detector;
     replay_buffer := {| max_size := cap; buffer := [] |};
     prediction_log := [];
     fs := {| writable := true; log_file := absent; buffer_file := absent |};
     log := [] |}.

End Fixed.

(** ** enhanced-ai-detector.py *)

Module Pipeline.

(** *** [class ReplayBuffer] *)

(** [np.random.choice(n, k, replace=False)]: [k] distinct indices below
    [n], or [ValueError] ([None]) when [k] exceeds [n]. *)
Class Random : Type := {
  np_generator : Type;
  np_random_choice : np_generator -> nat -> nat -> option (list nat) * np_generator
}.

(** What numpy documents of [choice] without replacement. *)
Definition without_replacement (RND : Random) : Prop :=
  forall g n k, (k <= n)%nat ->
    exists l, fst (np_random_choice g n k) = Some l
              /\ length l = k /\ NoDup l /\ Forall (fun i => (i < n)%nat) l.

(** A generator for tests: it always picks the first [k] indices. *)
Definition first_indices : Random :=
  {| np_generator := unit;
     np_random_choice := fun g n k =>
       (if (k <=? n)%nat then Some (seq 0 k) else None, g) |}.

Section Replay.
Variable image : Type.

(** One dict of the deque.  The store keeps its insertion counter under
    the key ['timestamp']. *)
Record sample : Type := {
  s_image : image;
  s_prediction : nat;
  s_confidence : Q;
  ground_truth : option Z;
  user_feedback : option Z;
  timestamp : nat
}.

Record ReplayBuffer : Type := {
  max_size : nat;
  buffer : list sample             (* deque(maxlen=max_size), oldest first *)
}.

(** [ReplayBuffer(max_size)]. *)
Definition ReplayBuffer_init (max_size : nat) : ReplayBuffer :=
  {| max_size := max_size; buffer := [] |}.

(** [deque.append] on a deque bounded by [maxlen]: a full deque drops its
    oldest entry; a deque of bound zero keeps nothing. *)
Definition deque_append (A : Type) (maxlen : nat) (d : list A) (x : A) : list A :=
  if (maxlen =? 0)%nat then []
  else if (length d <? maxlen)%nat then d ++ [x]
       else tl d ++ [x].

Definition get_size (rb : ReplayBuffer) : nat := length (buffer rb).

(** [ReplayBuffer.add]: the dict is built, [len(self.buffer)] read, before
    the append. *)
Definition add (rb : ReplayBuffer) (img : image) (prediction : nat)
    (confidence : Q) (ground_truth user_feedback : option Z) : ReplayBuffer :=
  let entry :=
    {| s_image := img; s_prediction := prediction;
       s_confidence := confidence;
       ground_truth := ground_truth; user_feedback := user_feedback;
       timestamp := length (buffer rb) |} in
  {| max_size := max_size rb;
     buffer := deque_append (max_size rb) (buffer rb) entry |}.

(** [0.7] as the double it is: [6305039478318694 * 2^-53]. *)
Definition double_07 : Z := 6305039478318694.

(** [int(batch_size * 0.7)] in double arithmetic: the exact product is
    rounded to 53 significant bits, ties to even, then truncated.
    Exact for [batch_size < 2^53]. *)
Definition int_times_07 (batch_size : nat) : nat :=
  let N := (Z.of_nat batch_size * double_07)%Z in
  let bits := (Z.log2 N + 1)%Z in
  if (bits <=? 53)%Z then Z.to_nat (Z.shiftr N 53)
  else
    let s := (bits - 53)%Z in
    let q := Z.shiftr N s in
    let r := (N mod 2 ^ s)%Z in
    let half := (2 ^ (s - 1))%Z in
    let q' := if ((half <? r) || ((r =? half) && Z.odd q))%Z
              then (q + 1)%Z else q in
    Z.to_nat (Z.shiftr (Z.shiftl q' s) 53).

Definition has_feedback (s : sample) : bool :=
  match user_feedback s with Some _ => true | None => false end.

(** The positions of the deque whose entry passes [keep], in order: the
    list comprehension [[s for s in self.buffer if ...]] with every dict
    named by its position, since the lists hold the dicts themselves. *)
Definition positions (keep : sample -> bool) (d : list sample) : list nat :=
  map fst (filter (fun ix => keep (snd ix)) (combine (seq 0 (length d)) d)).

Context {RND : Random}.

(** [[pool[i] for i in indices]]; an index out of range raises. *)
Fixpoint pick (pool : list nat) (indices : list nat) : option (list nat) :=
  match indices with
  | [] => Some []
  | i :: rest =>
      match nth_error pool i, pick pool rest with
      | Some p, Some ps => Some (p :: ps)
      | _, _ => None
      end
  end.

(** [ReplayBuffer.sample(batch_size)], returning the selected dicts by
    their positions in the deque.  [None] is an escaping exception. *)
Definition sample_positions (rb : ReplayBuffer) (batch_size : nat)
    (g : np_generator) : option (list nat) * np_generator :=
  if (length (buffer rb) <? batch_size)%nat
  then (Some (seq 0 (length (buffer rb))), g)
  else
    let feedback_samples := positions has_feedback (buffer rb) in
    let no_feedback_samples :=
      positions (fun s => negb (has_feedback s)) (buffer rb) in
    let feedback_count :=
      Nat.min (int_times_07 batch_size) (length feedback_samples) in
    let no_feedback_count := (batch_size - feedback_count)%nat in
    let '(selected, g) :=
      if (0 <? feedback_count)%nat then
        let '(idx, g') :=
          np_random_choice g (length feedback_samples) feedback_count in
        (match idx with
         | Some feedback_indices => pick feedback_samples feedback_indices
         | None => None
         end, g')
      else (Some [], g) in
    match selected with
    | None => (None, g)
    | Some selected =>
        if ((0 <? no_feedback_count)%nat
            && negb (length no_feedback_samples =? 0)%nat)%bool then
          let '(idx, g') :=
            np_random_choice g (length no_feedback_samples)
              (Nat.min no_feedback_count (length no_feedback_samples)) in
          (match idx with
           | Some no_feedback_indices =>
               match pick no_feedback_samples no_feedback_indices with
               | Some more => Some (selected ++ more)
               | None => None
               end
           | None => None
           end, g')
        else (Some selected, g)
    end.

(** The dicts behind the positions. *)
Definition deref (rb : ReplayBuffer) (ps : list nat) : list sample :=
  flat_map (fun p => match nth_error (buffer rb) p with
                     | Some s => [s]
                     | None => []
                     end) ps.

(** [ReplayBuffer.sample(batch_size)] with the dicts themselves ([sample]
    is taken by the record of one dict). *)
Definition sample_ (rb : ReplayBuffer) (batch_size : nat) (g : np_generator)
  : option (list sample) * np_generator :=
  let '(ps, g') := sample_positions rb batch_size g in
  (option_map (deref rb) ps, g').

End Replay.

(** Stores for tests: scalar images, [with_feedback] labelled samples
    that carry user feedback followed by [without] samples that carry
    none. *)
Definition test_sample (i : nat) (feedback : bool) : sample Q :=
  {| s_image := inject_Z (Z.of_nat i);
     s_prediction := 1%nat;
     s_confidence := 9 # 10;
     ground_truth := if feedback then Some 1%Z else None;
     user_feedback := if feedback then Some 1%Z else None;
     timestamp := i |}.

Definition test_store (with_feedback without : nat) : ReplayBuffer Q :=
  {| max_size := 100;
     buffer := map (fun i => test_sample i true) (seq 0 with_feedback)
               ++ map (fun i => test_sample i false) (seq with_feedback without) |}.

(** *** The model and its named parameters *)

(** One [nn.Parameter]. *)
Record nn_param : Type := {
  data : Torch.tensor;             (* the values, flattened *)
  requires_grad : bool
}.

(** [class EnhancedAIDetector]: the weights of backbone, frequency
    extractor, fusion and classifier under their dotted names, and the one
    parameter of [temperature_scaling]. *)
Record EnhancedAIDetector : Type := {
  weights : list (string * nn_param);
  temperature : Q;
  training : bool
}.

Definition temperature_name : string := "temperature_scaling.temperature".

(** [model.named_parameters()], in registration order. *)
Definition named_parameters (m : EnhancedAIDetector) : list (string * nn_param) :=
  weights m ++ [(temperature_name,
                 {| data := [temperature m]; requires_grad := true |})].

Definition set_training (m : EnhancedAIDetector) (b : bool) : EnhancedAIDetector :=
  {| weights := weights m; temperature := temperature m; training := b |}.

Definition set_temperature (m : EnhancedAIDetector) (t : Q) : EnhancedAIDetector :=
  {| weights := weights m; temperature := t; training := training m |}.

(** *** [class ElasticWeightConsolidation] *)

(** A Python dict from parameter names to tensors. *)
Definition dict := list (string * Torch.tensor).

Fixpoint dict_get (d : dict) (k : string) : option Torch.tensor :=
  match d with
  | [] => None
  | (k', v) :: r => if String.eqb k k' then Some v else dict_get r k
  end.

(** [d[k] = v]: an existing key keeps its place and takes the new value. *)
Fixpoint dict_set (d : dict) (k : string) (v : Torch.tensor) : dict :=
  match d with
  | [] => [(k, v)]
  | (k', v') :: r =>
      if String.eqb k k' then (k, v) :: r else (k', v') :: dict_set r k v
  end.

(** [{n: f(p) for n, p in items}]. *)
Definition dict_of (items : list (string * Torch.tensor)) : dict :=
  fold_left (fun d kv => dict_set d (fst kv) (snd kv)) items [].

Definition dict_mem (d : dict) (k : string) : bool :=
  match dict_get d k with Some _ => true | None => false end.

Record ElasticWeightConsolidation : Type := {
  lambda_ewc : Q;
  ewc_params : dict;               (* self.params *)
  fisher : dict
}.

Definition trainable (m : EnhancedAIDetector) : list (string * nn_param) :=
  filter (fun np => requires_grad (snd np)) (named_parameters m).

(** [ElasticWeightConsolidation(model, lambda_ewc)].  The guard keeps a
    reference to the model; the functions below take the model as it is
    at the time of the call. *)
Definition ElasticWeightConsolidation_init (m : EnhancedAIDetector) (lambda_ewc : Q)
  : ElasticWeightConsolidation :=
  {| lambda_ewc := lambda_ewc;
     ewc_params :=
       dict_of (map (fun np => (fst np, data (snd np))) (trainable m));
     fisher :=
       dict_of (map (fun np => (fst np, map (fun _ => 0) (data (snd np))))
                    (trainable m)) |}.

(** An element-wise operation on two tensors of one shape, as every call
    of the code has it: the Fisher entry, the snapshot and the gradient of
    one parameter have the shape of that parameter.  Operands of different
    sizes, which torch would broadcast or reject, are outside the model:
    [None]. *)
Fixpoint zip_with (f : Q -> Q -> Q) (a b : Torch.tensor) : option Torch.tensor :=
  match a, b with
  | [], [] => Some []
  | x :: a', y :: b' =>
      match zip_with f a' b' with
      | Some r => Some (f x y :: r)
      | None => None
      end
  | _, _ => None
  end.

(** [(self.fisher[n] * (p - self.params[n]).pow(2)).sum()] for one
    parameter that passes the test of the loop, [0] for one that does
    not; [None] is a [KeyError] or a shape error. *)
Definition penalty_term (e : ElasticWeightConsolidation)
    (np : string * nn_param) : option Q :=
  let '(n, p) := np in
  if (requires_grad p && dict_mem (fisher e) n)%bool then
    match dict_get (fisher e) n, dict_get (ewc_params e) n with
    | Some f, Some snapshot =>
        match zip_with Qminus (data p) snapshot with
        | Some drift =>
            match zip_with Qmult f (map (fun d => d * d) drift) with
            | Some weighted => Some (Torch.sum_list weighted)
            | None => None
            end
        | None => None
        end
    | _, _ => None
    end
  else Some 0.

(** [ElasticWeightConsolidation.penalty()]. *)
Definition penalty (e : ElasticWeightConsolidation) (m : EnhancedAIDetector)
  : option Q :=
  let loss :=
    fold_left (fun acc np =>
                 match acc, penalty_term e np with
                 | Some l, Some t => Some (l + t)
                 | _, _ => None
                 end)
              (named_parameters m) (Some 0) in
  option_map (fun l => lambda_ewc e * l) loss.

(** One batch of [compute_fisher]: [grads] is [p.grad] of every named
    parameter after [loss.backward()]. *)
Definition accumulate_fisher (m : EnhancedAIDetector)
    (grads : string -> option Torch.tensor) (fisher : dict) : option dict :=
  fold_left (fun acc np =>
               match acc with
               | None => None
               | Some fi =>
                   if requires_grad (snd np) then
                     match grads (fst np) with
                     | Some g =>
                         match dict_get fi (fst np) with
                         | Some old =>
                             match zip_with Qplus old (map (fun x => x * x) g) with
                             | Some new => Some (dict_set fi (fst np) new)
                             | None => None
                             end
                         | None => None
                         end
                     | None => Some fi
                     end
                   else Some fi
               end)
            (named_parameters m) (Some fisher).

(** *** [class GradCAMVisualizer] *)

(** The part of [GradCAMVisualizer.generate_heatmap] after the backward
    pass.  [hooks] is what the two hooks stored for the one image of the
    batch ([self.gradients[0]], [self.activations[0]]); with nothing
    stored [torch.mean(None)] raises.  The map is divided by its maximum
    whatever that is. *)
Definition generate_heatmap (hooks : option (list Torch.map2d * list Torch.map2d))
  : option Torch.heatmap :=
  match hooks with
  | Some (gradients, activations) =>
      let weights := map Torch.spatial_mean gradients in
      let heatmap := Torch.weighted_sum weights activations in
      let heatmap := map (map Torch.relu) heatmap in
      match Torch.max (concat heatmap) with
      | Some (mx, _) => Some (map (map (fun c => Torch.fdiv c mx)) heatmap)
      | None => None
      end
  | None => None
  end.

(** *** [class EnhancedAIDetectorPipeline] *)

(** The library side of the pipeline. *)
Class Backend : Type := {
  image : Type;                    (* a preprocessed image tensor [C,H,W] *)
  raw_image : Type;                (* an RGB array (H, W, C) *)
  torch_generator : Type;          (* torch's default random generator *)
  optimizer_state : Type;          (* AdamW *)
  scheduler_state : Type;          (* CosineAnnealingLR *)
  val_transform : raw_image -> image;
  (* backbone, frequency extractor, fusion and classifier: the logits,
     in eval mode and in train mode *)
  network_eval : list (string * nn_param) -> list image -> list Torch.tensor;
  network_train : list (string * nn_param) -> torch_generator -> list image
                  -> list Torch.tensor * list (string * nn_param) * torch_generator;
  softmax : Torch.tensor -> Torch.tensor;
  (* what the Grad-CAM hooks hold after the backward pass of a class score *)
  grad_cam_hooks : EnhancedAIDetector -> image -> nat
                   -> option (list Torch.map2d * list Torch.map2d);
  (* [p.grad] per parameter name after the backward pass of the
     cross-entropy loss on one batch *)
  cross_entropy_grads : EnhancedAIDetector -> list image -> list Z
                        -> string -> option Torch.tensor;
  (* [DataLoader(TensorDataset(images, labels), batch_size, shuffle)],
     iterated once; a batch size of zero raises *)
  data_loader : torch_generator -> list (image * Z) -> nat -> bool
                -> option (list (list image * list Z)) * torch_generator;
  (* [torch.randn(2, 3, 224, 224)]: two images *)
  randn_images : torch_generator -> (image * image) * torch_generator;
  (* forward in train mode, focal loss, backward of focal loss plus EWC
     penalty, [optimizer.step()]: the focal loss and the new state *)
  train_step : EnhancedAIDetector -> optimizer_state
               -> option ElasticWeightConsolidation
               -> list image -> list Z -> torch_generator
               -> Q * EnhancedAIDetector * optimizer_state * torch_generator;
  scheduler_step : scheduler_state -> optimizer_state
                   -> scheduler_state * optimizer_state
}.

(** A [DataLoader] over a dataset that is not empty yields at least one
    batch. *)
Definition loader_has_batches (BE : Backend) : Prop :=
  forall g ds batch_size shuffle batches g',
    ds <> [] ->
    data_loader g ds batch_size shuffle = (Some batches, g') ->
    batches <> [].

(** A backend for tests: images are scalars, the network multiplies them
    by the first entries of its first two weights, and training leaves
    every state as it is. *)
Definition scalar_backend : Backend :=
  {| image := Q;
     raw_image := Q;
     torch_generator := unit;
     optimizer_state := unit;
     scheduler_state := unit;
     val_transform := fun x => x;
     network_eval := fun w xs =>
       map (fun x => map (fun np => hd 0 (data (snd np)) * x) (firstn 2 w)) xs;
     network_train := fun w g xs =>
       (map (fun x => map (fun np => hd 0 (data (snd np)) * x) (firstn 2 w)) xs,
        w, g);
     softmax := fun l => map (fun x => x / Torch.sum_list l) l;
     grad_cam_hooks := fun _ _ _ => None;
     cross_entropy_grads := fun _ _ _ _ => None;
     data_loader := fun g ds bs _ =>
       (if (bs =? 0)%nat then None else Some [(map fst ds, map snd ds)], g);
     randn_images := fun g => ((0, 0), g);
     train_step := fun m o _ _ _ g => (0, m, o, g);
     scheduler_step := fun s o => (s, o) |}.


(** The lines the module-level logger receives. *)
Inductive log_record : Type :=
| warning_not_enough_samples
| info_starting_incremental_training (size : nat)
| info_epoch (epoch num_epochs : nat) (avg_loss : Q)
| info_incremental_training_completed
| info_added_feedback (ground_truth : Z) (user_feedback : option Z)
| info_temperature_calibrated (t : Q).

Inductive level : Type := INFO | WARNING | ERROR.

Definition levelname (r : log_record) : level :=
  match r with
  | warning_not_enough_samples => WARNING
  | _ => INFO
  end.

Section WithBackend.
Context {BE : Backend} {RND : Random}.

Record EnhancedAIDetectorPipeline : Type := {
  model : EnhancedAIDetector;
  optimizer : optimizer_state;
  scheduler : scheduler_state;
  confidence_threshold : Q;
  replay_buffer : ReplayBuffer image;
  ewc : option ElasticWeightConsolidation;
  np_random : np_generator;        (* numpy's global generator *)
  torch_random : torch_generator;
  log : list log_record            (* the logger's output, oldest first *)
}.

Definition with_model (p : EnhancedAIDetectorPipeline) (m : EnhancedAIDetector) :=
  {| model := m; optimizer := optimizer p; scheduler := scheduler p;
     confidence_threshold := confidence_threshold p;
     replay_buffer := replay_buffer p; ewc := ewc p;
     np_random := np_random p; torch_random := torch_random p; log := log p |}.

Definition with_replay_buffer (p : EnhancedAIDetectorPipeline)
    (rb : ReplayBuffer image) :=
  {| model := model p; optimizer := optimizer p; scheduler := scheduler p;
     confidence_threshold := confidence_threshold p;
     replay_buffer := rb; ewc := ewc p;
     np_random := np_random p; torch_random := torch_random p; log := log p |}.

Definition with_ewc (p : EnhancedAIDetectorPipeline)
    (e : option ElasticWeightConsolidation) :=
  {| model := model p; optimizer := optimizer p; scheduler := scheduler p;
     confidence_threshold := confidence_threshold p;
     replay_buffer := replay_buffer p; ewc := e;
     np_random := np_random p; torch_random := torch_random p; log := log p |}.

Definition with_random (p : EnhancedAIDetectorPipeline)
    (g : np_generator) (tg : torch_generator) :=
  {| model := model p; optimizer := optimizer p; scheduler := scheduler p;
     confidence_threshold := confidence_threshold p;
     replay_buffer := replay_buffer p; ewc := ewc p;
     np_random := g; torch_random := tg; log := log p |}.

Definition with_optimizer (p : EnhancedAIDetectorPipeline)
    (o : optimizer_state) (s : scheduler_state) :=
  {| model := model p; optimizer := o; scheduler := s;
     confidence_threshold := confidence_threshold p;
     replay_buffer := replay_buffer p; ewc := ewc p;
     np_random := np_random p; torch_random := torch_random p; log := log p |}.

(** [logger.info(...)] / [logger.warning(...)]. *)
Definition logger (p : EnhancedAIDetectorPipeline) (r : log_record) :=
  {| model := model p; optimizer := optimizer p; scheduler := scheduler p;
     confidence_threshold := confidence_threshold p;
     replay_buffer := replay_buffer p; ewc := ewc p;
     np_random := np_random p; torch_random := torch_random p;
     log := log p ++ [r] |}.

(** [class TemperatureScaling]: [forward]. *)
Definition TemperatureScaling_forward (temperature : Q) (logits : Torch.tensor)
  : Torch.tensor :=
  map (fun l => l / temperature) logits.

(** [EnhancedAIDetector.forward]: logits and calibrated logits, one row
    per image, with the model and generator afterwards. *)
Definition forward (m : EnhancedAIDetector) (tg : torch_generator)
    (x : list image)
  : list Torch.tensor * list Torch.tensor * EnhancedAIDetector * torch_generator :=
  let '(logits, m', tg') :=
    if training m then
      let '(lg, w', tg') := network_train (weights m) tg x in
      (lg, {| weights := w'; temperature := temperature m;
              training := true |}, tg')
    else (network_eval (weights m) x, m, tg) in
  (logits, map (TemperatureScaling_forward (temperature m')) logits, m', tg').

(** What the call of a module returns: one tensor, or the tuple
    [(logits, calibrated_logits)] of [EnhancedAIDetector.forward]. *)
Inductive module_output : Type :=
| tensor_output (rows : list Torch.tensor)
| tuple_output (logits calibrated_logits : list Torch.tensor).

(** [output[:, class_idx]] and [F.cross_entropy(output, target)] are
    defined on a tensor; on a tuple they raise TypeError. *)
Definition is_tensor (output : module_output) : bool :=
  match output with
  | tensor_output _ => true
  | tuple_output _ _ => false
  end.

(** [GradCAMVisualizer.generate_heatmap(input_tensor, class_idx)] from its
    first line, with the pipeline's model as [self.model]:
    [self.model.eval()], the forward pass, [output[:, class_idx]] and the
    backward pass, which needs gradients to be enabled, then the part
    after the backward pass.  [None] is an exception. *)
Definition GradCAMVisualizer_generate_heatmap (m : EnhancedAIDetector)
    (tg : torch_generator) (input_tensor : image) (class_idx : nat)
    (grad_enabled : bool) : option Torch.heatmap :=
  let m := set_training m false in
  let '(logits, calibrated_logits, _, _) := forward m tg [input_tensor] in
  let output := tuple_output logits calibrated_logits in
  if (is_tensor output && grad_enabled)%bool
  then generate_heatmap (grad_cam_hooks m input_tensor class_idx)
  else None.

(** The dict [predict] returns. *)
Record prediction_result : Type := {
  prediction : string;
  confidence : Q;
  is_certain : bool;
  probabilities_real : Q;
  probabilities_ai_generated : Q;
  heatmap : option Torch.heatmap   (* the key is absent without a heatmap *)
}.

(** The result built from the probabilities of the one image, before the
    heatmap is attached, and the predicted class index.  [None] is the
    exception of a row with fewer than two classes. *)
Definition make_result (threshold : Q) (probs : Torch.tensor)
  : option (prediction_result * nat) :=
  match Torch.max probs with
  | None => None
  | Some (conf, predicted) =>
      let certain := Torch.Qgeb conf threshold in
      match nth_error probs 0, nth_error probs 1 with
      | Some real_prob, Some ai_prob =>
          Some ({| prediction :=
                     if (predicted =? 1)%nat then "ai_generated"%string
                     else "real"%string;
                   confidence := conf;
                   is_certain := certain;
                   probabilities_real := real_prob;
                   probabilities_ai_generated := ai_prob;
                   heatmap := None |}, predicted)
      | _, _ => None
      end
  end.

Definition with_heatmap (r : prediction_result) (h : Torch.heatmap) :=
  {| prediction := prediction r; confidence := confidence r;
     is_certain := is_certain r;
     probabilities_real := probabilities_real r;
     probabilities_ai_generated := probabilities_ai_generated r;
     heatmap := Some h |}.

(** [EnhancedAIDetectorPipeline.predict(image, return_heatmap)]: the
    result ([None] when an exception escapes) and the pipeline afterwards.
    The whole body runs under [torch.no_grad()]. *)
Definition predict (p : EnhancedAIDetectorPipeline) (img : raw_image)
    (return_heatmap : bool)
  : option prediction_result * EnhancedAIDetectorPipeline :=
  let p := with_model p (set_training (model p) false) in
  let input_tensor := val_transform img in
  let '(_, calibrated_logits, m, tg) :=
    forward (model p) (torch_random p) [input_tensor] in
  let p := with_random (with_model p m) (np_random p) tg in
  match calibrated_logits with
  | [row] =>
      match make_result (confidence_threshold p) (softmax row) with
      | Some (result, predicted) =>
          let with_map :=
            if return_heatmap then
              match GradCAMVisualizer_generate_heatmap
                      (model p) (torch_random p) input_tensor predicted
                      false with
              | Some h => Some (with_heatmap result h)
              | None => None
              end
            else Some result in
          match with_map with
          | Some result =>
              (Some result,
               with_replay_buffer p
                 (add (replay_buffer p) input_tensor predicted
                      (confidence result) None None))
          | None => (None, p)
          end
      | None => (None, p)
      end
  | _ => (None, p)
  end.

(** [last_sample = self.replay_buffer.buffer[-1]] updated in place. *)
Fixpoint update_last (d : list (sample image))
    (f : sample image -> sample image) : list (sample image) :=
  match d with
  | [] => []
  | [s] => [f s]
  | s :: r => s :: update_last r f
  end.

(** [EnhancedAIDetectorPipeline.add_feedback(image, ground_truth, user_feedback)]. *)
Definition add_feedback (p : EnhancedAIDetectorPipeline) (img : raw_image)
    (gt : Z) (uf : option Z) : EnhancedAIDetectorPipeline :=
  if (0 <? get_size (replay_buffer p))%nat then
    let upd (s : sample image) :=
      {| s_image := s_image s; s_prediction := s_prediction s;
         s_confidence := s_confidence s;
         ground_truth := Some gt;
         user_feedback := match uf with
                          | Some u => Some u
                          | None => user_feedback s
                          end;
         timestamp := timestamp s |} in
    logger (with_replay_buffer p
              {| max_size := max_size (replay_buffer p);
                 buffer := update_last (buffer (replay_buffer p)) upd |})
           (info_added_feedback gt uf)
  else p.

(** [EnhancedAIDetectorPipeline.calibrate_temperature(validation_data)].
    [lbfgs] is the value [torch.optim.LBFGS(..., lr=0.01, max_iter=50).step]
    leaves in the temperature. *)
Definition calibrate_temperature
    (lbfgs : Q -> list Torch.tensor -> list Z -> nat -> Q -> Q)
    (p : EnhancedAIDetectorPipeline)
    (validation_data : list (list image * list Z))
  : EnhancedAIDetectorPipeline :=
  let m := set_training (model p) false in
  let all_logits :=
    flat_map (fun batch => network_eval (weights m) (fst batch))
             validation_data in
  let all_labels := flat_map (fun batch => snd batch) validation_data in
  let t := lbfgs (temperature m) all_logits all_labels 50%nat (1 # 100) in
  logger (with_model p (set_temperature m t)) (info_temperature_calibrated t).

Definition labeled (s : sample image) : bool :=
  match ground_truth s with Some _ => true | None => false end.

Definition labels_of (l : list (sample image)) : list Z :=
  flat_map (fun s => match ground_truth s with
                     | Some y => [y]
                     | None => []
                     end) l.

(** [_create_dataloader_from_samples(samples, batch_size)]. *)
Definition _create_dataloader_from_samples (samples : list (sample image))
    (batch_size : nat) (tg : torch_generator)
  : option (list (list image * list Z)) * torch_generator :=
  let labeled_samples := filter labeled samples in
  if (length labeled_samples =? 0)%nat then
    let '((dummy0, dummy1), tg) := randn_images tg in
    data_loader tg [(dummy0, 0%Z); (dummy1, 1%Z)] 2%nat false
  else
    data_loader tg
      (combine (map (@s_image image) labeled_samples) (labels_of labeled_samples))
      batch_size true.

(** [ElasticWeightConsolidation.compute_fisher(dataloader)] for a model
    whose call returns one tensor, the gradients of the loss being those
    of the backend: the guard with its new Fisher dict and the model, now
    in eval mode. *)
Definition compute_fisher (e : ElasticWeightConsolidation)
    (m : EnhancedAIDetector) (dataloader : list (list image * list Z))
  : option (ElasticWeightConsolidation * EnhancedAIDetector) :=
  let m := set_training m false in
  let zeros :=
    dict_of (map (fun np => (fst np, map (fun _ => 0) (data (snd np))))
                 (trainable m)) in
  let accumulated :=
    fold_left (fun acc batch =>
                 match acc with
                 | Some fi =>
                     accumulate_fisher m
                       (cross_entropy_grads m (fst batch) (snd batch)) fi
                 | None => None
                 end)
              dataloader (Some zeros) in
  match accumulated with
  | Some fi =>
      let n := inject_Z (Z.of_nat (length dataloader)) in
      Some ({| lambda_ewc := lambda_ewc e; ewc_params := ewc_params e;
               fisher := map (fun kv => (fst kv, map (fun x => x / n) (snd kv))) fi |},
            m)
  | None => None
  end.

(** [self.ewc.compute_fisher(fisher_loader)] as [incremental_train] calls
    it: the guard's [self.model] is the pipeline's [EnhancedAIDetector],
    whose call returns a tuple, so [F.cross_entropy(output, target)]
    raises in the first iteration of the loop, after [self.model.eval()].
    A loader without batches does not enter the loop. *)
Definition compute_fisher_of_pipeline (e : ElasticWeightConsolidation)
    (m : EnhancedAIDetector) (tg : torch_generator)
    (dataloader : list (list image * list Z))
  : option (ElasticWeightConsolidation * EnhancedAIDetector) :=
  match dataloader with
  | [] => compute_fisher e m []
  | (data, target) :: _ =>
      let '(logits, calibrated_logits, _, _) :=
        forward (set_training m false) tg data in
      if is_tensor (tuple_output logits calibrated_logits)
      then compute_fisher e m dataloader
      else None
  end.

(** The loop over mini-batches of one epoch, [n] iterations to go: the
    accumulated loss and the number of batches, [None] when an exception
    escapes, and the pipeline as it is left. *)
Fixpoint train_batches (n batch_size : nat) (p : EnhancedAIDetectorPipeline)
    (epoch_loss : Q) (num_batches : nat)
  : option (Q * nat) * EnhancedAIDetectorPipeline :=
  match n with
  | O => (Some (epoch_loss, num_batches), p)
  | S n' =>
      let '(samples, g) := sample_ (replay_buffer p) batch_size (np_random p) in
      let p := with_random p g (torch_random p) in
      match samples with
      | None => (None, p)
      | Some samples =>
          let labeled_samples := filter labeled samples in
          if (length labeled_samples <? 2)%nat
          then train_batches n' batch_size p epoch_loss num_batches
          else
            let images := map (@s_image image) labeled_samples in
            let labels := labels_of labeled_samples in
            let ewc_penalty :=
              match ewc p with
              | Some e => penalty e (model p)
              | None => Some 0
              end in
            match ewc_penalty with
            | None =>
                (* the forward pass has run when [penalty()] raises *)
                let '(_, _, m, tg) :=
                  forward (model p) (torch_random p) images in
                (None, with_random (with_model p m) (np_random p) tg)
            | Some ewc_penalty =>
                let '(focal_loss, m, o, tg) :=
                  train_step (model p) (optimizer p) (ewc p) images labels
                             (torch_random p) in
                let total_loss := focal_loss + ewc_penalty in
                train_batches n' batch_size
                  (with_random
                     (with_optimizer (with_model p m) o (scheduler p))
                     (np_random p) tg)
                  (epoch_loss + total_loss) (S num_batches)
            end
      end
  end.

(** The loop over epochs, [remaining] of them to go, [epoch] done. *)
Fixpoint train_epochs (remaining epoch num_epochs batch_size : nat)
    (p : EnhancedAIDetectorPipeline)
  : option unit * EnhancedAIDetectorPipeline :=
  match remaining with
  | O => (Some tt, p)
  | S remaining' =>
      if (batch_size =? 0)%nat then (None, p)   (* [size // batch_size] *)
      else
        let '(losses, p) :=
          train_batches
            (Nat.min 10 (get_size (replay_buffer p) / batch_size))
            batch_size p 0 0%nat in
        match losses with
        | None => (None, p)
        | Some (epoch_loss, num_batches) =>
            let p :=
              if (0 <? num_batches)%nat
              then logger p (info_epoch (epoch + 1) num_epochs
                               (epoch_loss / inject_Z (Z.of_nat num_batches)))
              else p in
            train_epochs remaining' (S epoch) num_epochs batch_size p
        end
  end.

(** [EnhancedAIDetectorPipeline.incremental_train(num_epochs, batch_size)]:
    [Some tt] when the call returns, [None] when an exception escapes,
    and the pipeline as the call leaves it. *)
Definition incremental_train (p : EnhancedAIDetectorPipeline)
    (num_epochs batch_size : nat)
  : option unit * EnhancedAIDetectorPipeline :=
  if (get_size (replay_buffer p) <? batch_size)%nat then
    (Some tt, logger p warning_not_enough_samples)
  else
    let p := logger p (info_starting_incremental_training
                         (get_size (replay_buffer p))) in
    let '(initialised, p) :=
      match ewc p with
      | Some _ => (true, p)
      | None =>
          let '(samples, g) :=
            sample_ (replay_buffer p)
                    (Nat.min 100 (get_size (replay_buffer p))) (np_random p) in
          let p := with_random p g (torch_random p) in
          match samples with
          | None => (false, p)
          | Some samples =>
              let '(fisher_loader, tg) :=
                _create_dataloader_from_samples samples batch_size
                                                (torch_random p) in
              let p := with_random p (np_random p) tg in
              match fisher_loader with
              | None => (false, p)
              | Some fisher_loader =>
                  let e := ElasticWeightConsolidation_init (model p) 1000 in
                  let p := with_ewc p (Some e) in
                  match compute_fisher_of_pipeline e (model p)
                          (torch_random p) fisher_loader with
                  | Some (e, m) => (true, with_ewc (with_model p m) (Some e))
                  | None =>
                      (false, with_model p (set_training (model p) false))
                  end
              end
          end
      end in
    if initialised then
      let p := with_model p (set_training (model p) true) in
      let '(trained, p) := train_epochs num_epochs 0 num_epochs batch_size p in
      match trained with
      | None => (None, p)
      | Some _ =>
          let '(s, o) := scheduler_step (scheduler p) (optimizer p) in
          (Some tt,
           logger (with_optimizer p o s) info_incremental_training_completed)
      end
    else (None, p).



End WithBackend.

(** A pipeline for tests over [scalar_backend]: a classifier of two zero
    weights, the temperature [t], the default threshold, a replay buffer
    of capacity [cap] holding [samples], no EWC guard yet. *)
Definition scalar_pipeline (t : Q) (cap : nat) (samples : list (sample Q))
  : @EnhancedAIDetectorPipeline scalar_backend first_indices :=
  @Build_EnhancedAIDetectorPipeline scalar_backend first_indices
    {| weights := [("classifier.weight"%string,
                    {| data := [0]; requires_grad := true |});
                   ("classifier.bias"%string,
                    {| data := [0]; requires_grad := true |})];
       temperature := t;
       training := false |}
    tt tt (4 # 5)
    {| max_size := cap; buffer := samples |}
    None tt tt [].

(** [scalar_backend] with a backward pass: the gradient of every weight
    is the sum of the batch, the temperature gets none.  The
    probabilities are (1/4, 3/4) whatever the logits, and the Grad-CAM
    hooks hold one 2x2 channel. *)
Definition gradient_backend : Backend :=
  {| image := Q;
     raw_image := Q;
     torch_generator := unit;
     optimizer_state := unit;
     scheduler_state := unit;
     val_transform := fun x => x;
     network_eval := @network_eval scalar_backend;
     network_train := @network_train scalar_backend;
     softmax := fun l => [1 # 4; 3 # 4];
     grad_cam_hooks := fun _ _ _ =>
       Some ([[[1; 1]; [1; 1]]], [[[1; 2]; [3; 4]]]);
     cross_entropy_grads := fun _ xs _ n =>
       if String.eqb n temperature_name then None
       else Some [Torch.sum_list xs];
     data_loader := @data_loader scalar_backend;
     randn_images := @randn_images scalar_backend;
     train_step := @train_step scalar_backend;
     scheduler_step := @scheduler_step scalar_backend |}.

End Pipeline.

(* ================================================================== *)
(** * Part II: properties                                              *)
(* ================================================================== *)

Lemma Qltb_lt (a b : Q) : Torch.Qltb a b = true <-> a < b.
Proof.
  unfold Torch.Qltb. rewrite negb_true_iff.
  split; intro H.
  - apply Qnot_le_lt. intro L. apply Qle_bool_iff in L. congruence.
  - destruct (Qle_bool b a) eqn:E; [|reflexivity].
    apply Qle_bool_iff in E. exfalso. exact (Qlt_not_le _ _ H E).
Qed.

Lemma Qltb_ge (a b : Q) : Torch.Qltb a b = false <-> b <= a.
Proof.
  unfold Torch.Qltb. rewrite negb_false_iff. apply Qle_bool_iff.
Qed.

(** ** The cast to float32 *)

Section Float32Facts.

Lemma rne_comp : forall x y, x == y -> Torch.rne x = Torch.rne y.
Proof.
  intros x y H. unfold Torch.rne. rewrite (Qfloor_comp _ _ H).
  assert (E : x - inject_Z (Qfloor y) == y - inject_Z (Qfloor y))
    by (rewrite H; reflexivity).
  rewrite (Qcompare_comp _ _ E _ _ (Qeq_refl (1 # 2))). reflexivity.
Qed.

Lemma rne_inject_Z : forall z, Torch.rne (inject_Z z) = z.
Proof.
  intro z. unfold Torch.rne. rewrite Qfloor_Z.
  assert (E : inject_Z z - inject_Z z == 0) by ring.
  rewrite (Qcompare_comp _ _ E _ _ (Qeq_refl (1 # 2))). reflexivity.
Qed.

(** The two candidates. *)
Lemma rne_cases :
  forall x,
    let k := Qfloor x in
    (Torch.rne x = k /\ x - inject_Z k <= 1 # 2)
    \/ (Torch.rne x = (k + 1)%Z /\ 1 # 2 <= x - inject_Z k).
Proof.
  intros x k. unfold Torch.rne. fold k.
  destruct (Qcompare_spec (x - inject_Z k) (1 # 2)) as [E|L|G].
  - destruct (Z.even k); [left | right]; split; try reflexivity;
      rewrite E; apply Qle_refl.
  - left. split; [reflexivity | apply Qlt_le_weak; exact L].
  - right. split; [reflexivity | apply Qlt_le_weak; exact G].
Qed.

Lemma rne_mono : forall x y, x <= y -> (Torch.rne x <= Torch.rne y)%Z.
Proof.
  intros x y H.
  pose proof (Qfloor_resp_le _ _ H) as Hk.
  destruct (Z.eq_dec (Qfloor x) (Qfloor y)) as [E|N].
  - unfold Torch.rne. rewrite <- E.
    set (k := Qfloor x).
    destruct (Qcompare_spec (x - inject_Z k) (1 # 2)) as [Ex|Lx|Gx];
      destruct (Qcompare_spec (y - inject_Z k) (1 # 2)) as [Ey|Ly|Gy];
      try (destruct (Z.even k)); try lia; exfalso; lra.
  - destruct (rne_cases x) as [[-> _]|[-> _]];
      destruct (rne_cases y) as [[-> _]|[-> _]]; lia.
Qed.


Lemma pow2_pos : forall z : Z, 0 < 2 ^ z.
Proof. intro z. apply Qpower_0_lt. reflexivity. Qed.

Lemma pow2_plus : forall a b : Z, 2 ^ (a + b) == 2 ^ a * 2 ^ b.
Proof. intros. apply Qpower_plus. discriminate. Qed.

Lemma pow2_succ : forall a : Z, 2 ^ (a + 1) == 2 * 2 ^ a.
Proof. intro a. rewrite pow2_plus. change (2 ^ 1) with 2. ring. Qed.

Lemma pow2_le : forall a b : Z, (a <= b)%Z -> 2 ^ a <= 2 ^ b.
Proof. intros. apply Qpower_le_compat_l; [assumption | discriminate]. Qed.

Lemma pow2_lt_inv : forall a b : Z, 2 ^ a < 2 ^ b -> (a < b)%Z.
Proof. intros a b H. apply (Qpower_lt_compat_l_inv 2); [exact H | reflexivity]. Qed.

Lemma pow2_Z : forall a : Z, (0 <= a)%Z -> inject_Z (2 ^ a) == 2 ^ a.
Proof. intros a H. rewrite Zpower_Qpower by exact H. reflexivity. Qed.

Lemma ilog2_spec :
  forall q, 0 < q -> 2 ^ Torch.ilog2 q <= q /\ q < 2 ^ (Torch.ilog2 q + 1).
Proof.
  intros [n d] Hq. unfold Torch.ilog2. cbn [Qnum Qden].
  assert (Hn : (0 < n)%Z).
  { unfold Qlt in Hq. cbn in Hq. lia. }
  set (a := Z.log2 n). set (b := Z.log2 (Z.pos d)).
  destruct (Z.log2_spec n Hn) as [Ha1 Ha2]. fold a in Ha1, Ha2.
  destruct (Z.log2_spec (Z.pos d) eq_refl) as [Hb1 Hb2]. fold b in Hb1, Hb2.
  assert (Ha0 : (0 <= a)%Z) by apply Z.log2_nonneg.
  assert (Hb0 : (0 <= b)%Z) by apply Z.log2_nonneg.
  assert (HA1 : 2 ^ a <= inject_Z n)
    by (rewrite <- pow2_Z by exact Ha0; rewrite <- Zle_Qle; exact Ha1).
  assert (HA2 : inject_Z n < 2 * 2 ^ a).
  { rewrite <- pow2_succ, <- pow2_Z by lia. rewrite <- Zlt_Qlt.
    replace (a + 1)%Z with (Z.succ a) by lia. exact Ha2. }
  assert (HB1 : 2 ^ b <= inject_Z (Z.pos d))
    by (rewrite <- pow2_Z by exact Hb0; rewrite <- Zle_Qle; exact Hb1).
  assert (HB2 : inject_Z (Z.pos d) < 2 * 2 ^ b).
  { rewrite <- pow2_succ, <- pow2_Z by lia. rewrite <- Zlt_Qlt.
    replace (b + 1)%Z with (Z.succ b) by lia. exact Hb2. }
  assert (Hc : 2 ^ (a - b) * 2 ^ b == 2 ^ a).
  { rewrite <- pow2_plus. replace (a - b + b)%Z with a by lia. reflexivity. }
  assert (Hq' : (n # d) * inject_Z (Z.pos d) == inject_Z n).
  { rewrite (Qmake_Qdiv n d). field. discriminate. }
  pose proof (pow2_pos a) as PA. pose proof (pow2_pos b) as PB.
  pose proof (pow2_pos (a - b)) as PC.
  set (q := n # d) in *. set (N := inject_Z n) in *.
  set (D := inject_Z (Z.pos d)) in *.
  set (A := 2 ^ a) in *. set (B := 2 ^ b) in *. set (C := 2 ^ (a - b)) in *.
  assert (Hlow : C < 2 * q).
  { apply Qnot_le_lt. intro Hle.
    assert (2 * q * D <= C * D) by (apply Qmult_le_compat_r; lra).
    assert (C * D < C * (2 * B)) by (apply Qmult_lt_l; lra).
    nra. }
  assert (Hhigh : q < 2 * C).
  { apply Qnot_le_lt. intro Hle.
    assert (2 * C * B <= q * B) by (apply Qmult_le_compat_r; lra).
    assert (q * B <= q * D) by (apply Qmult_le_l; lra).
    nra. }
  destruct (Qle_bool C q) eqn:E.
  - apply Qle_bool_iff in E. split; [exact E|].
    rewrite pow2_succ. exact Hhigh.
  - assert (Hlt : q < C).
    { apply Qnot_le_lt. intro Hle. apply Qle_bool_iff in Hle. congruence. }
    replace (a - b - 1 + 1)%Z with (a - b)%Z by lia. split; [|exact Hlt].
    assert (H2 : 2 * 2 ^ (a - b - 1) == C).
    { rewrite <- pow2_succ. replace (a - b - 1 + 1)%Z with (a - b)%Z by lia.
      reflexivity. }
    lra.
Qed.

Lemma ilog2_unique :
  forall q z, 0 < q -> 2 ^ z <= q -> q < 2 ^ (z + 1) -> Torch.ilog2 q = z.
Proof.
  intros q z Hq H1 H2. destruct (ilog2_spec Hq) as [S1 S2].
  assert (z < Torch.ilog2 q + 1)%Z
    by (apply pow2_lt_inv; eapply Qle_lt_trans; eassumption).
  assert (Torch.ilog2 q < z + 1)%Z
    by (apply pow2_lt_inv; eapply Qle_lt_trans; eassumption).
  lia.
Qed.

Lemma ilog2_comp :
  forall x y, 0 < x -> x == y -> Torch.ilog2 x = Torch.ilog2 y.
Proof.
  intros x y Hx E. assert (Hy : 0 < y) by (rewrite <- E; exact Hx).
  destruct (ilog2_spec Hy) as [S1 S2].
  apply ilog2_unique; [exact Hx | rewrite E; exact S1 | rewrite E; exact S2].
Qed.

Lemma ilog2_mono :
  forall x y, 0 < x -> x <= y -> (Torch.ilog2 x <= Torch.ilog2 y)%Z.
Proof.
  intros x y Hx Hxy. assert (Hy : 0 < y) by lra.
  destruct (ilog2_spec Hx) as [X1 _]. destruct (ilog2_spec Hy) as [_ Y2].
  assert (Torch.ilog2 x < Torch.ilog2 y + 1)%Z
    by (apply pow2_lt_inv; lra).
  lia.
Qed.


Lemma round_at_comp :
  forall e x y, x == y -> Torch.round_at e x == Torch.round_at e y.
Proof.
  intros e x y H. unfold Torch.round_at.
  rewrite (@rne_comp (x * 2 ^ (23 - e)) (y * 2 ^ (23 - e)))
    by (rewrite H; reflexivity).
  reflexivity.
Qed.

Lemma round_at_exact :
  forall e q m, q == inject_Z m * 2 ^ (e - 23) -> Torch.round_at e q == q.
Proof.
  intros e q m H. unfold Torch.round_at.
  assert (E : q * 2 ^ (23 - e) == inject_Z m).
  { rewrite H, <- Qmult_assoc, <- pow2_plus.
    replace (e - 23 + (23 - e))%Z with 0%Z by lia.
    change (2 ^ 0) with 1. ring. }
  rewrite (rne_comp E), rne_inject_Z. symmetry. exact H.
Qed.

Lemma round_at_mono :
  forall e x y, x <= y -> Torch.round_at e x <= Torch.round_at e y.
Proof.
  intros e x y H. unfold Torch.round_at.
  pose proof (pow2_pos (23 - e)) as P1. pose proof (pow2_pos (e - 23)) as P2.
  apply Qmult_le_compat_r; [|lra].
  rewrite <- Zle_Qle. apply rne_mono.
  apply Qmult_le_compat_r; lra.
Qed.

Lemma round_at_pow2 :
  forall e z, (e - 23 <= z)%Z -> Torch.round_at e (2 ^ z) == 2 ^ z.
Proof.
  intros e z H. apply (@round_at_exact e _ (2 ^ (z - (e - 23)))).
  rewrite pow2_Z by lia. rewrite <- pow2_plus.
  replace (z - (e - 23) + (e - 23))%Z with z by lia. reflexivity.
Qed.

Lemma round_at_0 : forall e q, q == 0 -> Torch.round_at e q == 0.
Proof.
  intros e q H. rewrite (@round_at_exact e q 0); [exact H|].
  rewrite H. ring.
Qed.

Lemma exponent_ge : forall q, (-126 <= Torch.exponent q)%Z.
Proof. intro q. unfold Torch.exponent. lia. Qed.

Lemma exponent_comp :
  forall x y, 0 < x -> x == y -> Torch.exponent x = Torch.exponent y.
Proof.
  intros x y Hx E. unfold Torch.exponent. now rewrite (ilog2_comp Hx E).
Qed.

Lemma exponent_mono :
  forall x y, 0 < x -> x <= y -> (Torch.exponent x <= Torch.exponent y)%Z.
Proof.
  intros x y Hx H. unfold Torch.exponent.
  pose proof (ilog2_mono Hx H). lia.
Qed.

(** A positive number lies below the next power of its exponent, and at
    or above the power of its exponent unless it is subnormal. *)
Lemma exponent_upper : forall q, 0 < q -> q < 2 ^ (Torch.exponent q + 1).
Proof.
  intros q Hq. destruct (ilog2_spec Hq) as [_ H].
  eapply Qlt_le_trans; [exact H|]. apply pow2_le.
  unfold Torch.exponent. lia.
Qed.

Lemma exponent_lower :
  forall q, 0 < q -> (-126 < Torch.exponent q)%Z -> 2 ^ Torch.exponent q <= q.
Proof.
  intros q Hq He. destruct (ilog2_spec Hq) as [H _].
  unfold Torch.exponent in *.
  replace (Z.max (Torch.ilog2 q) (-126)) with (Torch.ilog2 q) by lia. exact H.
Qed.

(** The exponent of a number between two neighbouring powers. *)
Lemma exponent_between :
  forall q e, (-126 <= e)%Z -> 0 < q -> q < 2 ^ (e + 1) ->
              (e = (-126)%Z \/ 2 ^ e <= q) -> Torch.exponent q = e.
Proof.
  intros q e He Hq Hup Hlow. destruct (ilog2_spec Hq) as [S1 S2].
  assert (Torch.ilog2 q < e + 1)%Z by (apply pow2_lt_inv; lra).
  unfold Torch.exponent. destruct Hlow as [-> | Hlow]; [lia|].
  assert (e < Torch.ilog2 q + 1)%Z by (apply pow2_lt_inv; lra).
  lia.
Qed.

Lemma round_at_nonneg : forall e q, 0 <= q -> 0 <= Torch.round_at e q.
Proof.
  intros e q H. rewrite <- (@round_at_0 e 0) by reflexivity.
  apply round_at_mono. exact H.
Qed.

(** Rounding a positive number at its exponent stays between the
    neighbouring powers. *)
Lemma round_at_exponent_upper :
  forall q, 0 < q ->
    Torch.round_at (Torch.exponent q) q <= 2 ^ (Torch.exponent q + 1).
Proof.
  intros q Hq. rewrite <- (@round_at_pow2 (Torch.exponent q)) by lia.
  apply round_at_mono. apply Qlt_le_weak. now apply exponent_upper.
Qed.

Lemma round_at_exponent_lower :
  forall q, 0 < q -> (-126 < Torch.exponent q)%Z ->
    2 ^ Torch.exponent q <= Torch.round_at (Torch.exponent q) q.
Proof.
  intros q Hq He.
  rewrite <- (@round_at_pow2 (Torch.exponent q) (Torch.exponent q)) at 1
    by lia.
  apply round_at_mono. now apply exponent_lower.
Qed.

(** A value rounded at the exponent of [q] is left alone by a second
    rounding at its own exponent. *)
Lemma round_at_idempotent :
  forall q, 0 < q ->
    let v := Torch.round_at (Torch.exponent q) q in
    Torch.round_at (Torch.exponent v) v == v.
Proof.
  intros q Hq v. set (e := Torch.exponent q) in *.
  assert (Hv0 : 0 <= v) by (apply round_at_nonneg; lra).
  destruct (Qlt_le_dec 0 v) as [Hpos|Hz];
    [|transitivity 0; [apply round_at_0; lra | lra]].
  pose proof (round_at_exponent_upper Hq) as Hup. fold e v in Hup.
  pose proof (exponent_ge q) as He. fold e in He.
  destruct (Qlt_le_dec v (2 ^ (e + 1))) as [Hlt|Hge].
  - assert (E : Torch.exponent v = e).
    { apply exponent_between; try assumption.
      destruct (Z.eq_dec e (-126)) as [E|N]; [now left | right].
      apply round_at_exponent_lower; [exact Hq | fold e; lia]. }
    rewrite E. unfold v at 1.
    apply (@round_at_exact e _ (Torch.rne (q * 2 ^ (23 - e)))).
    reflexivity.
  - assert (Ev : v == 2 ^ (e + 1)) by lra.
    assert (E : Torch.exponent v = (e + 1)%Z).
    { apply exponent_between; try lia; try assumption.
      - rewrite Ev. rewrite (pow2_succ (e + 1)).
        pose proof (pow2_pos (e + 1)). lra.
      - right. lra. }
    rewrite E. rewrite (round_at_comp _ Ev), Ev. apply round_at_pow2. lia.
Qed.


Lemma round_magnitude_nonneg : forall q, 0 <= q -> 0 <= Torch.round_magnitude q.
Proof.
  intros q H. unfold Torch.round_magnitude. apply Q.min_glb.
  - now apply round_at_nonneg.
  - apply Qlt_le_weak. apply pow2_pos.
Qed.

Lemma round_own_comp :
  forall x y, 0 <= x -> x == y ->
    Torch.round_at (Torch.exponent x) x == Torch.round_at (Torch.exponent y) y.
Proof.
  intros x y Hx E. destruct (Qlt_le_dec 0 x) as [Hpos|Hz].
  - rewrite (exponent_comp Hpos E). now apply round_at_comp.
  - transitivity 0; [apply round_at_0; lra | symmetry; apply round_at_0; lra].
Qed.

Lemma round_magnitude_comp :
  forall x y, 0 <= x -> x == y ->
    Torch.round_magnitude x == Torch.round_magnitude y.
Proof.
  intros x y Hx E. unfold Torch.round_magnitude.
  apply Q.min_compat; [now apply round_own_comp | reflexivity].
Qed.

Lemma round_own_mono :
  forall x y, 0 <= x -> x <= y ->
    Torch.round_at (Torch.exponent x) x <= Torch.round_at (Torch.exponent y) y.
Proof.
  intros x y Hx H. destruct (Qlt_le_dec 0 x) as [Hpos|Hz].
  - assert (Hy : 0 < y) by lra.
    pose proof (exponent_mono Hpos H) as He.
    destruct (Z.eq_dec (Torch.exponent x) (Torch.exponent y)) as [E|N].
    + rewrite E. now apply round_at_mono.
    + pose proof (exponent_ge x).
      apply Qle_trans with (2 ^ (Torch.exponent x + 1));
        [now apply round_at_exponent_upper|].
      apply Qle_trans with (2 ^ Torch.exponent y); [apply pow2_le; lia|].
      apply round_at_exponent_lower; [exact Hy | lia].
  - assert (Hx0 : x == 0) by lra.
    pose proof (round_at_0 (Torch.exponent x) Hx0) as E.
    pose proof (@round_at_nonneg (Torch.exponent y) y). lra.
Qed.

Lemma round_magnitude_mono :
  forall x y, 0 <= x -> x <= y ->
    Torch.round_magnitude x <= Torch.round_magnitude y.
Proof.
  intros x y Hx H. unfold Torch.round_magnitude.
  apply Q.min_le_compat_r. now apply round_own_mono.
Qed.

Lemma round_magnitude_idempotent :
  forall x, 0 <= x ->
    Torch.round_magnitude (Torch.round_magnitude x) == Torch.round_magnitude x.
Proof.
  intros x Hx.
  set (v := Torch.round_at (Torch.exponent x) x).
  assert (Hv : 0 <= v) by (apply round_at_nonneg; exact Hx).
  assert (Hvv : Torch.round_at (Torch.exponent v) v == v).
  { destruct (Qlt_le_dec 0 x) as [Hpos|Hz].
    - apply round_at_idempotent. exact Hpos.
    - apply round_at_exact with (m := 0%Z).
      assert (Hx0 : x == 0) by lra.
      pose proof (round_at_0 (Torch.exponent x) Hx0) as E. fold v in E.
      transitivity 0; [exact E | ring]. }
  change (Torch.round_magnitude x) with (Qmin v (2 ^ 128)).
  set (w := Qmin v (2 ^ 128)).
  assert (Hw : 0 <= w).
  { apply Q.min_glb; [exact Hv | apply Qlt_le_weak; apply pow2_pos]. }
  destruct (Q.min_spec v (2 ^ 128)) as [[Hlt E]|[Hge E]]; fold w in E.
  - transitivity (Torch.round_magnitude v);
      [apply round_magnitude_comp; assumption|].
    unfold Torch.round_magnitude, w.
    apply Q.min_compat; [exact Hvv | reflexivity].
  - transitivity (Torch.round_magnitude (2 ^ 128));
      [apply round_magnitude_comp; assumption|].
    unfold Torch.round_magnitude.
    assert (Ee : Torch.exponent (2 ^ 128) = 128%Z).
    { apply exponent_between; try lia.
      - apply pow2_pos.
      - apply Qpower_lt_compat_l; [lia | reflexivity].
      - right. apply Qle_refl. }
    rewrite Ee.
    transitivity (Qmin (2 ^ 128) (2 ^ 128));
      [apply Q.min_compat; [apply round_at_pow2; lia | reflexivity]|].
    rewrite Q.min_id. symmetry. exact E.
Qed.

Lemma Qltb_comp :
  forall a b c d, a == b -> c == d -> Torch.Qltb a c = Torch.Qltb b d.
Proof.
  intros a b c d H1 H2. unfold Torch.Qltb. f_equal.
  destruct (Qle_bool c a) eqn:E1, (Qle_bool d b) eqn:E2; try reflexivity.
  - apply Qle_bool_iff in E1. rewrite H1, H2 in E1.
    apply Qle_bool_iff in E1. congruence.
  - apply Qle_bool_iff in E2. rewrite <- H1, <- H2 in E2.
    apply Qle_bool_iff in E2. congruence.
Qed.

(** The value of [float32], before its reduction to lowest terms. *)
Lemma float32_value :
  forall q,
    Torch.float32 q
    == (if Torch.Qltb q 0 then - Torch.round_magnitude (- q)
        else Torch.round_magnitude q).
Proof. intro q. unfold Torch.float32. apply Qred_correct. Qed.

Lemma float32_neg :
  forall q, q < 0 -> Torch.float32 q == - Torch.round_magnitude (- q).
Proof.
  intros q H. rewrite float32_value.
  apply Qltb_lt in H. now rewrite H.
Qed.

Lemma float32_nonneg :
  forall q, 0 <= q -> Torch.float32 q == Torch.round_magnitude q.
Proof.
  intros q H. rewrite float32_value.
  destruct (Torch.Qltb q 0) eqn:E; [|reflexivity].
  apply Qltb_lt in E. lra.
Qed.

(** Equal rationals have the same float32, as a term. *)
Lemma float32_comp : forall x y, x == y -> Torch.float32 x = Torch.float32 y.
Proof.
  intros x y H. unfold Torch.float32. apply Qred_complete.
  rewrite (Qltb_comp H (Qeq_refl 0)).
  destruct (Torch.Qltb y 0) eqn:E.
  - apply Qltb_lt in E. apply Qopp_comp.
    apply round_magnitude_comp; lra.
  - assert (0 <= y).
    { apply Qnot_lt_le. intro L. apply Qltb_lt in L. congruence. }
    apply round_magnitude_comp; lra.
Qed.

(** The cast is monotone. *)
Lemma float32_mono : forall x y, x <= y -> Torch.float32 x <= Torch.float32 y.
Proof.
  intros x y H.
  destruct (Qlt_le_dec x 0) as [Hx|Hx]; destruct (Qlt_le_dec y 0) as [Hy|Hy].
  - rewrite (float32_neg Hx), (float32_neg Hy).
    assert (Torch.round_magnitude (- y) <= Torch.round_magnitude (- x))
      by (apply round_magnitude_mono; lra).
    lra.
  - rewrite (float32_neg Hx), (float32_nonneg Hy).
    assert (0 <= Torch.round_magnitude (- x))
      by (apply round_magnitude_nonneg; lra).
    assert (0 <= Torch.round_magnitude y)
      by (apply round_magnitude_nonneg; lra).
    lra.
  - lra.
  - rewrite (float32_nonneg Hx), (float32_nonneg Hy).
    now apply round_magnitude_mono.
Qed.

(** A float32 value is its own cast. *)
Lemma float32_idempotent :
  forall x, Torch.float32 (Torch.float32 x) = Torch.float32 x.
Proof.
  intro x.
  assert (H : Torch.float32 (Torch.float32 x) == Torch.float32 x).
  { destruct (Qlt_le_dec x 0) as [Hx|Hx].
    - pose proof (float32_neg Hx) as E.
      assert (Hv : 0 <= Torch.round_magnitude (- x))
        by (apply round_magnitude_nonneg; lra).
      destruct (Qlt_le_dec 0 (Torch.round_magnitude (- x))) as [Hp|Hz].
      + rewrite float32_neg by lra. rewrite E at 2.
        apply Qopp_comp.
        rewrite (@round_magnitude_comp (- Torch.float32 x)
                   (Torch.round_magnitude (- x))) by lra.
        apply round_magnitude_idempotent. lra.
      + rewrite float32_nonneg by lra.
        rewrite (@round_magnitude_comp (Torch.float32 x)
                   (Torch.round_magnitude (- x))) by lra.
        rewrite round_magnitude_idempotent by lra. lra.
    - pose proof (float32_nonneg Hx) as E.
      assert (Hv : 0 <= Torch.round_magnitude x)
        by (apply round_magnitude_nonneg; lra).
      rewrite float32_nonneg by lra. rewrite E at 2.
      rewrite (@round_magnitude_comp (Torch.float32 x)
                 (Torch.round_magnitude x)) by lra.
      apply round_magnitude_idempotent. exact Hx. }
  assert (Hr : Qred (Torch.float32 x) = Torch.float32 x).
  { unfold Torch.float32. apply Qred_complete. apply Qred_correct. }
  etransitivity; [|exact Hr].
  unfold Torch.float32 at 1. apply Qred_complete.
  transitivity (Torch.float32 (Torch.float32 x));
    [symmetry; apply float32_value | exact H].
Qed.

(** A float32 below the cast of [t] is below every bound of [t]: no
    float32 lies between [t] and its cast. *)
Lemma float32_below_cast :
  forall x t b,
    Torch.float32 x < Torch.float32 t -> t <= b -> Torch.float32 x < b.
Proof.
  intros x t b Hlt Hb. apply Qnot_le_lt. intro Hge.
  apply float32_mono in Hge. rewrite float32_idempotent in Hge.
  apply float32_mono in Hb. lra.
Qed.

End Float32Facts.

(** ** [torch.max] *)

Lemma max_from_spec :
  forall (l : Torch.tensor) best besti i c k,
    Torch.max_from best besti i l = (c, k) ->
    best <= c
    /\ Forall (fun x => x <= c) l
    /\ ((c = best /\ k = besti)
        \/ exists j, nth_error l j = Some c /\ k = (i + j)%nat).
Proof.
  induction l as [|x r IH]; intros best besti i c k H; simpl in H.
  - inversion H; subst. repeat split; [apply Qle_refl | constructor | now left].
  - destruct (Torch.Qltb best x) eqn:E.
    + apply IH in H. destruct H as (Hxc & Hall & Hk).
      apply Qltb_lt in E.
      repeat split.
      * apply Qle_trans with x; [apply Qlt_le_weak; exact E | exact Hxc].
      * constructor; assumption.
      * right. destruct Hk as [[-> ->] | (j & Hj & ->)].
        -- exists 0%nat. split; [reflexivity | lia].
        -- exists (S j). split; [exact Hj | lia].
    + apply IH in H. destruct H as (Hbc & Hall & Hk).
      apply Qltb_ge in E.
      repeat split.
      * exact Hbc.
      * constructor; [apply Qle_trans with best; assumption | assumption].
      * destruct Hk as [Hk | (j & Hj & ->)]; [now left | right].
        exists (S j). split; [exact Hj | lia].
Qed.

Lemma max_spec :
  forall (l : Torch.tensor) c k,
    Torch.max l = Some (c, k) ->
    nth_error l k = Some c /\ Forall (fun x => x <= c) l.
Proof.
  intros [|x r] c k H; simpl in H; [discriminate|].
  inversion H as [H']. apply max_from_spec in H'.
  destruct H' as (Hxc & Hall & Hk). split.
  - destruct Hk as [[-> ->] | (j & Hj & ->)]; [reflexivity | exact Hj].
  - constructor; assumption.
Qed.

Lemma max_defined :
  forall (l : Torch.tensor), l <> [] -> exists c k, Torch.max l = Some (c, k).
Proof.
  intros [|x r] H; [congruence|]. simpl.
  destruct (Torch.max_from x 0 1 r) as [c k]. now exists c, k.
Qed.

(** ** The verdict policy *)

(** What [result_of_row] returns on a row of at least two classes: the
    confidence is the maximum of the float32 row, attained at the
    predicted class [k], and the flag compares it with the threshold cast
    to float32. *)
Lemma result_of_row_defined :
  forall threshold lg cal (p : Torch.tensor),
    (2 <= length p)%nat ->
    exists r k,
      Fixed.result_of_row threshold lg cal p = Some r
      /\ Torch.max (map Torch.float32 p) = Some (Fixed.confidence r, k)
      /\ Fixed.is_uncertain r
         = Torch.Qltb (Fixed.confidence r) (Torch.float32 threshold)
      /\ Fixed.prediction r =
           (if Fixed.is_uncertain r then "UNCERTAIN"%string
            else if (k =? 1)%nat then "synthetic"%string else "real"%string)
      /\ Fixed.logits r = lg /\ Fixed.calibrated_logits r = cal.
Proof.
  intros threshold lg cal p Hlen.
  destruct p as [|p0 [|p1 rest]]; simpl in Hlen; try lia.
  unfold Fixed.result_of_row. cbn [map].
  destruct (Torch.max (Torch.float32 p0 :: Torch.float32 p1
                         :: map Torch.float32 rest)) as [[c k]|] eqn:E;
    [|simpl in E; discriminate].
  cbn [nth_error].
  eexists; exists k. split; [reflexivity|]. cbn.
  repeat split; reflexivity.
Qed.

(** The confidence of a result is a float32 value. *)
Lemma confidence_is_float32 :
  forall threshold lg cal p r,
    Fixed.result_of_row threshold lg cal p = Some r ->
    Torch.float32 (Fixed.confidence r) = Fixed.confidence r
    /\ Fixed.is_uncertain r
       = Torch.Qltb (Fixed.confidence r) (Torch.float32 threshold).
Proof.
  intros threshold lg cal p r H. unfold Fixed.result_of_row in H.
  destruct (Torch.max (map Torch.float32 p)) as [[c k]|] eqn:E;
    [|discriminate].
  destruct (nth_error (map Torch.float32 p) 1); [|discriminate].
  destruct (nth_error (map Torch.float32 p) 0); [|discriminate].
  inversion H; subst; clear H. cbn. split; [|reflexivity].
  apply max_spec in E. destruct E as [Hk _].
  apply nth_error_In in Hk. apply in_map_iff in Hk.
  destruct Hk as (x & <- & _). apply float32_idempotent.
Qed.

Lemma make_result_defined :
  forall threshold (p : Torch.tensor),
    (2 <= length p)%nat ->
    exists r k,
      Pipeline.make_result threshold p = Some (r, k)
      /\ Torch.max p = Some (Pipeline.confidence r, k)
      /\ Pipeline.is_certain r = Torch.Qgeb (Pipeline.confidence r) threshold
      /\ Pipeline.prediction r =
           (if (k =? 1)%nat then "ai_generated"%string else "real"%string)
      /\ Pipeline.heatmap r = None.
Proof.
  intros threshold p Hlen.
  destruct p as [|p0 [|p1 rest]]; simpl in Hlen; try lia.
  unfold Pipeline.make_result.
  destruct (Torch.max (p0 :: p1 :: rest)) as [[c k]|] eqn:E;
    [|simpl in E; discriminate].
  cbn [nth_error].
  eexists; exists k. split; [reflexivity|]. cbn.
  repeat split; reflexivity.
Qed.

(** C1, as the two detectors implement it.  For every probability vector
    [p] with at least two classes:
    - [EnhancedAIDetector.predict_with_uncertainty] (the fixed detector)
      builds a result whose confidence is the maximum of the float32 row,
      attained at class [k].  The gate is taken in float32: below the
      threshold cast to float32 the verdict is ["UNCERTAIN"] whatever [k]
      is, and from the cast threshold on (equality included) it is the
      label of [k], ["real"] or ["synthetic"], never ["UNCERTAIN"].
      Against the threshold itself: a confidence at or above the
      threshold is always labelled, and a confidence below the threshold
      is ["UNCERTAIN"] whenever the cast does not round the threshold
      down (as for the default 0.75, which float32 holds exactly);
    - [EnhancedAIDetectorPipeline.predict] builds a result whose
      confidence is the maximum of [p] and whose [prediction] is always
      the label of [k] (["real"] or ["ai_generated"]); the gate only sets
      [is_certain], true exactly when the confidence reaches the
      threshold. *)
Theorem verdict_policy :
  forall threshold lg cal (p : Torch.tensor),
    (2 <= length p)%nat ->
    (exists r k,
        Fixed.result_of_row threshold lg cal p = Some r
        /\ nth_error (map Torch.float32 p) k = Some (Fixed.confidence r)
        /\ Forall (fun x => x <= Fixed.confidence r) (map Torch.float32 p)
        /\ (Fixed.confidence r < Torch.float32 threshold ->
            Fixed.prediction r = "UNCERTAIN"%string)
        /\ (Torch.float32 threshold <= Fixed.confidence r ->
            Fixed.prediction r =
            (if (k =? 1)%nat then "synthetic"%string else "real"%string)
            /\ (Fixed.prediction r = "real"%string
                \/ Fixed.prediction r = "synthetic"%string)
            /\ Fixed.prediction r <> "UNCERTAIN"%string)
        /\ (threshold <= Fixed.confidence r ->
            Fixed.prediction r =
            (if (k =? 1)%nat then "synthetic"%string else "real"%string))
        /\ (threshold <= Torch.float32 threshold ->
            Fixed.confidence r < threshold ->
            Fixed.prediction r = "UNCERTAIN"%string))
    /\ (exists r k,
           Pipeline.make_result threshold p = Some (r, k)
           /\ nth_error p k = Some (Pipeline.confidence r)
           /\ Forall (fun x => x <= Pipeline.confidence r) p
           /\ Pipeline.prediction r =
                (if (k =? 1)%nat then "ai_generated"%string else "real"%string)
           /\ (Pipeline.is_certain r = true
               <-> threshold <= Pipeline.confidence r)).
Proof.
  intros threshold lg cal p Hlen. split.
  - destruct (result_of_row_defined threshold lg cal p Hlen)
      as (r & k & Hr & Hmax & Hunc & Hpred & _).
    destruct (confidence_is_float32 _ _ _ _ Hr) as [Hfl _].
    exists r, k. apply max_spec in Hmax. destruct Hmax as [Hk Hall].
    assert (Hbelow : Fixed.confidence r < Torch.float32 threshold ->
                     Fixed.prediction r = "UNCERTAIN"%string).
    { intro Hlt. apply Qltb_lt in Hlt. rewrite Hpred, Hunc, Hlt. reflexivity. }
    assert (Habove : Torch.float32 threshold <= Fixed.confidence r ->
                     Fixed.prediction r =
                     (if (k =? 1)%nat then "synthetic"%string
                      else "real"%string)).
    { intro H. apply Qltb_ge in H. rewrite Hpred, Hunc, H. reflexivity. }
    split; [exact Hr|]. split; [exact Hk|]. split; [exact Hall|].
    split; [exact Hbelow|]. split; [|split].
    + intro H. rewrite (Habove H).
      split; [reflexivity|].
      destruct (k =? 1)%nat; split; (now left) || (now right) || discriminate.
    + intro H. apply Habove. rewrite <- Hfl. apply float32_mono. exact H.
    + intros Hup Hlt. apply Hbelow.
      apply Qlt_le_trans with threshold; assumption.
  - destruct (make_result_defined threshold p Hlen)
      as (r & k & Hr & Hmax & Hcert & Hpred & _).
    exists r, k. apply max_spec in Hmax. destruct Hmax as [Hk Hall].
    repeat split; try assumption.
    + rewrite Hcert. unfold Torch.Qgeb. apply Qle_bool_iff.
    + rewrite Hcert. unfold Torch.Qgeb. apply Qle_bool_iff.
Qed.

Lemma verdict_policy_witness :
  (exists r k,
      Fixed.result_of_row (3 # 4) [2; 1] [2; 1] [(5 # 8); (3 # 8)] = Some r
      /\ nth_error (map Torch.float32 [(5 # 8); (3 # 8)]) k
         = Some (Fixed.confidence r)
      /\ Forall (fun x => x <= Fixed.confidence r)
                (map Torch.float32 [(5 # 8); (3 # 8)])
      /\ (Fixed.confidence r < Torch.float32 (3 # 4) ->
          Fixed.prediction r = "UNCERTAIN"%string)
      /\ (Torch.float32 (3 # 4) <= Fixed.confidence r ->
          Fixed.prediction r =
            (if (k =? 1)%nat then "synthetic"%string else "real"%string)
          /\ (Fixed.prediction r = "real"%string
              \/ Fixed.prediction r = "synthetic"%string)
          /\ Fixed.prediction r <> "UNCERTAIN"%string)
      /\ (3 # 4 <= Fixed.confidence r ->
          Fixed.prediction r =
            (if (k =? 1)%nat then "synthetic"%string else "real"%string))
      /\ (3 # 4 <= Torch.float32 (3 # 4) ->
          Fixed.confidence r < 3 # 4 ->
          Fixed.prediction r = "UNCERTAIN"%string))
  /\ (exists r k,
         Pipeline.make_result (3 # 4) [(5 # 8); (3 # 8)] = Some (r, k)
         /\ nth_error [(5 # 8); (3 # 8)] k = Some (Pipeline.confidence r)
         /\ Forall (fun x => x <= Pipeline.confidence r) [(5 # 8); (3 # 8)]
         /\ Pipeline.prediction r =
              (if (k =? 1)%nat then "ai_generated"%string else "real"%string)
         /\ (Pipeline.is_certain r = true
             <-> 3 # 4 <= Pipeline.confidence r)).
Proof.
  apply (verdict_policy (3 # 4) [2; 1] [2; 1] [(5 # 8); (3 # 8)]).
  simpl. lia.
Defined.

(** The gate of the fixed detector against the threshold itself: float32
    holds 0.7 as 0.699999988..., so a confidence of that value is below
    the threshold 0.7 and yet is not below its cast; the verdict is the
    label. *)
Lemma float32_gate_labels_below_threshold :
  exists r,
    Fixed.result_of_row (7 # 10) [1; 0] [1; 0]
      [11744051 # 16777216; 5033165 # 16777216] = Some r
    /\ Fixed.confidence r = 11744051 # 16777216
    /\ Fixed.confidence r < 7 # 10
    /\ Fixed.is_uncertain r = false
    /\ Fixed.prediction r = "real"%string.
Proof.
  eexists. split; [vm_compute; reflexivity|]. cbn.
  split; [reflexivity|]. split; [reflexivity|]. split; reflexivity.
Qed.

(** The claim of C1 fails on [EnhancedAIDetectorPipeline.predict]: with
    probabilities (0.6, 0.4) and the threshold 0.8 the confidence 0.6 is
    below the threshold, yet the returned [prediction] is ["real"], not an
    uncertain verdict; only [is_certain] is false. *)
Lemma pipeline_predict_below_threshold_is_labelled :
  exists r,
    Pipeline.make_result (4 # 5) [(3 # 5); (2 # 5)] = Some (r, 0%nat)
    /\ Pipeline.confidence r < 4 # 5
    /\ Pipeline.prediction r = "real"%string
    /\ Pipeline.prediction r <> "uncertain"%string
    /\ Pipeline.prediction r <> "UNCERTAIN"%string
    /\ Pipeline.is_certain r = false.
Proof.
  eexists. split; [reflexivity|]. cbn.
  repeat split; try discriminate.
Qed.

(** Every result of [predict_with_uncertainty] is the loop body run on
    the softmax of one calibrated row. *)
Lemma results_of_rows_rows :
  forall (RT : Fixed.Runtime) threshold lgs cals rs,
    Fixed.results_of_rows threshold lgs cals = Some rs ->
    Forall (fun r => exists lg cal,
                Fixed.result_of_row threshold lg cal (Fixed.softmax cal) = Some r)
           rs.
Proof.
  intros RT threshold lgs. induction lgs as [|lg lgs IH]; intros cals rs H.
  - simpl in H. inversion H. constructor.
  - destruct cals as [|cal cals]; simpl in H; [inversion H; constructor|].
    destruct (Fixed.result_of_row threshold lg cal (Fixed.softmax cal))
      as [r|] eqn:Er; [|discriminate].
    destruct (Fixed.results_of_rows threshold lgs cals) as [rs'|] eqn:Ers;
      [|discriminate].
    inversion H; subst. constructor; [now exists lg, cal | eauto].
Qed.

Lemma result_of_row_flag :
  forall threshold lg cal p r,
    Fixed.result_of_row threshold lg cal p = Some r ->
    (Fixed.is_uncertain r = true /\ Fixed.prediction r = "UNCERTAIN"%string)
    \/ (Fixed.is_uncertain r = false
        /\ (Fixed.prediction r = "real"%string
            \/ Fixed.prediction r = "synthetic"%string)).
Proof.
  intros threshold lg cal p r H. unfold Fixed.result_of_row in H.
  destruct (Torch.max (map Torch.float32 p)) as [[c k]|]; [|discriminate].
  destruct (nth_error (map Torch.float32 p) 1); [|discriminate].
  destruct (nth_error (map Torch.float32 p) 0); [|discriminate].
  inversion H; subst; clear H. cbn.
  destruct (Torch.Qltb c (Torch.float32 threshold)); [now left | right].
  split; [reflexivity|]. destruct (k =? 1)%nat; [now right | now left].
Qed.

(** C10.  In every result record [predict_with_uncertainty] returns,
    [is_uncertain] is true exactly when [prediction] is ["UNCERTAIN"], and
    when [is_uncertain] is false the prediction is ["real"] or
    ["synthetic"]. *)
Theorem is_uncertain_agrees_with_prediction :
  forall (RT : Fixed.Runtime) (m : Fixed.EnhancedAIDetector)
         (x : list Fixed.image) (apply_temperature : bool) rs,
    fst (Fixed.predict_with_uncertainty m x apply_temperature) = Some rs ->
    Forall (fun r =>
              (Fixed.is_uncertain r = true
               <-> Fixed.prediction r = "UNCERTAIN"%string)
              /\ (Fixed.is_uncertain r = false ->
                  Fixed.prediction r = "real"%string
                  \/ Fixed.prediction r = "synthetic"%string))
           rs.
Proof.
  intros RT m x b rs H. unfold Fixed.predict_with_uncertainty in H.
  destruct (Fixed.forward (Fixed.eval m) x) as [lgs m2]. simpl in H.
  apply results_of_rows_rows in H.
  eapply Forall_impl; [|exact H].
  intros r (lg & cal & Hr). apply result_of_row_flag in Hr.
  destruct Hr as [[Hu Hp] | [Hu Hp]]; rewrite Hu, ?Hp; split.
  - tauto.
  - discriminate.
  - split; [discriminate|]. destruct Hp as [Hp | Hp]; rewrite Hp; discriminate.
  - intros _. exact Hp.
Qed.

Lemma is_uncertain_agrees_with_prediction_witness :
  exists rs,
    fst (Fixed.predict_with_uncertainty Fixed.linear_detector
           ([1; 1 # 2] : list (@Fixed.image Fixed.linear_runtime)) true)
    = Some rs
    /\ Forall (fun r =>
                 (Fixed.is_uncertain r = true
                  <-> Fixed.prediction r = "UNCERTAIN"%string)
                 /\ (Fixed.is_uncertain r = false ->
                     Fixed.prediction r = "real"%string
                     \/ Fixed.prediction r = "synthetic"%string))
              rs.
Proof.
  eexists. split.
  - vm_compute. reflexivity.
  - apply (@is_uncertain_agrees_with_prediction Fixed.linear_runtime
             Fixed.linear_detector
             ([1; 1 # 2] : list (@Fixed.image Fixed.linear_runtime)) true).
    vm_compute. reflexivity.
Defined.

(** ** Determinism of inference *)

(** On the pipeline's model the Grad-CAM call raises: the model returns a
    tuple, which [output[:, class_idx]] cannot index. *)
Lemma gradcam_visualizer_raises :
  forall (BE : Pipeline.Backend) (m : Pipeline.EnhancedAIDetector)
         tg input_tensor class_idx grad_enabled,
    Pipeline.GradCAMVisualizer_generate_heatmap m tg input_tensor class_idx
                                                grad_enabled
    = None.
Proof.
  intros. unfold Pipeline.GradCAMVisualizer_generate_heatmap.
  destruct (Pipeline.forward _ _ _) as [[[lg cal] m'] tg']. reflexivity.
Qed.

Lemma pipeline_predict_state :
  forall (BE : Pipeline.Backend) (RND : Pipeline.Random)
         (p : Pipeline.EnhancedAIDetectorPipeline) img b,
    Pipeline.model (snd (Pipeline.predict p img b))
    = Pipeline.set_training (Pipeline.model p) false
    /\ Pipeline.confidence_threshold (snd (Pipeline.predict p img b))
       = Pipeline.confidence_threshold p.
Proof.
  intros BE RND p img b. unfold Pipeline.predict, Pipeline.forward. cbn.
  destruct (Pipeline.network_eval (Pipeline.weights (Pipeline.model p))
              [Pipeline.val_transform img]) as [|row [|row' rest]]; cbn;
    try (split; reflexivity).
  destruct (Pipeline.make_result _ _) as [[r k]|]; cbn;
    try (split; reflexivity).
  destruct b; cbn; split; reflexivity.
Qed.

Lemma pipeline_predict_result :
  forall (BE : Pipeline.Backend) (RND : Pipeline.Random)
         (p q : Pipeline.EnhancedAIDetectorPipeline) img b,
    Pipeline.set_training (Pipeline.model q) false
    = Pipeline.set_training (Pipeline.model p) false ->
    Pipeline.confidence_threshold q = Pipeline.confidence_threshold p ->
    fst (Pipeline.predict q img b) = fst (Pipeline.predict p img b).
Proof.
  intros BE RND p q img b Hm Ht.
  unfold Pipeline.predict, Pipeline.forward. cbn.
  assert (Hw : Pipeline.weights (Pipeline.model q)
               = Pipeline.weights (Pipeline.model p))
    by (apply (f_equal Pipeline.weights) in Hm; exact Hm).
  assert (Htemp : Pipeline.temperature (Pipeline.model q)
                  = Pipeline.temperature (Pipeline.model p))
    by (apply (f_equal Pipeline.temperature) in Hm; exact Hm).
  rewrite Hw, Htemp, Ht, Hm.
  destruct (Pipeline.network_eval (Pipeline.weights (Pipeline.model p))
              [Pipeline.val_transform img]) as [|row [|row' rest]]; cbn;
    try reflexivity.
  destruct (Pipeline.make_result _ _) as [[r k]|]; cbn; try reflexivity.
  destruct b; cbn; reflexivity.
Qed.

(** The forward pass itself is not repeatable in train mode: on the test
    runtime two successive calls of [forward] on a detector left in train
    mode return different logits.  [predict_with_uncertainty] is
    repeatable because it calls [self.eval()] first. *)
Lemma forward_in_train_mode_not_repeatable :
  fst (Fixed.forward Fixed.linear_detector
         ([1] : list (@Fixed.image Fixed.linear_runtime)))
  <> fst (Fixed.forward
            (snd (Fixed.forward Fixed.linear_detector
                    ([1] : list (@Fixed.image Fixed.linear_runtime))))
            ([1] : list (@Fixed.image Fixed.linear_runtime))).
Proof.
  vm_compute. discriminate.
Qed.

(** C9.  Two successive calls of predict on the same image, with nothing
    in between, return the same records: for [predict_with_uncertainty]
    the whole list of results (prediction, confidence, the two class
    probabilities, the flag, raw and calibrated logits), whatever mode the
    detector was in before the first call; for
    [EnhancedAIDetectorPipeline.predict] the returned dict, although the
    first call has put a sample into the replay buffer. *)
Theorem predict_twice_same_record :
  (forall (RT : Fixed.Runtime) (m : Fixed.EnhancedAIDetector)
          (x : list Fixed.image) (apply_temperature : bool),
      fst (Fixed.predict_with_uncertainty
             (snd (Fixed.predict_with_uncertainty m x apply_temperature))
             x apply_temperature)
      = fst (Fixed.predict_with_uncertainty m x apply_temperature))
  /\ (forall (BE : Pipeline.Backend) (RND : Pipeline.Random)
             (p : Pipeline.EnhancedAIDetectorPipeline)
             (img : Pipeline.raw_image) (return_heatmap : bool),
         fst (Pipeline.predict (snd (Pipeline.predict p img return_heatmap))
                img return_heatmap)
         = fst (Pipeline.predict p img return_heatmap)).
Proof.
  split.
  - intros RT m x b. unfold Fixed.predict_with_uncertainty, Fixed.forward.
    cbn. reflexivity.
  - intros BE RND p img b.
    destruct (pipeline_predict_state p img b) as [Hm Ht].
    apply pipeline_predict_result; [|exact Ht].
    rewrite Hm. reflexivity.
Qed.

(** ** Temperature calibration *)



(** [EnhancedAIDetectorPipeline.calibrate_temperature] stores what the
    optimizer leaves, as it is. *)
Lemma calibrate_temperature_stores_optimizer_value :
  forall (BE : Pipeline.Backend) (RND : Pipeline.Random) lbfgs
         (p : Pipeline.EnhancedAIDetectorPipeline) validation_data,
    exists lgs labels,
      Pipeline.temperature
        (Pipeline.model (Pipeline.calibrate_temperature lbfgs p validation_data))
      = lbfgs (Pipeline.temperature (Pipeline.model p)) lgs labels
              50%nat (1 # 100).
Proof.
  intros. unfold Pipeline.calibrate_temperature. cbn.
  eexists; eexists; reflexivity.
Qed.


(** The same for an optimizer that overshoots: started from the default
    1.5, a step that leaves 0.05 in the parameter is kept by the pipeline
    and raised to 0.1 by the fixed detector. *)
Lemma calibrate_temperature_keeps_overshoot :
  let overshoot := fun (_ : Q) (_ : list Torch.tensor) (_ : list Z)
                       (_ : nat) (_ : Q) => 1 # 20 in
  let p' := Pipeline.calibrate_temperature overshoot
              (Pipeline.scalar_pipeline (3 # 2) 10 []) [([1], [1%Z])] in
  Pipeline.temperature (Pipeline.model p') = 1 # 20
  /\ ~ (1 # 10 <= Pipeline.temperature (Pipeline.model p') <= 10)
  /\ Fixed.calibrate overshoot (3 # 2) [[0; 0]] [1%Z] 50 (1 # 100) = 1 # 10.
Proof.
  cbn. split; [reflexivity|]. split; [|reflexivity].
  intros [H _]. apply Qle_bool_iff in H. discriminate.
Qed.

(** ** Grad-CAM *)

Lemma relu_nonneg : forall x, 0 <= Torch.relu x.
Proof.
  intro x. unfold Torch.relu. destruct (Torch.Qltb x 0) eqn:E.
  - apply Qle_refl.
  - apply Qltb_ge in E. exact E.
Qed.

Lemma Forall_map2d :
  forall (A B : Type) (P : B -> Prop) (f : A -> B) (m : list (list A)),
    (forall a, In a (concat m) -> P (f a)) ->
    Forall (Forall P) (map (map f) m).
Proof.
  intros A B P f m H. apply Forall_forall. intros row Hrow.
  apply in_map_iff in Hrow. destruct Hrow as (r & <- & Hr).
  apply Forall_forall. intros b Hb.
  apply in_map_iff in Hb. destruct Hb as (a & <- & Ha).
  apply H. apply in_concat. exists r. split; assumption.
Qed.

Lemma in_relu_map :
  forall (cam : Torch.map2d) c,
    In c (concat (map (map Torch.relu) cam)) -> 0 <= c.
Proof.
  intros cam c H. apply in_concat in H. destruct H as (row & Hrow & Hc).
  apply in_map_iff in Hrow. destruct Hrow as (r & <- & _).
  apply in_map_iff in Hc. destruct Hc as (a & <- & _).
  apply relu_nonneg.
Qed.


(** C8 at its failing input.  One 2x2 channel with positive activations
    and a negative gradient, as the hooks of a model whose call returns
    one tensor can hold them: the weighted sum is negative everywhere, the
    rectified map is all zeros, and [GradCAMVisualizer.generate_heatmap]
    divides it by its maximum 0, so every entry of the map it returns is
    NaN and none is non-negative.  [GradCAM.generate_cam] of the fixed
    detector has the guard [cam.max() > 0], but returns no map on the
    same hooks: [cam.cpu().numpy()] raises. *)
Theorem generate_heatmap_divides_zero_map :
  let hooks := Some ([[[-1; -1]; [-1; -1]]], [[[1; 2]; [3; 4]]]) in
  Pipeline.generate_heatmap hooks
  = Some [[Torch.NaN; Torch.NaN]; [Torch.NaN; Torch.NaN]]
  /\ ~ Torch.fnonneg Torch.NaN
  /\ Fixed.generate_cam hooks = None.
Proof.
  cbn. split; [vm_compute; reflexivity|]. split; [intro H; exact H|].
  vm_compute. reflexivity.
Qed.

(** ** Elastic weight consolidation *)

Section DictFacts.

Lemma dict_set_fresh :
  forall (d : Pipeline.dict) k v,
    ~ In k (map fst d) -> Pipeline.dict_set d k v = d ++ [(k, v)].
Proof.
  induction d as [|[k' v'] r IH]; intros k v Hnot; simpl; [reflexivity|].
  destruct (String.eqb k k') eqn:E.
  - apply String.eqb_eq in E. subst. exfalso. apply Hnot. now left.
  - rewrite IH; [reflexivity|]. intro Hin. apply Hnot. now right.
Qed.

Lemma dict_of_distinct_keys :
  forall (items d : Pipeline.dict),
    NoDup (map fst (d ++ items)) ->
    fold_left (fun d kv => Pipeline.dict_set d (fst kv) (snd kv)) items d
    = d ++ items.
Proof.
  induction items as [|[k v] r IH]; intros d Hnd; simpl.
  - now rewrite app_nil_r.
  - rewrite dict_set_fresh.
    + rewrite IH; rewrite <- app_assoc; [reflexivity | exact Hnd].
    + rewrite map_app in Hnd. simpl in Hnd.
      apply NoDup_remove_2 in Hnd. intro Hin. apply Hnd.
      apply in_or_app. now left.
Qed.

Lemma dict_get_in :
  forall (d : Pipeline.dict) k v,
    NoDup (map fst d) -> In (k, v) d -> Pipeline.dict_get d k = Some v.
Proof.
  induction d as [|[k' v'] r IH]; intros k v Hnd Hin; [destruct Hin|].
  simpl in *. inversion Hnd as [|? ? Hnot Hnd']; subst.
  destruct (String.eqb k k') eqn:E.
  - apply String.eqb_eq in E. subst.
    destruct Hin as [Heq | Hin]; [congruence|].
    exfalso. apply Hnot. apply in_map_iff. now exists (k', v).
  - destruct Hin as [Heq | Hin].
    + inversion Heq; subst. rewrite String.eqb_refl in E. discriminate.
    + now apply IH.
Qed.

Lemma NoDup_fst_filter :
  forall (K A : Type) (f : K * A -> bool) (l : list (K * A)),
    NoDup (map fst l) -> NoDup (map fst (filter f l)).
Proof.
  induction l as [|x r IH]; intro Hnd; simpl; [constructor|].
  inversion Hnd as [|? ? Hnot Hnd']; subst.
  destruct (f x); simpl; [|now apply IH].
  constructor; [|now apply IH].
  intro Hin. apply Hnot. apply in_map_iff in Hin.
  destruct Hin as (y & Hy & Hin). apply filter_In in Hin.
  apply in_map_iff. exists y. tauto.
Qed.

Lemma zip_with_maps :
  forall (A : Type) (f : Q -> Q -> Q) (g h : A -> Q) (a : list A),
    Pipeline.zip_with f (map g a) (map h a)
    = Some (map (fun x => f (g x) (h x)) a).
Proof.
  induction a as [|x r IH]; simpl; [reflexivity|]. now rewrite IH.
Qed.

Lemma zip_with_self :
  forall (f : Q -> Q -> Q) (a : Torch.tensor),
    Pipeline.zip_with f a a = Some (map (fun x => f x x) a).
Proof.
  induction a as [|x r IH]; simpl; [reflexivity|]. now rewrite IH.
Qed.

Lemma sum_list_zero :
  forall l, Forall (fun x => x == 0) l -> Torch.sum_list l == 0.
Proof.
  induction 1 as [|x r Hx _ IH]; simpl; [reflexivity|].
  rewrite Hx, IH. reflexivity.
Qed.

End DictFacts.

(** What the guard holds right after its construction: for every
    trainable parameter, a snapshot equal to its current value and a
    Fisher accumulator of zeros of the same size. *)
Lemma ewc_init_lookup :
  forall (m : Pipeline.EnhancedAIDetector) lambda_ewc n p,
    NoDup (map fst (Pipeline.named_parameters m)) ->
    In (n, p) (Pipeline.named_parameters m) ->
    Pipeline.requires_grad p = true ->
    let e := Pipeline.ElasticWeightConsolidation_init m lambda_ewc in
    Pipeline.dict_get (Pipeline.ewc_params e) n = Some (Pipeline.data p)
    /\ Pipeline.dict_get (Pipeline.fisher e) n
       = Some (map (fun _ => 0) (Pipeline.data p)).
Proof.
  intros m lam n p Hnd Hin Hrg e.
  assert (Htr : In (n, p) (Pipeline.trainable m))
    by (apply filter_In; split; [exact Hin | exact Hrg]).
  assert (Hkeys : NoDup (map fst (Pipeline.trainable m)))
    by (apply NoDup_fst_filter; exact Hnd).
  subst e. unfold Pipeline.ElasticWeightConsolidation_init. cbn.
  unfold Pipeline.dict_of.
  rewrite !dict_of_distinct_keys by (cbn; rewrite map_map; exact Hkeys).
  cbn. split.
  - apply dict_get_in; [rewrite map_map; exact Hkeys|].
    apply in_map_iff. now exists (n, p).
  - apply dict_get_in; [rewrite map_map; exact Hkeys|].
    apply in_map_iff. now exists (n, p).
Qed.

Lemma penalty_term_after_init :
  forall (m : Pipeline.EnhancedAIDetector) lambda_ewc np,
    NoDup (map fst (Pipeline.named_parameters m)) ->
    In np (Pipeline.named_parameters m) ->
    exists t,
      Pipeline.penalty_term
        (Pipeline.ElasticWeightConsolidation_init m lambda_ewc) np = Some t
      /\ t == 0.
Proof.
  intros m lam [n p] Hnd Hin. unfold Pipeline.penalty_term.
  destruct (Pipeline.requires_grad p) eqn:Hrg; cbn [andb];
    [|exists 0; split; reflexivity].
  destruct (ewc_init_lookup m lam n p Hnd Hin Hrg) as [Hs Hf].
  unfold Pipeline.dict_mem. rewrite Hf, Hs.
  rewrite zip_with_self. rewrite map_map. rewrite zip_with_maps.
  eexists. split; [reflexivity|].
  apply sum_list_zero. apply Forall_forall. intros x Hx.
  apply in_map_iff in Hx. destruct Hx as (y & <- & _). ring.
Qed.

Lemma penalty_fold_zero :
  forall (e : Pipeline.ElasticWeightConsolidation) l,
    (forall np, In np l ->
                exists t, Pipeline.penalty_term e np = Some t /\ t == 0) ->
    forall a,
    exists v,
      fold_left (fun acc np =>
                   match acc, Pipeline.penalty_term e np with
                   | Some l, Some t => Some (l + t)
                   | _, _ => None
                   end) l (Some a) = Some v
      /\ v == a.
Proof.
  intros e l. induction l as [|np r IH]; intros H a; simpl.
  - exists a. split; reflexivity.
  - destruct (H np (or_introl eq_refl)) as (t & Ht & Ht0). rewrite Ht.
    destruct (IH (fun x Hx => H x (or_intror Hx)) (a + t)) as (v & Hv & Hva).
    exists v. split; [exact Hv|]. rewrite Hva, Ht0. ring.
Qed.

(** C6.  Right after [ElasticWeightConsolidation(model, lambda_ewc)],
    with the model untouched, [penalty()] returns a value and that value
    is zero: every trainable parameter finds a snapshot equal to itself
    and a Fisher accumulator of zeros, so each term of the sum is zero.
    The names of the parameters are distinct, as PyTorch hands them out. *)
Theorem penalty_zero_after_construction :
  forall (m : Pipeline.EnhancedAIDetector) (lambda_ewc : Q),
    NoDup (map fst (Pipeline.named_parameters m)) ->
    exists v,
      Pipeline.penalty
        (Pipeline.ElasticWeightConsolidation_init m lambda_ewc) m = Some v
      /\ v == 0.
Proof.
  intros m lam Hnd. unfold Pipeline.penalty.
  destruct (penalty_fold_zero
              (Pipeline.ElasticWeightConsolidation_init m lam)
              (Pipeline.named_parameters m)
              (fun np Hin => penalty_term_after_init m lam np Hnd Hin) 0)
    as (v & Hv & Hv0).
  rewrite Hv. cbn. eexists. split; [reflexivity|].
  rewrite Hv0. ring.
Qed.

Lemma penalty_zero_after_construction_witness :
  exists v,
    Pipeline.penalty
      (Pipeline.ElasticWeightConsolidation_init
         (Pipeline.model (Pipeline.scalar_pipeline (3 # 2) 10 [])) 1000)
      (Pipeline.model (Pipeline.scalar_pipeline (3 # 2) 10 [])) = Some v
    /\ v == 0.
Proof.
  apply (penalty_zero_after_construction
           (Pipeline.model (Pipeline.scalar_pipeline (3 # 2) 10 [])) 1000).
  cbn. repeat (constructor; [cbn; intuition discriminate|]). constructor.
Defined.

(** ** The replay buffer: [add] *)

(** Below capacity [add] appends, and the new dict's ['timestamp'] is the
    number of dicts stored so far. *)
Lemma add_below_capacity :
  forall (image : Type) (rb : Pipeline.ReplayBuffer image) img pred conf gt uf,
    (length (Pipeline.buffer rb) < Pipeline.max_size rb)%nat ->
    exists entry,
      Pipeline.buffer (Pipeline.add rb img pred conf gt uf)
      = Pipeline.buffer rb ++ [entry]
      /\ Pipeline.timestamp entry = length (Pipeline.buffer rb).
Proof.
  intros image rb img pred conf gt uf Hlt.
  unfold Pipeline.add, Pipeline.deque_append.
  cbn [Pipeline.buffer Pipeline.max_size].
  destruct (Pipeline.max_size rb =? 0)%nat eqn:E0;
    [apply Nat.eqb_eq in E0; lia|].
  destruct (length (Pipeline.buffer rb) <? Pipeline.max_size rb)%nat eqn:E1;
    [|apply Nat.ltb_ge in E1; lia].
  eexists. split; reflexivity.
Qed.

(** While the store is below capacity the counter is strictly increasing:
    if every stored ['timestamp'] is below the number of stored dicts, the
    new one exceeds them all, and the same holds of the store after. *)
Lemma add_timestamp_increasing_below_capacity :
  forall (image : Type) (rb : Pipeline.ReplayBuffer image) img pred conf gt uf,
    (length (Pipeline.buffer rb) < Pipeline.max_size rb)%nat ->
    Forall (fun s => (Pipeline.timestamp s < length (Pipeline.buffer rb))%nat)
           (Pipeline.buffer rb) ->
    exists entry,
      Pipeline.buffer (Pipeline.add rb img pred conf gt uf)
      = Pipeline.buffer rb ++ [entry]
      /\ Forall (fun s => (Pipeline.timestamp s < Pipeline.timestamp entry)%nat)
                (Pipeline.buffer rb)
      /\ Forall (fun s =>
                   (Pipeline.timestamp s
                    < length (Pipeline.buffer
                                (Pipeline.add rb img pred conf gt uf)))%nat)
                (Pipeline.buffer (Pipeline.add rb img pred conf gt uf)).
Proof.
  intros image rb img pred conf gt uf Hlt Hinv.
  destruct (add_below_capacity rb img pred conf gt uf Hlt) as (e & Hb & Ht).
  exists e. split; [exact Hb|]. split.
  - rewrite Ht. exact Hinv.
  - rewrite Hb, length_app. cbn. apply Forall_app. split.
    + eapply Forall_impl; [|exact Hinv]. cbn. intros; lia.
    + constructor; [lia | constructor].
Qed.

(** At capacity [add] drops the oldest dict, and the new dict's
    ['timestamp'] is the capacity, whatever was inserted before. *)
Lemma add_at_capacity :
  forall (image : Type) (rb : Pipeline.ReplayBuffer image) img pred conf gt uf,
    (0 < Pipeline.max_size rb)%nat ->
    length (Pipeline.buffer rb) = Pipeline.max_size rb ->
    exists entry,
      Pipeline.buffer (Pipeline.add rb img pred conf gt uf)
      = tl (Pipeline.buffer rb) ++ [entry]
      /\ Pipeline.timestamp entry = Pipeline.max_size rb.
Proof.
  intros image rb img pred conf gt uf Hpos Hfull.
  unfold Pipeline.add, Pipeline.deque_append.
  cbn [Pipeline.buffer Pipeline.max_size].
  destruct (Pipeline.max_size rb =? 0)%nat eqn:E0;
    [apply Nat.eqb_eq in E0; lia|].
  destruct (length (Pipeline.buffer rb) <? Pipeline.max_size rb)%nat eqn:E1;
    [apply Nat.ltb_lt in E1; lia|].
  eexists. split; [reflexivity | exact Hfull].
Qed.

(** C7 at its failing input.  Four calls of [add] on a store of capacity
    2: the dicts receive the timestamps 0, 1, 2 and 2.  The store is full
    from the third call on, [len(self.buffer)] stays 2, and the fourth
    dict's timestamp is not greater than the third's. *)
Theorem timestamp_repeats_at_capacity :
  let rb0 := Pipeline.ReplayBuffer_init Q 2 in
  let rb1 := Pipeline.add rb0 (1 # 10) 0%nat (9 # 10) None None in
  let rb2 := Pipeline.add rb1 (2 # 10) 1%nat (8 # 10) None None in
  let rb3 := Pipeline.add rb2 (3 # 10) 0%nat (7 # 10) None None in
  let rb4 := Pipeline.add rb3 (4 # 10) 1%nat (6 # 10) None None in
  map (@Pipeline.timestamp Q) (Pipeline.buffer rb1) = [0%nat]
  /\ map (@Pipeline.timestamp Q) (Pipeline.buffer rb2) = [0%nat; 1%nat]
  /\ map (@Pipeline.timestamp Q) (Pipeline.buffer rb3) = [1%nat; 2%nat]
  /\ map (@Pipeline.timestamp Q) (Pipeline.buffer rb4) = [2%nat; 2%nat]
  /\ map (@Pipeline.s_image Q) (Pipeline.buffer rb4) = [3 # 10; 4 # 10].
Proof.
  cbn. repeat split; reflexivity.
Qed.

(** ** The replay buffer: [sample] *)

(** [int(batch_size * 0.7)] never exceeds [batch_size], rounding of the
    product included. *)
Lemma int_times_07_le : forall n, (Pipeline.int_times_07 n <= n)%nat.
Proof.
  intro n. unfold Pipeline.int_times_07, Pipeline.double_07.
  set (N := (Z.of_nat n * 6305039478318694)%Z).
  assert (HN : (0 <= N)%Z) by (subst N; lia).
  destruct (Z.log2 N + 1 <=? 53)%Z eqn:Ebits.
  - rewrite Z.shiftr_div_pow2 by lia.
    apply Nat2Z.inj_le. rewrite Z2Nat.id by (apply Z.div_pos; lia).
    apply Z.div_le_upper_bound; [lia|]. subst N.
    change (2 ^ 53)%Z with 9007199254740992%Z. lia.
  - apply Z.leb_gt in Ebits.
    set (s := (Z.log2 N + 1 - 53)%Z).
    assert (Hs : (0 < s)%Z) by (subst s; lia).
    assert (Npos : (0 < N)%Z).
    { destruct (Z.eq_dec N 0) as [E|E]; [|lia].
      rewrite E in Ebits. cbn in Ebits. lia. }
    set (P := (2 ^ s)%Z).
    assert (HP : (0 < P)%Z) by (subst P; apply Z.pow_pos_nonneg; lia).
    assert (HPN : (4503599627370496 * P <= N)%Z).
    { change 4503599627370496%Z with (2 ^ 52)%Z. subst P.
      rewrite <- Z.pow_add_r by lia.
      replace (52 + s)%Z with (Z.log2 N) by (subst s; lia).
      apply Z.log2_spec. exact Npos. }
    set (q := Z.shiftr N s).
    assert (Hq : (q * P <= N)%Z).
    { subst q P. rewrite Z.shiftr_div_pow2 by lia.
      rewrite Z.mul_comm. apply Z.mul_div_le. apply Z.pow_pos_nonneg; lia. }
    assert (Hq0 : (0 <= q)%Z).
    { subst q. apply Z.shiftr_nonneg. exact HN. }
    match goal with
    | |- (Z.to_nat (Z.shiftr (Z.shiftl ?rounded s) 53) <= n)%nat =>
        set (q' := rounded);
        assert (Hq' : (q <= q' <= q + 1)%Z)
          by (subst q'; destruct (_ || _)%bool; lia)
    end.
    rewrite Z.shiftl_mul_pow2 by lia. fold P.
    rewrite Z.shiftr_div_pow2 by lia.
    assert (Hprod : (q' * P <= q * P + P)%Z) by nia.
    apply Nat2Z.inj_le. rewrite Z2Nat.id by (apply Z.div_pos; nia).
    apply Z.div_le_upper_bound; [lia|].
    change (2 ^ 53)%Z with 9007199254740992%Z. subst N. lia.
Qed.

Section SampleFacts.
Variable image : Type.

Lemma map_fst_combine :
  forall (A B : Type) (a : list A) (b : list B),
    length a = length b -> map fst (combine a b) = a.
Proof.
  induction a as [|x a IH]; intros [|y b] H; simpl in *; try discriminate;
    [reflexivity|]. f_equal. apply IH. lia.
Qed.

Lemma in_combine_seq :
  forall (A : Type) (d : list A) (start i : nat) (s : A),
    In (i, s) (combine (seq start (length d)) d)
    <-> (start <= i)%nat /\ nth_error d (i - start) = Some s.
Proof.
  induction d as [|x d IH]; intros start i s; simpl.
  - split; [tauto|]. intros [_ H]. destruct (i - start)%nat; discriminate.
  - rewrite IH. split.
    + intros [H | [Hle H]].
      * inversion H; subst. rewrite Nat.sub_diag. split; [lia | reflexivity].
      * split; [lia|]. replace (i - start)%nat with (S (i - S start)) by lia.
        exact H.
    + intros [Hle H]. destruct (i - start)%nat as [|k] eqn:E.
      * left. inversion H; subst. f_equal. lia.
      * right. split; [lia|]. replace (i - S start)%nat with k by lia. exact H.
Qed.

Lemma in_positions :
  forall (keep : Pipeline.sample image -> bool) d i,
    In i (Pipeline.positions keep d)
    <-> exists s, nth_error d i = Some s /\ keep s = true.
Proof.
  intros keep d i. unfold Pipeline.positions. rewrite in_map_iff. split.
  - intros ([j s] & Hfst & Hin). simpl in Hfst. subst j.
    apply filter_In in Hin. destruct Hin as [Hin Hk].
    apply in_combine_seq in Hin. rewrite Nat.sub_0_r in Hin.
    exists s. tauto.
  - intros (s & Hnth & Hk). exists (i, s). split; [reflexivity|].
    apply filter_In. split; [|exact Hk].
    apply in_combine_seq. rewrite Nat.sub_0_r. split; [lia | exact Hnth].
Qed.

Lemma positions_NoDup :
  forall (keep : Pipeline.sample image -> bool) d,
    NoDup (Pipeline.positions keep d).
Proof.
  intros keep d. unfold Pipeline.positions. apply NoDup_fst_filter.
  rewrite map_fst_combine by (now rewrite length_seq). apply seq_NoDup.
Qed.

Lemma positions_split :
  forall (keep : Pipeline.sample image -> bool) d,
    (length (Pipeline.positions keep d)
     + length (Pipeline.positions (fun s => negb (keep s)) d))%nat
    = length d.
Proof.
  intros keep d. unfold Pipeline.positions. rewrite !length_map.
  rewrite (filter_length (fun ix : nat * Pipeline.sample image => keep (snd ix))).
  rewrite length_combine, length_seq. apply Nat.min_id.
Qed.

Lemma positions_bound :
  forall (keep : Pipeline.sample image -> bool) d i,
    In i (Pipeline.positions keep d) -> (i < length d)%nat.
Proof.
  intros keep d i H. apply in_positions in H. destruct H as (s & Hs & _).
  apply nth_error_Some. congruence.
Qed.

Lemma positions_disjoint :
  forall (keep : Pipeline.sample image -> bool) d i,
    In i (Pipeline.positions keep d) ->
    ~ In i (Pipeline.positions (fun s => negb (keep s)) d).
Proof.
  intros keep d i H1 H2. apply in_positions in H1. apply in_positions in H2.
  destruct H1 as (s & Hs & Hk). destruct H2 as (s' & Hs' & Hk').
  rewrite Hs in Hs'. inversion Hs'; subst. rewrite Hk in Hk'. discriminate.
Qed.

Lemma pick_defined :
  forall (pool idx : list nat),
    Forall (fun i => (i < length pool)%nat) idx ->
    exists ps,
      Pipeline.pick pool idx = Some ps
      /\ Forall2 (fun i p => nth_error pool i = Some p) idx ps.
Proof.
  intros pool idx H. induction H as [|i idx Hi _ (ps & Hps & HF)]; simpl.
  - exists []. split; [reflexivity | constructor].
  - destruct (nth_error pool i) as [p|] eqn:E.
    + rewrite Hps. exists (p :: ps). split; [reflexivity|].
      constructor; assumption.
    + apply nth_error_Some in Hi. contradiction.
Qed.

Lemma picked_NoDup :
  forall (pool idx ps : list nat),
    NoDup pool -> NoDup idx ->
    Forall2 (fun i p => nth_error pool i = Some p) idx ps ->
    NoDup ps /\ incl ps pool /\ length ps = length idx.
Proof.
  intros pool idx ps Hpool Hidx HF.
  induction HF as [|i p idx ps Hip HF IH].
  - repeat split; [constructor | intros x [] ].
  - inversion Hidx as [|? ? Hnot Hidx']; subst.
    destruct (IH Hidx') as (Hnd & Hincl & Hlen).
    repeat split.
    + constructor; [|exact Hnd]. intro Hin.
      assert (Hj : exists j, In j idx /\ nth_error pool j = Some p).
      { clear - HF Hin. induction HF as [|j q idx ps Hjq HF IH];
          [destruct Hin|].
        destruct Hin as [-> | Hin].
        - exists j. split; [now left | exact Hjq].
        - destruct (IH Hin) as (k & Hk & Hkp). exists k. split;
            [now right | exact Hkp]. }
      destruct Hj as (j & Hj & Hjp). apply Hnot.
      assert (i = j); [|subst; exact Hj].
      apply (proj1 (NoDup_nth_error pool) Hpool).
      * apply nth_error_Some. congruence.
      * congruence.
    + intros x [<- | Hx]; [eapply nth_error_In; exact Hip | now apply Hincl].
    + simpl. now rewrite Hlen.
Qed.

Lemma choice_then_pick :
  forall (RND : Pipeline.Random) (pool : list nat) (k : nat)
         (g : Pipeline.np_generator),
    Pipeline.without_replacement RND ->
    NoDup pool -> (k <= length pool)%nat ->
    exists idx ps,
      fst (Pipeline.np_random_choice g (length pool) k) = Some idx
      /\ Pipeline.pick pool idx = Some ps
      /\ NoDup ps /\ incl ps pool /\ length ps = k.
Proof.
  intros RND pool k g Hlaw Hpool Hk.
  destruct (Hlaw g (length pool) k Hk) as (idx & Hidx & Hlen & Hnd & Hlt).
  destruct (pick_defined pool Hlt) as (ps & Hps & HF).
  destruct (picked_NoDup Hpool Hnd HF) as (H1 & H2 & H3).
  exists idx, ps. repeat split; try assumption. congruence.
Qed.

Lemma deref_all_from :
  forall (pre suf : list (Pipeline.sample image)) ms,
    Pipeline.deref {| Pipeline.max_size := ms; Pipeline.buffer := pre ++ suf |}
                   (seq (length pre) (length suf))
    = suf.
Proof.
  intros pre suf ms. revert pre.
  induction suf as [|x suf IH]; intro pre; [reflexivity|].
  unfold Pipeline.deref in *. cbn [length seq flat_map Pipeline.buffer] in *.
  rewrite nth_error_app2 by lia. rewrite Nat.sub_diag. cbn [nth_error app].
  f_equal. specialize (IH (pre ++ [x])).
  rewrite <- app_assoc, length_app in IH. cbn in IH.
  rewrite Nat.add_1_r in IH. exact IH.
Qed.

End SampleFacts.

Lemma deref_length :
  forall (image : Type) (rb : Pipeline.ReplayBuffer image) ps,
    Forall (fun p => (p < length (Pipeline.buffer rb))%nat) ps ->
    length (Pipeline.deref rb ps) = length ps.
Proof.
  intros image rb ps H. unfold Pipeline.deref.
  induction H as [|p ps Hp _ IH]; [reflexivity|].
  cbn [flat_map]. rewrite length_app, IH.
  destruct (nth_error (Pipeline.buffer rb) p) eqn:E; [reflexivity|].
  apply nth_error_Some in Hp. contradiction.
Qed.


(** C3, as [ReplayBuffer.sample] implements it, for every store, batch
    size and state of the random generator.
    - A store with fewer than [batch_size] samples is returned whole.
    - Otherwise the selected dicts are distinct; they are
      [min(int(batch_size * 0.7), F)] dicts of the [F] with user feedback
      followed by [min(batch_size - feedback_count, N)] dicts of the [N]
      without.  The result has at most [batch_size] dicts, and exactly
      [batch_size] precisely when the no-feedback subset can supply
      [batch_size - feedback_count]; this is the case whenever the
      feedback subset is the one that is too small
      ([F <= int(batch_size * 0.7)]).  A no-feedback subset that is too
      small is not made up for. *)
Theorem sample_spec :
  forall (RND : Pipeline.Random) (image : Type)
         (rb : Pipeline.ReplayBuffer image) (batch_size : nat)
         (g : Pipeline.np_generator),
    Pipeline.without_replacement RND ->
    let n := length (Pipeline.buffer rb) in
    let fb := Pipeline.positions (@Pipeline.has_feedback image) (Pipeline.buffer rb) in
    let nofb := Pipeline.positions (fun s => negb (Pipeline.has_feedback s))
                                   (Pipeline.buffer rb) in
    let fc := Nat.min (Pipeline.int_times_07 batch_size) (length fb) in
    ((n < batch_size)%nat ->
     fst (Pipeline.sample_ rb batch_size g) = Some (Pipeline.buffer rb))
    /\ ((batch_size <= n)%nat ->
        exists a b,
          fst (Pipeline.sample_positions rb batch_size g) = Some (a ++ b)
          /\ fst (Pipeline.sample_ rb batch_size g)
             = Some (Pipeline.deref rb (a ++ b))
          /\ length (Pipeline.deref rb (a ++ b)) = length (a ++ b)
          /\ NoDup (a ++ b)
          /\ incl a fb /\ length a = fc
          /\ incl b nofb
          /\ length b = Nat.min (batch_size - fc) (length nofb)
          /\ (length (a ++ b) <= batch_size)%nat
          /\ (length (a ++ b) = batch_size
              <-> (batch_size - fc <= length nofb)%nat)
          /\ ((length fb <= Pipeline.int_times_07 batch_size)%nat ->
              length (a ++ b) = batch_size)).
Proof.
  intros RND image rb batch_size g Hlaw n fb nofb fc. split.
  - intro Hlt. unfold Pipeline.sample_, Pipeline.sample_positions.
    apply Nat.ltb_lt in Hlt. fold n. rewrite Hlt. cbn.
    f_equal. destruct rb as [ms d]. cbn in *.
    exact (deref_all_from [] d ms).
  - intro Hge.
    assert (Hsplit : (length fb + length nofb)%nat = n)
      by apply positions_split.
    assert (Hfc : (fc <= batch_size)%nat)
      by (subst fc; pose proof (int_times_07_le batch_size); lia).
    assert (Hfirst : forall g0, exists a,
               fst (if (0 <? fc)%nat then
                 let '(idx, g') := Pipeline.np_random_choice g0 (length fb) fc in
                 (match idx with
                  | Some feedback_indices => Pipeline.pick fb feedback_indices
                  | None => None
                  end, g')
               else (Some [], g0)) = Some a
               /\ NoDup a /\ incl a fb /\ length a = fc).
    { intro g0. destruct (0 <? fc)%nat eqn:E.
      - destruct (@choice_then_pick RND fb fc g0 Hlaw (positions_NoDup _ _))
          as (idx & ps & Hidx & Hps & H1 & H2 & H3); [subst fc; lia|].
        destruct (Pipeline.np_random_choice g0 (length fb) fc) as [i g'].
        cbn in Hidx. subst i. cbn. exists ps. tauto.
      - apply Nat.ltb_ge in E. exists []. cbn.
        repeat split; [constructor | intros x [] | lia]. }
    assert (Hpos : exists a b,
               fst (Pipeline.sample_positions rb batch_size g) = Some (a ++ b)
               /\ NoDup a /\ incl a fb /\ length a = fc
               /\ NoDup b /\ incl b nofb
               /\ length b = Nat.min (batch_size - fc) (length nofb)).
    { unfold Pipeline.sample_positions. fold n.
      rewrite (proj2 (Nat.ltb_ge _ _) Hge). fold fb nofb. fold fc.
      destruct (Hfirst g) as (a & Ha & Ha1 & Ha2 & Ha3).
      destruct (if (0 <? fc)%nat then _ else _) as [sel g1].
      cbn in Ha. subst sel.
      destruct ((0 <? batch_size - fc)%nat
                && negb (length nofb =? 0)%nat)%bool eqn:E2.
      - destruct (@choice_then_pick RND nofb
                    (Nat.min (batch_size - fc) (length nofb)) g1 Hlaw
                    (positions_NoDup _ _))
          as (idx & ps & Hidx & Hps & H1 & H2 & H3); [lia|].
        destruct (Pipeline.np_random_choice g1 (length nofb) _) as [i g'].
        cbn in Hidx. subst i. rewrite Hps. cbn.
        exists a, ps. tauto.
      - exists a, []. rewrite app_nil_r. cbn.
        repeat split; try assumption; [constructor | intros x [] |].
        apply andb_false_iff in E2. destruct E2 as [E2 | E2].
        + apply Nat.ltb_ge in E2. lia.
        + apply negb_false_iff, Nat.eqb_eq in E2. lia. }
    destruct Hpos as (a & b & Hab & Ha1 & Ha2 & Ha3 & Hb1 & Hb2 & Hb3).
    exists a, b.
    assert (Hbound : Forall (fun p => (p < length (Pipeline.buffer rb))%nat)
                            (a ++ b)).
    { apply Forall_app. split; apply Forall_forall; intros x Hx.
      - apply Ha2 in Hx. exact (positions_bound _ _ _ Hx).
      - apply Hb2 in Hx. exact (positions_bound _ _ _ Hx). }
    split; [exact Hab|]. split.
    { unfold Pipeline.sample_.
      destruct (Pipeline.sample_positions rb batch_size g) as [ps g'].
      cbn in *. subst ps. reflexivity. }
    split; [apply deref_length; exact Hbound|].
    split.
    { apply NoDup_app; try assumption.
      intros x Hx Hx'. apply Ha2 in Hx. apply Hb2 in Hx'.
      exact (positions_disjoint _ _ _ Hx Hx'). }
    rewrite length_app.
    repeat split; try assumption; try lia.
Qed.

Lemma first_indices_without_replacement :
  Pipeline.without_replacement Pipeline.first_indices.
Proof.
  intros g n k Hk. cbn. apply Nat.leb_le in Hk. rewrite Hk. cbn.
  exists (seq 0 k). split; [reflexivity|].
  split; [apply length_seq|]. split; [apply seq_NoDup|].
  apply Forall_forall. intros i Hi. apply in_seq in Hi.
  apply Nat.leb_le in Hk. lia.
Qed.

Lemma sample_spec_witness :
  Pipeline.without_replacement Pipeline.first_indices
  /\ exists ps,
      fst (Pipeline.sample_positions (RND := Pipeline.first_indices)
             (Pipeline.test_store 2 5) 4 tt) = Some ps
      /\ NoDup ps /\ length ps = 4%nat.
Proof.
  split; [exact first_indices_without_replacement|].
  destruct (@sample_spec Pipeline.first_indices Q (Pipeline.test_store 2 5)
              4%nat tt first_indices_without_replacement) as [_ H].
  destruct H as (a & b & Hab & _ & _ & Hnd & _ & _ & _ & _ & _ & Hlen & _).
  - cbn. lia.
  - exists (a ++ b). split; [exact Hab|]. split; [exact Hnd|].
    apply Hlen. vm_compute. lia.
Defined.

(** The claim of C3 fails on a store of ten samples that all carry user
    feedback, asked for a batch of ten: seven dicts come from the feedback
    subset, the no-feedback subset is empty, and nothing fills the three
    missing places. *)
Lemma sample_returns_fewer_than_batch_size :
  (10 <= Pipeline.get_size (Pipeline.test_store 10 0))%nat
  /\ fst (Pipeline.sample_positions (RND := Pipeline.first_indices)
            (Pipeline.test_store 10 0) 10 tt)
     = Some [0; 1; 2; 3; 4; 5; 6]%nat
  /\ option_map (@length _)
                (fst (Pipeline.sample_ (RND := Pipeline.first_indices)
                        (Pipeline.test_store 10 0) 10 tt))
     = Some 7%nat.
Proof.
  split; [cbn; lia|]. split; vm_compute; reflexivity.
Qed.

(** ** Incremental training on a store that is too small *)

(** C5.  When the replay buffer holds fewer than [batch_size] samples,
    [incremental_train] returns normally; the pipeline it leaves differs
    from the one it found only in the log, which has received one record
    of level WARNING: model weights, temperature, training mode, EWC
    guard (snapshot and Fisher), optimizer, scheduler, replay buffer and
    generators are the same. *)
Theorem incremental_train_too_few_samples :
  forall (BE : Pipeline.Backend) (RND : Pipeline.Random)
         (p : Pipeline.EnhancedAIDetectorPipeline)
         (num_epochs batch_size : nat),
    (Pipeline.get_size (Pipeline.replay_buffer p) < batch_size)%nat ->
    exists p',
      Pipeline.incremental_train p num_epochs batch_size = (Some tt, p')
      /\ Pipeline.model p' = Pipeline.model p
      /\ Pipeline.ewc p' = Pipeline.ewc p
      /\ Pipeline.optimizer p' = Pipeline.optimizer p
      /\ Pipeline.scheduler p' = Pipeline.scheduler p
      /\ Pipeline.replay_buffer p' = Pipeline.replay_buffer p
      /\ Pipeline.confidence_threshold p' = Pipeline.confidence_threshold p
      /\ Pipeline.np_random p' = Pipeline.np_random p
      /\ Pipeline.torch_random p' = Pipeline.torch_random p
      /\ Pipeline.log p' = Pipeline.log p ++ [Pipeline.warning_not_enough_samples]
      /\ Pipeline.levelname Pipeline.warning_not_enough_samples
         = Pipeline.WARNING.
Proof.
  intros BE RND p num_epochs batch_size Hlt.
  unfold Pipeline.incremental_train.
  apply Nat.ltb_lt in Hlt. rewrite Hlt.
  eexists. split; [reflexivity|]. cbn. repeat split; reflexivity.
Qed.

Lemma incremental_train_too_few_samples_witness :
  exists p',
    Pipeline.incremental_train (Pipeline.scalar_pipeline (3 # 2) 10 [])
                               5 16 = (Some tt, p')
    /\ Pipeline.model p' = Pipeline.model (Pipeline.scalar_pipeline (3 # 2) 10 [])
    /\ Pipeline.ewc p' = Pipeline.ewc (Pipeline.scalar_pipeline (3 # 2) 10 [])
    /\ Pipeline.optimizer p'
       = Pipeline.optimizer (Pipeline.scalar_pipeline (3 # 2) 10 [])
    /\ Pipeline.scheduler p'
       = Pipeline.scheduler (Pipeline.scalar_pipeline (3 # 2) 10 [])
    /\ Pipeline.replay_buffer p'
       = Pipeline.replay_buffer (Pipeline.scalar_pipeline (3 # 2) 10 [])
    /\ Pipeline.confidence_threshold p'
       = Pipeline.confidence_threshold (Pipeline.scalar_pipeline (3 # 2) 10 [])
    /\ Pipeline.np_random p'
       = Pipeline.np_random (Pipeline.scalar_pipeline (3 # 2) 10 [])
    /\ Pipeline.torch_random p'
       = Pipeline.torch_random (Pipeline.scalar_pipeline (3 # 2) 10 [])
    /\ Pipeline.log p'
       = Pipeline.log (Pipeline.scalar_pipeline (3 # 2) 10 [])
         ++ [Pipeline.warning_not_enough_samples]
    /\ Pipeline.levelname Pipeline.warning_not_enough_samples
       = Pipeline.WARNING.
Proof.
  apply (@incremental_train_too_few_samples
           Pipeline.scalar_backend Pipeline.first_indices
           (Pipeline.scalar_pipeline (3 # 2) 10 []) 5 16).
  cbn. lia.
Defined.

(** ** The spectral feature extractor *)

Section FrequencyFacts.
Context {NP : Fixed.Numpy}.

Lemma pad_or_truncate_length :
  forall f, length (Fixed.pad_or_truncate f) = 256%nat.
Proof.
  intro f. unfold Fixed.pad_or_truncate.
  rewrite length_app, repeat_length, length_firstn. lia.
Qed.

Lemma pad_or_truncate_short :
  forall f, (length f <= 256)%nat ->
            Fixed.pad_or_truncate f = f ++ repeat 0 (256 - length f)%nat.
Proof.
  intros f H. unfold Fixed.pad_or_truncate. now rewrite firstn_all2.
Qed.

Lemma np_max_defined :
  forall l, l <> [] -> exists v, Fixed.np_max l = Some v.
Proof.
  intros l H. destruct (max_defined H) as (c & k & E).
  unfold Fixed.np_max. rewrite E. now exists c.
Qed.

Lemma in_indexed :
  forall (A : Type) (l : list A) i x,
    In (i, x) (Fixed.indexed l) <-> nth_error l i = Some x.
Proof.
  intros A l i x. unfold Fixed.indexed. rewrite in_combine_seq.
  rewrite Nat.sub_0_r. split; [tauto | split; [lia | assumption]].
Qed.

Lemma any_masked :
  forall test (arr : Torch.map2d) h w,
    length arr = h -> Forall (fun r => length r = w) arr ->
    Fixed.np_any test h w = true -> Fixed.masked test arr <> [].
Proof.
  intros test arr h w Hh Hw Hany.
  apply existsb_exists in Hany. destruct Hany as (y & Hy & Hany).
  apply existsb_exists in Hany. destruct Hany as (x & Hx & Ht).
  apply in_seq in Hy. apply in_seq in Hx.
  destruct (nth_error arr y) as [row|] eqn:Er;
    [|apply nth_error_None in Er; lia].
  assert (Hrow : length row = w).
  { rewrite Forall_forall in Hw. apply Hw. eapply nth_error_In; exact Er. }
  destruct (nth_error row x) as [v|] eqn:Ev;
    [|apply nth_error_None in Ev; lia].
  assert (Hin : In v (Fixed.masked test arr)).
  { unfold Fixed.masked. apply in_flat_map. exists (y, row). split.
    - apply in_indexed. exact Er.
    - cbn. apply in_map_iff. exists (x, v). split; [reflexivity|].
      apply filter_In. split; [apply in_indexed; exact Ev | exact Ht]. }
  intro E. rewrite E in Hin. destruct Hin.
Qed.

Lemma band_stats_defined :
  forall (spectrum : Torch.map2d) h w center_h center_w r_min r_max,
    Fixed.percentile_defined NP ->
    length spectrum = h -> Forall (fun r => length r = w) spectrum ->
    exists b,
      Fixed.band_stats spectrum h w center_h center_w r_min r_max = Some b
      /\ length b = 4%nat
      /\ (Fixed.np_any (Fixed.band_mask center_h center_w r_min r_max) h w
          = false -> b = [0; 0; 0; 0]).
Proof.
  intros spectrum h w ch cw r_min r_max Hperc Hh Hw.
  unfold Fixed.band_stats.
  destruct (Fixed.np_any (Fixed.band_mask ch cw r_min r_max) h w) eqn:E.
  - pose proof (any_masked _ Hh Hw E) as Hne.
    destruct (np_max_defined Hne) as (mx & Hmx). rewrite Hmx.
    destruct (Fixed.np_percentile _ 95) as [p95|] eqn:Ep;
      [|exfalso; exact (Hperc _ _ Hne Ep)].
    eexists. split; [reflexivity|]. split; [reflexivity | discriminate].
  - eexists. split; [reflexivity|]. split; reflexivity.
Qed.

Lemma column_defined :
  forall (arr : Torch.map2d) x,
    Forall (fun r => (x < length r)%nat) arr ->
    exists c, Fixed.column arr x = Some c.
Proof.
  intros arr x H. induction H as [|row rest Hrow _ (c & Hc)]; simpl.
  - now exists [].
  - destruct (nth_error row x) as [v|] eqn:E;
      [|apply nth_error_None in E; lia].
    rewrite Hc. now eexists.
Qed.

Lemma block_stats_defined :
  forall block, exists st, Fixed.block_stats block = Some st.
Proof.
  intro block. unfold Fixed.block_stats.
  destruct (0 <? length (tl (concat (Fixed.cv2_dct block))))%nat eqn:E;
    [|now eexists].
  apply Nat.ltb_lt in E.
  destruct (@np_max_defined (map Qabs (tl (concat (Fixed.cv2_dct block)))))
    as (mx & Hmx).
  - intro H. apply (f_equal (@length Q)) in H.
    rewrite length_map in H. cbn in H. lia.
  - rewrite Hmx. now eexists.
Qed.

Lemma dct_row_defined :
  forall img i js features,
    exists f, Fixed.dct_row img i js features = Some f.
Proof.
  intros img i js. induction js as [|j js IH]; intro features;
    cbn [Fixed.dct_row].
  - now eexists.
  - destruct (block_stats_defined (Fixed.block_at img i j)) as (st & Hst).
    rewrite Hst. destruct (252 <=? length (features ++ st))%nat.
    + now eexists.
    + apply IH.
Qed.

Lemma dct_rows_defined :
  forall img w rows features,
    exists f, Fixed.dct_rows img w rows features = Some f.
Proof.
  intros img w rows. induction rows as [|i rows IH]; intro features;
    cbn [Fixed.dct_rows].
  - now eexists.
  - destruct (dct_row_defined img i (Fixed.range8 (w - 7)) features)
      as (f & Hf). rewrite Hf.
    destruct (252 <=? length f)%nat; [now eexists | apply IH].
Qed.

End FrequencyFacts.

(** C2.  With a numpy whose percentile is defined on non-empty arrays:
    - for every spectrum of [h >= 1] rows of [w >= 1] entries,
      [_extract_frequency_stats] returns (raises nothing) a vector of
      exactly 256 entries: four entries per radial band, nine global and
      directional statistics, three high-frequency entries, then 232
      zeros of padding; a band whose mask selects no coefficient
      contributes four zeros and an empty high-frequency region three;
    - for every image, of any height and width,
      [_extract_dct_block_features] returns a vector of exactly 256
      entries. *)
Theorem feature_vectors_have_256_entries :
  forall (NP : Fixed.Numpy),
    Fixed.percentile_defined NP ->
    (forall (magnitude_spectrum : Torch.map2d) (h w : nat),
        (1 <= h)%nat -> (1 <= w)%nat ->
        length magnitude_spectrum = h ->
        Forall (fun row => length row = w) magnitude_spectrum ->
        exists b1 b2 b3 stats hf,
          Fixed._extract_frequency_stats magnitude_spectrum
          = Some (b1 ++ b2 ++ b3 ++ stats ++ hf ++ repeat 0 232%nat)
          /\ length (b1 ++ b2 ++ b3 ++ stats ++ hf ++ repeat 0 232%nat)
             = 256%nat
          /\ length b1 = 4%nat /\ length b2 = 4%nat /\ length b3 = 4%nat
          /\ length stats = 9%nat /\ length hf = 3%nat
          /\ (Fixed.np_any (Fixed.band_mask (h / 2) (w / 2) 0 20) h w = false ->
              b1 = [0; 0; 0; 0])
          /\ (Fixed.np_any (Fixed.band_mask (h / 2) (w / 2) 20 50) h w = false ->
              b2 = [0; 0; 0; 0])
          /\ (Fixed.np_any (Fixed.band_mask (h / 2) (w / 2) 50 100) h w = false ->
              b3 = [0; 0; 0; 0])
          /\ (Fixed.np_any (Fixed.high_freq_mask (h / 2) (w / 2)) h w = false ->
              hf = [0; 0; 0]))
    /\ (forall img : Torch.map2d,
           exists f,
             Fixed._extract_dct_block_features img = Some f
             /\ length f = 256%nat).
Proof.
  intros NP Hperc. split.
  - intros spectrum h w Hh Hw Hlen Hrect.
    destruct spectrum as [|r0 rest]; [simpl in Hlen; lia|].
    assert (Hr0 : length r0 = w) by (inversion Hrect; assumption).
    assert (Hshape : Fixed.shape (r0 :: rest) = (h, w))
      by (unfold Fixed.shape; cbn [hd]; congruence).
    unfold Fixed._extract_frequency_stats. rewrite Hshape.
    cbv beta iota zeta.
    destruct (band_stats_defined (h / 2) (w / 2) 0 20 Hperc Hlen Hrect)
      as (b1 & E1 & L1 & Z1).
    destruct (band_stats_defined (h / 2) (w / 2) 20 50 Hperc Hlen Hrect)
      as (b2 & E2 & L2 & Z2).
    destruct (band_stats_defined (h / 2) (w / 2) 50 100 Hperc Hlen Hrect)
      as (b3 & E3 & L3 & Z3).
    rewrite E1, E2, E3.
    assert (Hflat : concat (r0 :: rest) <> []).
    { cbn [concat]. destruct r0; [simpl in Hr0; lia | discriminate]. }
    destruct (np_max_defined Hflat) as (mx & Hmx). rewrite Hmx.
    destruct (Fixed.np_percentile (concat (r0 :: rest)) 95) as [p95|] eqn:E95;
      [|exfalso; exact (Hperc _ _ Hflat E95)].
    destruct (Fixed.np_percentile (concat (r0 :: rest)) 5) as [p5|] eqn:E5;
      [|exfalso; exact (Hperc _ _ Hflat E5)].
    destruct (nth_error (r0 :: rest) (h / 2)) as [h_line|] eqn:Eh.
    2:{ apply nth_error_None in Eh.
        assert (h / 2 < h)%nat by (apply Nat.div_lt; lia).
        exfalso. lia. }
    destruct (@column_defined (r0 :: rest) (w / 2)) as (v_line & Ev).
    { eapply Forall_impl; [|exact Hrect]. cbv beta. intros row Hrow.
      assert (w / 2 < w)%nat by (apply Nat.div_lt; lia). lia. }
    rewrite Ev.
    set (stats :=
           [Fixed.np_mean (concat (r0 :: rest));
            Fixed.np_std (concat (r0 :: rest)); mx; p95; p5]
           ++ [Fixed.np_mean h_line; Fixed.np_std h_line;
               Fixed.np_mean v_line; Fixed.np_std v_line]).
    assert (Hpad : forall hf, length hf = 3%nat ->
              Fixed.pad_or_truncate
                ((((b1 ++ b2 ++ b3) ++
                   [Fixed.np_mean (concat (r0 :: rest));
                    Fixed.np_std (concat (r0 :: rest)); mx; p95; p5]) ++
                  [Fixed.np_mean h_line; Fixed.np_std h_line;
                   Fixed.np_mean v_line; Fixed.np_std v_line]) ++ hf)
              = b1 ++ b2 ++ b3 ++ stats ++ hf ++ repeat 0 232%nat).
    { intros hf Hhf. rewrite pad_or_truncate_short
        by (rewrite !length_app, L1, L2, L3, Hhf; cbn [length]; lia).
      replace (256 - _)%nat with 232%nat
        by (rewrite !length_app, L1, L2, L3, Hhf; cbn [length]; lia).
      subst stats. rewrite <- !app_assoc. reflexivity. }
    destruct (Fixed.np_any (Fixed.high_freq_mask (h / 2) (w / 2)) h w) eqn:Ehf.
    + eexists b1, b2, b3, stats, _. split.
      * rewrite Hpad by reflexivity. reflexivity.
      * split.
        { unfold stats.
          rewrite !length_app, L1, L2, L3, repeat_length. cbn [length]. lia. }
        repeat split; try assumption; try reflexivity. discriminate.
    + exists b1, b2, b3, stats, [0; 0; 0]. split.
      * rewrite Hpad by reflexivity. reflexivity.
      * split.
        { unfold stats.
          rewrite !length_app, L1, L2, L3, repeat_length. cbn [length]. lia. }
        repeat split; try assumption; try reflexivity.
  - intro img. unfold Fixed._extract_dct_block_features.
    destruct (Fixed.shape img) as [h w].
    destruct (dct_rows_defined img w (Fixed.range8 (h - 7)) []) as (f & Hf).
    rewrite Hf. eexists. split; [reflexivity | apply pad_or_truncate_length].
Qed.

Lemma exact_numpy_percentile_defined :
  Fixed.percentile_defined Fixed.exact_numpy.
Proof.
  intros l q H. cbn. destruct (np_max_defined H) as (v & E).
  rewrite E. discriminate.
Qed.

Lemma feature_vectors_have_256_entries_witness :
  Fixed.percentile_defined Fixed.exact_numpy
  /\ (exists f,
         Fixed._extract_frequency_stats (NP := Fixed.exact_numpy)
           (repeat (repeat (1 # 2) 10) 9) = Some f
         /\ length f = 256%nat)
  /\ (exists f,
         Fixed._extract_dct_block_features (NP := Fixed.exact_numpy)
           (repeat (repeat (1 # 2) 10) 9) = Some f
         /\ length f = 256%nat).
Proof.
  split; [exact exact_numpy_percentile_defined|].
  destruct (@feature_vectors_have_256_entries Fixed.exact_numpy
              exact_numpy_percentile_defined) as [Hfreq Hdct].
  split.
  - destruct (Hfreq (repeat (repeat (1 # 2) 10) 9) 9%nat 10%nat)
      as (b1 & b2 & b3 & stats & hf & E & L & _).
    + lia.
    + lia.
    + reflexivity.
    + apply Forall_forall. intros row Hrow. apply repeat_spec in Hrow.
      subst row. reflexivity.
    + eexists. split; [exact E | exact L].
  - apply Hdct.
Defined.

(* ================================================================== *)
(** * Part III: further properties of the two detectors               *)
(* ================================================================== *)

(** ** The verdict of the fixed detector across thresholds *)

(** X1.  On one probability row, the results built with two thresholds
    [t1 <= t2] carry the same confidence and class probabilities; raising
    the threshold can turn a label into ["UNCERTAIN"] but never the
    reverse, and it never exchanges ["real"] and ["synthetic"]. *)
Theorem verdict_monotone_in_threshold :
  forall t1 t2 lg cal (p : Torch.tensor) r1 r2,
    t1 <= t2 ->
    Fixed.result_of_row t1 lg cal p = Some r1 ->
    Fixed.result_of_row t2 lg cal p = Some r2 ->
    Fixed.confidence r1 = Fixed.confidence r2
    /\ Fixed.real_probability r1 = Fixed.real_probability r2
    /\ Fixed.synthetic_probability r1 = Fixed.synthetic_probability r2
    /\ (Fixed.is_uncertain r1 = true -> Fixed.is_uncertain r2 = true)
    /\ (Fixed.prediction r2 <> "UNCERTAIN"%string ->
        Fixed.prediction r1 = Fixed.prediction r2).
Proof.
  intros t1 t2 lg cal p r1 r2 Hle H1 H2.
  apply float32_mono in Hle.
  unfold Fixed.result_of_row in H1, H2.
  destruct (Torch.max (map Torch.float32 p)) as [[c k]|]; [|discriminate].
  destruct (nth_error (map Torch.float32 p) 1); [|discriminate].
  destruct (nth_error (map Torch.float32 p) 0); [|discriminate].
  inversion H1; subst; clear H1. inversion H2; subst; clear H2. cbn.
  repeat split.
  - intro Hu. apply Qltb_lt in Hu. apply Qltb_lt.
    apply Qlt_le_trans with (Torch.float32 t1); assumption.
  - destruct (Torch.Qltb c (Torch.float32 t2)) eqn:E2;
      [intro H; now elim H|].
    intros _.
    destruct (Torch.Qltb c (Torch.float32 t1)) eqn:E1; [|reflexivity].
    apply Qltb_lt in E1. apply Qltb_ge in E2. exfalso.
    apply (Qlt_irrefl c).
    apply Qlt_le_trans with (Torch.float32 t1); [exact E1|].
    apply Qle_trans with (Torch.float32 t2); assumption.
Qed.

Lemma verdict_monotone_in_threshold_witness :
  exists r1 r2,
    Fixed.result_of_row (1 # 2) [2; 1] [2; 1] [3 # 5; 2 # 5] = Some r1
    /\ Fixed.result_of_row (3 # 4) [2; 1] [2; 1] [3 # 5; 2 # 5] = Some r2
    /\ Fixed.confidence r1 = Fixed.confidence r2
    /\ Fixed.real_probability r1 = Fixed.real_probability r2
    /\ Fixed.synthetic_probability r1 = Fixed.synthetic_probability r2
    /\ (Fixed.is_uncertain r1 = true -> Fixed.is_uncertain r2 = true)
    /\ (Fixed.prediction r2 <> "UNCERTAIN"%string ->
        Fixed.prediction r1 = Fixed.prediction r2).
Proof.
  eexists; eexists.
  split; [vm_compute; reflexivity|]. split; [vm_compute; reflexivity|].
  apply (@verdict_monotone_in_threshold (1 # 2) (3 # 4) [2; 1] [2; 1]
           [3 # 5; 2 # 5]).
  - discriminate.
  - vm_compute; reflexivity.
  - vm_compute; reflexivity.
Defined.

Lemma float32_half : Torch.float32 (1 # 2) = 1 # 2.
Proof. vm_compute. reflexivity. Qed.

Lemma float32_one : Torch.float32 1 = 1.
Proof. vm_compute. reflexivity. Qed.

Lemma two_class_confidence_bounds :
  forall p0 p1,
    0 <= p0 -> 0 <= p1 -> p0 + p1 == 1 ->
    (1 # 2 <= Torch.float32 p0 \/ 1 # 2 <= Torch.float32 p1)
    /\ Torch.float32 p0 <= 1 /\ Torch.float32 p1 <= 1.
Proof.
  intros p0 p1 H0 H1 Hsum.
  split; [|split].
  - destruct (Qlt_le_dec p0 (1 # 2)) as [Hlt|Hge].
    + right. rewrite <- float32_half. apply float32_mono. lra.
    + left. rewrite <- float32_half. apply float32_mono. exact Hge.
  - rewrite <- float32_one. apply float32_mono. lra.
  - rewrite <- float32_one. apply float32_mono. lra.
Qed.

(** X2.  For a two-class probability row (non-negative entries that sum
    to one), read as float32: the confidence lies in [1/2, 1]; a
    threshold of at most 1/2 never yields ["UNCERTAIN"], and on an exact
    tie the arg-max is class 0, so that verdict is ["real"]; a threshold
    whose float32 value is above 1 always yields ["UNCERTAIN"]. *)
Theorem two_class_confidence_range :
  forall threshold lg cal p0 p1 r,
    0 <= p0 -> 0 <= p1 -> p0 + p1 == 1 ->
    Fixed.result_of_row threshold lg cal [p0; p1] = Some r ->
    1 # 2 <= Fixed.confidence r <= 1
    /\ (threshold <= 1 # 2 ->
        Fixed.prediction r <> "UNCERTAIN"%string
        /\ Fixed.is_uncertain r = false
        /\ (p0 == p1 -> Fixed.prediction r = "real"%string))
    /\ (1 < Torch.float32 threshold ->
        Fixed.prediction r = "UNCERTAIN"%string
        /\ Fixed.is_uncertain r = true).
Proof.
  intros thr lg cal p0 p1 r H0 H1 Hsum H.
  destruct (two_class_confidence_bounds H0 H1 Hsum) as [Hhalf [Hb0 Hb1]].
  assert (Hthr : thr <= 1 # 2 -> Torch.float32 thr <= 1 # 2).
  { intro Ht. rewrite <- float32_half. apply float32_mono. exact Ht. }
  unfold Fixed.result_of_row in H. cbn in H.
  destruct (Torch.Qltb (Torch.float32 p0) (Torch.float32 p1)) eqn:E;
    inversion H; subst; clear H; cbn.
  - apply Qltb_lt in E.
    assert (Hc : 1 # 2 <= Torch.float32 p1)
      by (destruct Hhalf; [lra | assumption]).
    split; [split; assumption|]. split.
    + intro Ht. apply Hthr in Ht.
      destruct (Torch.Qltb (Torch.float32 p1) (Torch.float32 thr)) eqn:Eu.
      * apply Qltb_lt in Eu. lra.
      * split; [discriminate|]. split; [reflexivity|].
        intro Heq. apply float32_comp in Heq. rewrite Heq in E.
        exfalso. exact (Qlt_irrefl _ E).
    + intro Ht.
      destruct (Torch.Qltb (Torch.float32 p1) (Torch.float32 thr)) eqn:Eu.
      * split; reflexivity.
      * apply Qltb_ge in Eu. lra.
  - apply Qltb_ge in E.
    assert (Hc : 1 # 2 <= Torch.float32 p0)
      by (destruct Hhalf; [assumption | lra]).
    split; [split; assumption|]. split.
    + intro Ht. apply Hthr in Ht.
      destruct (Torch.Qltb (Torch.float32 p0) (Torch.float32 thr)) eqn:Eu.
      * apply Qltb_lt in Eu. lra.
      * split; [discriminate|]. split; reflexivity.
    + intro Ht.
      destruct (Torch.Qltb (Torch.float32 p0) (Torch.float32 thr)) eqn:Eu.
      * split; reflexivity.
      * apply Qltb_ge in Eu. lra.
Qed.

Lemma two_class_confidence_range_witness :
  (exists r,
      Fixed.result_of_row (1 # 2) [0; 0] [0; 0] [1 # 2; 1 # 2] = Some r
      /\ 1 # 2 <= Fixed.confidence r <= 1
      /\ Fixed.prediction r <> "UNCERTAIN"%string
      /\ Fixed.is_uncertain r = false
      /\ Fixed.prediction r = "real"%string)
  /\ (exists r,
         Fixed.result_of_row (3 # 2) [1; 0] [1; 0] [3 # 4; 1 # 4] = Some r
         /\ 1 # 2 <= Fixed.confidence r <= 1
         /\ Fixed.prediction r = "UNCERTAIN"%string
         /\ Fixed.is_uncertain r = true).
Proof.
  split.
  - eexists. split; [vm_compute; reflexivity|].
    destruct (@two_class_confidence_range (1 # 2) [0; 0] [0; 0]
                (1 # 2) (1 # 2) _
                ltac:(discriminate) ltac:(discriminate)
                ltac:(reflexivity) ltac:(vm_compute; reflexivity))
      as [Hc [Hlow _]].
    destruct (Hlow ltac:(discriminate)) as [Hp [Hu Hreal]].
    split; [exact Hc|]. split; [exact Hp|]. split; [exact Hu|].
    apply Hreal. reflexivity.
  - eexists. split; [vm_compute; reflexivity|].
    destruct (@two_class_confidence_range (3 # 2) [1; 0] [1; 0]
                (3 # 4) (1 # 4) _
                ltac:(discriminate) ltac:(discriminate)
                ltac:(reflexivity) ltac:(vm_compute; reflexivity))
      as [Hc [_ Hhigh]].
    destruct (Hhigh ltac:(vm_compute; reflexivity)) as [Hp Hu].
    split; [exact Hc|]. split; [exact Hp|]. exact Hu.
Defined.

(** ** Temperature scaling and the arg-max *)




(** A negative temperature, which only the unclamped pipeline can reach,
    reverses the order of the logits. *)
Lemma negative_temperature_flips_argmax :
  option_map snd (Torch.max [2; 1]) = Some 0%nat
  /\ option_map snd
       (Torch.max (Pipeline.TemperatureScaling_forward (-1) [2; 1]))
     = Some 1%nat.
Proof.
  split; vm_compute; reflexivity.
Qed.

(** ** Grad-CAM: the range of the map *)

Lemma relu_map_max_bounds :
  forall (cam : Torch.map2d) mx k c,
    Torch.max (concat (map (map Torch.relu) cam)) = Some (mx, k) ->
    In c (concat (map (map Torch.relu) cam)) ->
    0 <= c <= mx.
Proof.
  intros cam mx k c Hmax Hin. split.
  - exact (in_relu_map _ _ Hin).
  - apply max_spec in Hmax. destruct Hmax as [_ Hall].
    rewrite Forall_forall in Hall. now apply Hall.
Qed.



(** X5.  [GradCAMVisualizer.generate_heatmap] on a non-empty map: with no
    hooked gradient it raises; when the rectified weighted sum has a
    positive entry the result is that map divided by its maximum, all
    entries finite and between 0 and 1; when no entry is positive every
    entry of the result is NaN. *)
Theorem generate_heatmap_cases :
  Pipeline.generate_heatmap None = None
  /\ forall gradients activations mx k,
      Torch.max (concat (map (map Torch.relu)
                   (Torch.weighted_sum (map Torch.spatial_mean gradients)
                                       activations)))
      = Some (mx, k) ->
      exists h,
        Pipeline.generate_heatmap (Some (gradients, activations)) = Some h
        /\ (0 < mx ->
            Forall (Forall (fun v => exists q,
                                v = Torch.Fin q /\ 0 <= q <= 1)) h)
        /\ (mx <= 0 -> Forall (Forall (fun v => v = Torch.NaN)) h).
Proof.
  split; [reflexivity|].
  intros gradients activations mx k Hmax.
  unfold Pipeline.generate_heatmap.
  set (cam := map (map Torch.relu) _) in *. rewrite Hmax.
  eexists. split; [reflexivity|]. split.
  - intro Hpos. apply Forall_map2d. intros c Hc.
    destruct (relu_map_max_bounds _ _ Hmax Hc) as [Hc0 Hcm].
    unfold Torch.fdiv.
    destruct (Qeq_bool mx 0) eqn:E;
      [apply Qeq_bool_iff in E; rewrite E in Hpos; discriminate|].
    eexists. split; [reflexivity|]. split.
    + apply Qle_shift_div_l; [exact Hpos|]. now rewrite Qmult_0_l.
    + apply Qle_shift_div_r; [exact Hpos|]. now rewrite Qmult_1_l.
  - intro Hle. apply Forall_map2d. intros c Hc.
    destruct (relu_map_max_bounds _ _ Hmax Hc) as [Hc0 Hcm].
    assert (Hmx : mx == 0).
    { apply Qle_antisym; [exact Hle | apply Qle_trans with c; assumption]. }
    assert (Hcz : c == 0).
    { apply Qle_antisym; [rewrite <- Hmx; exact Hcm | exact Hc0]. }
    unfold Torch.fdiv.
    apply Qeq_bool_iff in Hmx. apply Qeq_bool_iff in Hcz.
    rewrite Hmx, Hcz. reflexivity.
Qed.

Lemma generate_heatmap_cases_witness :
  exists h,
    Pipeline.generate_heatmap (Some ([[[1; 1]; [1; 1]]], [[[1; 2]; [3; 4]]]))
    = Some h
    /\ (0 < 16 # 4 ->
        Forall (Forall (fun v => exists q, v = Torch.Fin q /\ 0 <= q <= 1)) h)
    /\ (16 # 4 <= 0 -> Forall (Forall (fun v => v = Torch.NaN)) h).
Proof.
  apply (proj2 generate_heatmap_cases [[[1; 1]; [1; 1]]] [[[1; 2]; [3; 4]]]
           (16 # 4) 3%nat).
  vm_compute. reflexivity.
Defined.


(** ** The block-transform branch on small and large images *)

Section DctFacts.
Context {NP : Fixed.Numpy}.

Lemma skipn_repeat :
  forall (A : Type) (x : A) k m, skipn k (repeat x m) = repeat x (m - k).
Proof.
  intros A x k. induction k as [|k IH]; intro m.
  - now rewrite Nat.sub_0_r.
  - destruct m as [|m]; [reflexivity|]. simpl. apply IH.
Qed.

Lemma block_stats_length :
  forall block st,
    Fixed.block_stats block = Some st ->
    length st = 4%nat \/ length st = 0%nat.
Proof.
  intros block st H. unfold Fixed.block_stats in H.
  destruct (0 <? length (tl (concat (Fixed.cv2_dct block))))%nat.
  - destruct (Fixed.np_max _); inversion H; subst. now left.
  - inversion H; subst. now right.
Qed.

Lemma dct_row_length :
  forall img i js features f,
    Fixed.dct_row img i js features = Some f ->
    (length features mod 4 = 0)%nat -> (length features < 252)%nat ->
    (length f mod 4 = 0)%nat /\ (length f <= 252)%nat
    /\ (js = [] -> f = features).
Proof.
  intros img i js. induction js as [|j js IH]; intros features f H Hmod Hlt;
    cbn [Fixed.dct_row] in H.
  - inversion H; subst. repeat split; [assumption | lia].
  - destruct (Fixed.block_stats (Fixed.block_at img i j)) as [st|] eqn:Est;
      [|discriminate].
    apply block_stats_length in Est.
    assert (Hlen : (length (features ++ st) mod 4 = 0)%nat
                   /\ (length (features ++ st) <= 252)%nat).
    { rewrite length_app.
      pose proof (Nat.div_mod_eq (length features) 4) as Hdm.
      pose proof (Nat.div_mod_eq (length features + 4) 4) as Hdm4.
      pose proof (Nat.mod_upper_bound (length features + 4) 4) as Hub.
      destruct Est as [E | E]; rewrite E; split; try lia.
      rewrite Nat.add_0_r. exact Hmod. }
    destruct (252 <=? length (features ++ st))%nat eqn:E.
    + inversion H; subst. split; [tauto|]. split; [tauto | discriminate].
    + apply Nat.leb_gt in E.
      destruct (IH _ _ H (proj1 Hlen) E) as (H1 & H2 & _).
      split; [exact H1|]. split; [exact H2 | discriminate].
Qed.

Lemma dct_rows_length :
  forall img w rows features f,
    Fixed.dct_rows img w rows features = Some f ->
    (length features mod 4 = 0)%nat -> (length features < 252)%nat ->
    (length f mod 4 = 0)%nat /\ (length f <= 252)%nat
    /\ ((w < 8)%nat -> f = features).
Proof.
  intros img w rows. induction rows as [|i rows IH];
    intros features f H Hmod Hlt; cbn [Fixed.dct_rows] in H.
  - inversion H; subst. repeat split; [assumption | lia].
  - destruct (Fixed.dct_row img i (Fixed.range8 (w - 7)) features)
      as [f1|] eqn:E1; [|discriminate].
    destruct (dct_row_length _ _ _ _ E1 Hmod Hlt) as (H1 & H2 & H3).
    destruct (252 <=? length f1)%nat eqn:E.
    + inversion H; subst. split; [exact H1|]. split; [exact H2|].
      intro Hw. apply H3. unfold Fixed.range8.
      replace ((w - 7 + 7) / 8)%nat with 0%nat; [reflexivity|].
      symmetry. apply Nat.div_small. lia.
    + apply Nat.leb_gt in E.
      destruct (IH _ _ H H1 E) as (H4 & H5 & H6).
      split; [exact H4|]. split; [exact H5|].
      intro Hw. rewrite (H6 Hw). apply H3. unfold Fixed.range8.
      replace ((w - 7 + 7) / 8)%nat with 0%nat; [reflexivity|].
      symmetry. apply Nat.div_small. lia.
Qed.

End DctFacts.

(** X6.  [_extract_dct_block_features] never fills the last four of its
    256 entries: at most 252 block statistics are collected, so entries
    252 to 255 are zero for every image.  An image with fewer than 8 rows
    or fewer than 8 columns has no complete block and yields 256 zeros. *)
Theorem dct_features_padding :
  forall (NP : Fixed.Numpy) (img : Torch.map2d),
  exists f,
    Fixed._extract_dct_block_features img = Some f
    /\ skipn 252 f = [0; 0; 0; 0]
    /\ ((length img < 8)%nat \/ (length (hd [] img) < 8)%nat ->
        f = repeat 0 256%nat).
Proof.
  intros NP img. unfold Fixed._extract_dct_block_features, Fixed.shape.
  destruct (dct_rows_defined img (length (hd [] img))
              (Fixed.range8 (length img - 7)) []) as (f & Hf).
  rewrite Hf.
  destruct (dct_rows_length _ _ _ _ Hf) as (Hmod & Hle & Hw);
    [reflexivity | cbn; lia |].
  eexists. split; [reflexivity|].
  rewrite pad_or_truncate_short by lia. split.
  - rewrite skipn_app. rewrite skipn_all2 by lia.
    rewrite skipn_repeat. cbn [app].
    replace (256 - length f - (252 - length f))%nat with 4%nat by lia.
    reflexivity.
  - intros [Hh | Hw'].
    + assert (f = []).
      { unfold Fixed.range8 in Hf.
        replace ((length img - 7 + 7) / 8)%nat with 0%nat in Hf
          by (symmetry; apply Nat.div_small; lia).
        cbn in Hf. congruence. }
      subst f. reflexivity.
    + rewrite (Hw Hw'). reflexivity.
Qed.

Lemma dct_features_padding_witness :
  @Fixed._extract_dct_block_features Fixed.exact_numpy [[1; 2]; [3; 4]]
  = Some (repeat 0 256%nat).
Proof.
  destruct (@dct_features_padding Fixed.exact_numpy [[1; 2]; [3; 4]])
    as (f & Hf & _ & Hz).
  rewrite Hf. f_equal. apply Hz. left. cbn. lia.
Defined.

(** ** The spectral branch on small spectra *)

Section SpectrumFacts.
Context {NP : Fixed.Numpy}.

(** The layout of the vector [_extract_frequency_stats] returns. *)
Lemma frequency_stats_layout :
  forall (magnitude_spectrum : Torch.map2d) (h w : nat),
    Fixed.percentile_defined NP ->
    (1 <= h)%nat -> (1 <= w)%nat ->
    length magnitude_spectrum = h ->
    Forall (fun row => length row = w) magnitude_spectrum ->
    exists b1 b2 b3 stats hf,
      Fixed._extract_frequency_stats magnitude_spectrum
      = Some (b1 ++ b2 ++ b3 ++ stats ++ hf ++ repeat 0 232%nat)
      /\ length b1 = 4%nat /\ length b2 = 4%nat /\ length b3 = 4%nat
      /\ length stats = 9%nat /\ length hf = 3%nat
      /\ (Fixed.np_any (Fixed.band_mask (h / 2) (w / 2) 50 100) h w = false ->
          b3 = [0; 0; 0; 0])
      /\ (Fixed.np_any (Fixed.high_freq_mask (h / 2) (w / 2)) h w = false ->
          hf = [0; 0; 0]).
Proof.
  intros spectrum h w Hperc Hh Hw Hlen Hrect.
  destruct spectrum as [|r0 rest]; [simpl in Hlen; lia|].
  assert (Hr0 : length r0 = w) by (inversion Hrect; assumption).
  assert (Hshape : Fixed.shape (r0 :: rest) = (h, w))
    by (unfold Fixed.shape; cbn [hd]; congruence).
  unfold Fixed._extract_frequency_stats. rewrite Hshape.
  cbv beta iota zeta.
  destruct (band_stats_defined (h / 2) (w / 2) 0 20 Hperc Hlen Hrect)
    as (b1 & E1 & L1 & _).
  destruct (band_stats_defined (h / 2) (w / 2) 20 50 Hperc Hlen Hrect)
    as (b2 & E2 & L2 & _).
  destruct (band_stats_defined (h / 2) (w / 2) 50 100 Hperc Hlen Hrect)
    as (b3 & E3 & L3 & Z3).
  rewrite E1, E2, E3.
  assert (Hflat : concat (r0 :: rest) <> []).
  { cbn [concat]. destruct r0; [simpl in Hr0; lia | discriminate]. }
  destruct (np_max_defined Hflat) as (mx & Hmx). rewrite Hmx.
  destruct (Fixed.np_percentile (concat (r0 :: rest)) 95) as [p95|] eqn:E95;
    [|exfalso; exact (Hperc _ _ Hflat E95)].
  destruct (Fixed.np_percentile (concat (r0 :: rest)) 5) as [p5|] eqn:E5;
    [|exfalso; exact (Hperc _ _ Hflat E5)].
  destruct (nth_error (r0 :: rest) (h / 2)) as [h_line|] eqn:Eh.
  2:{ apply nth_error_None in Eh.
      assert (h / 2 < h)%nat by (apply Nat.div_lt; lia).
      exfalso. lia. }
  destruct (@column_defined (r0 :: rest) (w / 2)) as (v_line & Ev).
  { eapply Forall_impl; [|exact Hrect]. cbv beta. intros row Hrow.
    assert (w / 2 < w)%nat by (apply Nat.div_lt; lia). lia. }
  rewrite Ev.
  set (stats :=
         [Fixed.np_mean (concat (r0 :: rest));
          Fixed.np_std (concat (r0 :: rest)); mx; p95; p5]
         ++ [Fixed.np_mean h_line; Fixed.np_std h_line;
             Fixed.np_mean v_line; Fixed.np_std v_line]).
  assert (Hpad : forall hf, length hf = 3%nat ->
            Fixed.pad_or_truncate
              ((((b1 ++ b2 ++ b3) ++
                 [Fixed.np_mean (concat (r0 :: rest));
                  Fixed.np_std (concat (r0 :: rest)); mx; p95; p5]) ++
                [Fixed.np_mean h_line; Fixed.np_std h_line;
                 Fixed.np_mean v_line; Fixed.np_std v_line]) ++ hf)
            = b1 ++ b2 ++ b3 ++ stats ++ hf ++ repeat 0 232%nat).
  { intros hf Hhf. rewrite pad_or_truncate_short
      by (rewrite !length_app, L1, L2, L3, Hhf; cbn [length]; lia).
    replace (256 - _)%nat with 232%nat
      by (rewrite !length_app, L1, L2, L3, Hhf; cbn [length]; lia).
    subst stats. rewrite <- !app_assoc. reflexivity. }
  destruct (Fixed.np_any (Fixed.high_freq_mask (h / 2) (w / 2)) h w) eqn:Ehf.
  - eexists b1, b2, b3, stats, _. split.
    + rewrite Hpad by reflexivity. reflexivity.
    + repeat split; try assumption; try reflexivity. discriminate.
  - exists b1, b2, b3, stats, [0; 0; 0]. split.
    + rewrite Hpad by reflexivity. reflexivity.
    + repeat split; try assumption; try reflexivity.
Qed.

Lemma dist2_bound :
  forall h w y x,
    (y < h)%nat -> (x < w)%nat ->
    (Fixed.dist2 (h / 2) (w / 2) y x
     <= (h / 2) * (h / 2) + (w / 2) * (w / 2))%nat.
Proof.
  intros h w y x Hy Hx. unfold Fixed.dist2.
  pose proof (Nat.div_mod_eq h 2) as Hh.
  pose proof (Nat.mod_upper_bound h 2) as Hh'.
  pose proof (Nat.div_mod_eq w 2) as Hw.
  pose proof (Nat.mod_upper_bound w 2) as Hw'.
  assert (Hdx : (Z.abs_nat (Z.of_nat x - Z.of_nat (w / 2)) <= w / 2)%nat)
    by lia.
  assert (Hdy : (Z.abs_nat (Z.of_nat y - Z.of_nat (h / 2)) <= h / 2)%nat)
    by lia.
  pose proof (Nat.mul_le_mono _ _ _ _ Hdx Hdx).
  pose proof (Nat.mul_le_mono _ _ _ _ Hdy Hdy).
  lia.
Qed.

Lemma np_any_false :
  forall test h w,
    (forall y x, (y < h)%nat -> (x < w)%nat -> test y x = false) ->
    Fixed.np_any test h w = false.
Proof.
  intros test h w H. unfold Fixed.np_any.
  destruct (existsb _ (seq 0 h)) eqn:E; [|reflexivity].
  apply existsb_exists in E. destruct E as (y & Hy & E).
  apply existsb_exists in E. destruct E as (x & Hx & E).
  apply in_seq in Hy. apply in_seq in Hx.
  rewrite H in E by lia. discriminate.
Qed.

End SpectrumFacts.

(** X7.  For a spectrum of [h >= 1] rows and [w >= 1] columns:
    the lowest band (radius below 20) always contains the centre, so it
    is never empty; the high-frequency region (radius above 80) is empty
    exactly when [(h/2)^2 + (w/2)^2 <= 6400], which covers every spectrum
    up to 113 x 113, and then entries 21 to 255 of the feature vector are
    all zero; when [(h/2)^2 + (w/2)^2 < 2500] (up to 71 x 71) the band
    from 50 to 100 is empty as well and entries 8 to 11 are zero. *)
Theorem frequency_stats_small_spectrum :
  forall (NP : Fixed.Numpy) (magnitude_spectrum : Torch.map2d) (h w : nat),
    Fixed.percentile_defined NP ->
    (1 <= h)%nat -> (1 <= w)%nat ->
    length magnitude_spectrum = h ->
    Forall (fun row => length row = w) magnitude_spectrum ->
    Fixed.np_any (Fixed.band_mask (h / 2) (w / 2) 0 20) h w = true
    /\ (Fixed.np_any (Fixed.high_freq_mask (h / 2) (w / 2)) h w = false
        <-> ((h / 2) * (h / 2) + (w / 2) * (w / 2) <= 80 * 80)%nat)
    /\ exists f,
        Fixed._extract_frequency_stats magnitude_spectrum = Some f
        /\ (((h / 2) * (h / 2) + (w / 2) * (w / 2) <= 80 * 80)%nat ->
            skipn 21 f = repeat 0 235%nat)
        /\ (((h / 2) * (h / 2) + (w / 2) * (w / 2) < 50 * 50)%nat ->
            firstn 4 (skipn 8 f) = [0; 0; 0; 0]).
Proof.
  intros NP spectrum h w Hperc Hh Hw Hlen Hrect.
  assert (Hcentre : (h / 2 < h)%nat /\ (w / 2 < w)%nat)
    by (split; apply Nat.div_lt; lia).
  assert (Hhf : ((h / 2) * (h / 2) + (w / 2) * (w / 2) <= 80 * 80)%nat ->
                Fixed.np_any (Fixed.high_freq_mask (h / 2) (w / 2)) h w
                = false).
  { intro Hsmall. apply np_any_false. intros y x Hy Hx.
    unfold Fixed.high_freq_mask. apply Nat.ltb_ge.
    pose proof (dist2_bound Hy Hx).
    lia. }
  split; [|split].
  - unfold Fixed.np_any. apply existsb_exists.
    exists (h / 2)%nat. split; [apply in_seq; lia|].
    apply existsb_exists. exists (w / 2)%nat. split; [apply in_seq; lia|].
    unfold Fixed.band_mask, Fixed.dist2. rewrite !Z.sub_diag. reflexivity.
  - split; [|exact Hhf].
    intro Hfalse.
    destruct (Nat.le_gt_cases ((h / 2) * (h / 2) + (w / 2) * (w / 2)) (80 * 80))
      as [Hle | Hgt]; [exact Hle|].
    exfalso.
    assert (Htrue : Fixed.np_any (Fixed.high_freq_mask (h / 2) (w / 2)) h w
                    = true).
    { unfold Fixed.np_any. apply existsb_exists.
      exists 0%nat. split; [apply in_seq; lia|].
      apply existsb_exists. exists 0%nat. split; [apply in_seq; lia|].
      unfold Fixed.high_freq_mask, Fixed.dist2. apply Nat.ltb_lt.
      replace (Z.abs_nat (Z.of_nat 0 - Z.of_nat (w / 2))) with (w / 2)%nat
        by lia.
      replace (Z.abs_nat (Z.of_nat 0 - Z.of_nat (h / 2))) with (h / 2)%nat
        by lia.
      lia. }
    congruence.
  - destruct (frequency_stats_layout Hperc Hh Hw Hlen Hrect)
      as (b1 & b2 & b3 & stats & hf & E & L1 & L2 & L3 & Ls & Lh & Z3 & Zh).
    exists (b1 ++ b2 ++ b3 ++ stats ++ hf ++ repeat 0 232%nat).
    split; [exact E|]. split.
    + intro Hsmall. rewrite (Zh (Hhf Hsmall)).
      rewrite !skipn_app, L1, L2, L3, Ls.
      rewrite (skipn_all2 b1), (skipn_all2 b2), (skipn_all2 b3),
        (skipn_all2 stats) by lia.
      reflexivity.
    + intro Hsmall.
      rewrite Z3.
      * rewrite !skipn_app, L1, L2.
        rewrite (skipn_all2 b1), (skipn_all2 b2) by lia. reflexivity.
      * apply np_any_false. intros y x Hy Hx.
        unfold Fixed.band_mask. apply andb_false_iff. left.
        apply Nat.leb_gt.
        pose proof (dist2_bound Hy Hx).
        lia.
Qed.

Lemma frequency_stats_small_spectrum_witness :
  Fixed.np_any (Fixed.band_mask (9 / 2) (10 / 2) 0 20) 9 10 = true
  /\ (Fixed.np_any (Fixed.high_freq_mask (9 / 2) (10 / 2)) 9 10 = false
      <-> ((9 / 2) * (9 / 2) + (10 / 2) * (10 / 2) <= 80 * 80)%nat)
  /\ exists f,
      Fixed._extract_frequency_stats (NP := Fixed.exact_numpy)
        (repeat (repeat (1 # 2) 10) 9) = Some f
      /\ (((9 / 2) * (9 / 2) + (10 / 2) * (10 / 2) <= 80 * 80)%nat ->
          skipn 21 f = repeat 0 235%nat)
      /\ (((9 / 2) * (9 / 2) + (10 / 2) * (10 / 2) < 50 * 50)%nat ->
          firstn 4 (skipn 8 f) = [0; 0; 0; 0]).
Proof.
  apply (@frequency_stats_small_spectrum Fixed.exact_numpy
           (repeat (repeat (1 # 2) 10) 9) 9 10
           exact_numpy_percentile_defined).
  - lia.
  - lia.
  - reflexivity.
  - apply Forall_forall. intros row Hrow. apply repeat_spec in Hrow.
    subst row. reflexivity.
Defined.

(** ** The replay buffer over a sequence of insertions *)

Lemma tl_skipn :
  forall (A : Type) k (l : list A), tl (skipn k l) = skipn (S k) l.
Proof.
  intros A k. induction k as [|k IH]; intros [|x l]; try reflexivity.
  cbn [skipn]. apply IH.
Qed.

Lemma map_tl :
  forall (A B : Type) (f : A -> B) (l : list A), map f (tl l) = tl (map f l).
Proof. intros A B f [|x l]; reflexivity. Qed.

(** X8.  After any sequence of [add] calls on a fresh store of capacity
    [cap], the store holds the [min(n, cap)] most recent samples, oldest
    first; the sample inserted as number [j] (from 0) carries the
    timestamp [min(j, cap)]. *)
Theorem adds_keep_most_recent :
  forall (image : Type) (cap : nat) (items : list (image * nat * Q)),
    let rb :=
      fold_left (fun rb it =>
                   Pipeline.add rb (fst (fst it)) (snd (fst it)) (snd it)
                                None None)
                items (Pipeline.ReplayBuffer_init image cap) in
    let n := length items in
    Pipeline.max_size rb = cap
    /\ Pipeline.get_size rb = Nat.min n cap
    /\ map (@Pipeline.s_image image) (Pipeline.buffer rb)
       = map (fun it => fst (fst it)) (skipn (n - cap) items)
    /\ map (@Pipeline.s_confidence image) (Pipeline.buffer rb)
       = map (fun it => snd it) (skipn (n - cap) items)
    /\ map (@Pipeline.timestamp image) (Pipeline.buffer rb)
       = map (fun j => Nat.min j cap) (seq (n - cap) (Nat.min n cap)).
Proof.
  intros image cap items. cbv zeta. unfold Pipeline.get_size.
  induction items as [|x l IH] using rev_ind.
  - cbn. repeat split; reflexivity.
  - rewrite fold_left_app. cbn [fold_left].
    set (rb := fold_left _ l _) in *.
    destruct IH as (Hcap & Hlen & Himg & Hconf & Hts).
    rewrite length_app. cbn [length].
    set (n := length l) in *.
    unfold Pipeline.add, Pipeline.deque_append.
    cbn [Pipeline.buffer Pipeline.max_size]. rewrite Hcap.
    split; [reflexivity|].
    destruct (cap =? 0)%nat eqn:E0.
    { apply Nat.eqb_eq in E0. rewrite !E0. cbn [length map].
      rewrite Nat.min_0_r, Nat.sub_0_r.
      rewrite skipn_all2 by (rewrite length_app; cbn; lia).
      repeat split; reflexivity. }
    apply Nat.eqb_neq in E0.
    destruct (length (Pipeline.buffer rb) <? cap)%nat eqn:E1.
    + apply Nat.ltb_lt in E1.
      assert (Hn : (n < cap)%nat) by lia.
      replace (n - cap)%nat with 0%nat in * by lia.
      replace (n + 1 - cap)%nat with 0%nat by lia.
      rewrite length_app, !map_app, Himg, Hconf, Hts, Hlen. cbn [length map].
      replace (Nat.min n cap) with n by lia.
      replace (Nat.min (n + 1) cap) with (S n) by lia.
      rewrite seq_S, map_app. cbn [skipn map Nat.add].
      rewrite !map_app. cbn [map].
      replace (Nat.min n cap) with n by lia.
      repeat split; try reflexivity. lia.
    + apply Nat.ltb_ge in E1.
      assert (Hn : (cap <= n)%nat) by lia.
      assert (Hfull : length (Pipeline.buffer rb) = cap) by lia.
      rewrite length_app, length_tl, !map_app, !map_tl, Himg, Hconf, Hts.
      rewrite Hfull. cbn [length map].
      replace (Nat.min n cap) with cap by lia.
      replace (Nat.min (n + 1) cap) with cap by lia.
      cbn [Pipeline.s_image Pipeline.s_confidence Pipeline.timestamp].
      rewrite <- !map_tl, !tl_skipn.
      replace (n + 1 - cap)%nat with (S (n - cap)) by lia.
      rewrite !skipn_app.
      replace (S (n - cap) - length l)%nat with 0%nat by (fold n; lia).
      cbn [skipn]. rewrite !map_app. cbn [map].
      split; [lia|]. split; [reflexivity|]. split; [reflexivity|].
      destruct cap as [|c]; [congruence|].
      change (seq (n - S c) (S c)) with ((n - S c)%nat :: seq (S (n - S c)) c).
      cbn [tl]. rewrite (seq_S c (S (n - S c))), map_app. cbn [map].
      replace (S (n - S c) + c)%nat with n by lia.
      replace (Nat.min n (S c)) with (S c) by lia.
      reflexivity.
Qed.

(** ** Feedback on the most recent sample *)

Section FeedbackFacts.
Context {BE : Pipeline.Backend} {RND : Pipeline.Random}.

Lemma update_last_snoc :
  forall (d : list (Pipeline.sample Pipeline.image)) s f,
    Pipeline.update_last (d ++ [s]) f = d ++ [f s].
Proof.
  induction d as [|x d IH]; intros s f; [reflexivity|].
  cbn [app Pipeline.update_last]. rewrite IH.
  destruct (d ++ [s]) eqn:E; [|reflexivity].
  destruct d; discriminate.
Qed.


Lemma add_feedback_nonempty :
  forall (p : Pipeline.EnhancedAIDetectorPipeline)
         (img : Pipeline.raw_image) (gt : Z) (uf : option Z) init last,
    Pipeline.buffer (Pipeline.replay_buffer p) = init ++ [last] ->
    exists last',
      Pipeline.buffer
        (Pipeline.replay_buffer (Pipeline.add_feedback p img gt uf))
      = init ++ [last']
      /\ Pipeline.ground_truth last' = Some gt
      /\ Pipeline.user_feedback last'
         = match uf with
           | Some u => Some u
           | None => Pipeline.user_feedback last
           end
      /\ Pipeline.s_image last' = Pipeline.s_image last
      /\ Pipeline.s_prediction last' = Pipeline.s_prediction last
      /\ Pipeline.s_confidence last' = Pipeline.s_confidence last
      /\ Pipeline.timestamp last' = Pipeline.timestamp last
      /\ Pipeline.max_size
           (Pipeline.replay_buffer (Pipeline.add_feedback p img gt uf))
         = Pipeline.max_size (Pipeline.replay_buffer p)
      /\ Pipeline.model (Pipeline.add_feedback p img gt uf)
         = Pipeline.model p
      /\ Pipeline.ewc (Pipeline.add_feedback p img gt uf)
         = Pipeline.ewc p.
Proof.
  intros p img gt uf init last Hbuf.
  unfold Pipeline.add_feedback, Pipeline.get_size.
  rewrite Hbuf, length_app. cbn [length].
  replace (0 <? length init + 1)%nat with true
    by (symmetry; apply Nat.ltb_lt; lia).
  cbn. rewrite update_last_snoc.
  eexists. split; [reflexivity|]. cbn. repeat split; reflexivity.
Qed.

End FeedbackFacts.

(** X9.  [add_feedback] touches the most recent sample only.  On an empty
    store it does nothing at all.  Otherwise the last sample gets the
    ground truth, and the user feedback when one is given (an absent one
    leaves the stored value), every other sample and every other field of
    that sample stay as they were, and model, EWC guard and capacity are
    untouched.  The image argument is not looked at. *)
Theorem add_feedback_marks_last_sample :
  forall (BE : Pipeline.Backend) (RND : Pipeline.Random)
         (p : Pipeline.EnhancedAIDetectorPipeline)
         (img : Pipeline.raw_image) (gt : Z) (uf : option Z),
    (Pipeline.buffer (Pipeline.replay_buffer p) = [] ->
     Pipeline.add_feedback p img gt uf = p)
    /\ (forall init last,
           Pipeline.buffer (Pipeline.replay_buffer p) = init ++ [last] ->
           exists last',
             Pipeline.buffer
               (Pipeline.replay_buffer (Pipeline.add_feedback p img gt uf))
             = init ++ [last']
             /\ Pipeline.ground_truth last' = Some gt
             /\ Pipeline.user_feedback last'
                = match uf with
                  | Some u => Some u
                  | None => Pipeline.user_feedback last
                  end
             /\ Pipeline.s_image last' = Pipeline.s_image last
             /\ Pipeline.s_prediction last' = Pipeline.s_prediction last
             /\ Pipeline.s_confidence last' = Pipeline.s_confidence last
             /\ Pipeline.timestamp last' = Pipeline.timestamp last
             /\ Pipeline.max_size
                  (Pipeline.replay_buffer (Pipeline.add_feedback p img gt uf))
                = Pipeline.max_size (Pipeline.replay_buffer p)
             /\ Pipeline.model (Pipeline.add_feedback p img gt uf)
                = Pipeline.model p
             /\ Pipeline.ewc (Pipeline.add_feedback p img gt uf)
                = Pipeline.ewc p)
    /\ (forall img',
           Pipeline.add_feedback p img' gt uf
           = Pipeline.add_feedback p img gt uf).
Proof.
  intros BE RND p img gt uf. split; [|split].
  - intro Hempty. unfold Pipeline.add_feedback, Pipeline.get_size.
    rewrite Hempty. reflexivity.
  - intros init last Hbuf. now apply add_feedback_nonempty.
  - intro img'. reflexivity.
Qed.

Lemma add_feedback_marks_last_sample_witness :
  exists last',
    Pipeline.buffer
      (Pipeline.replay_buffer
         (Pipeline.add_feedback
            (Pipeline.scalar_pipeline (3 # 2) 10
               [Pipeline.test_sample 0 false; Pipeline.test_sample 1 false])
            (1 # 2) 1%Z None))
    = [Pipeline.test_sample 0 false] ++ [last']
    /\ Pipeline.ground_truth last' = Some 1%Z
    /\ Pipeline.user_feedback last' = None.
Proof.
  destruct (proj1 (proj2 (@add_feedback_marks_last_sample
              Pipeline.scalar_backend Pipeline.first_indices
              (Pipeline.scalar_pipeline (3 # 2) 10
                 [Pipeline.test_sample 0 false; Pipeline.test_sample 1 false])
              (1 # 2) 1%Z None))
              [Pipeline.test_sample 0 false] (Pipeline.test_sample 1 false))
    as (last' & H1 & H2 & H3 & _).
  - reflexivity.
  - exists last'. split; [exact H1|]. split; [exact H2 | exact H3].
Defined.



(** ** The EWC penalty and the Fisher computation *)

Section FisherFacts.

Lemma zip_with_spec :
  forall (f : Q -> Q -> Q) (a b : Torch.tensor) r,
    Pipeline.zip_with f a b = Some r ->
    length a = length b
    /\ r = map (fun xy => f (fst xy) (snd xy)) (combine a b).
Proof.
  intros f a. induction a as [|x a IH]; intros [|y b] r H; simpl in H;
    try discriminate.
  - inversion H. split; reflexivity.
  - destruct (Pipeline.zip_with f a b) as [r'|] eqn:E; [|discriminate].
    inversion H; subst. destruct (IH _ _ E) as [Hl Hr].
    split; [simpl; now rewrite Hl | simpl; now rewrite Hr].
Qed.

Lemma zip_with_defined :
  forall (f : Q -> Q -> Q) (a b : Torch.tensor),
    length a = length b ->
    Pipeline.zip_with f a b
    = Some (map (fun xy => f (fst xy) (snd xy)) (combine a b)).
Proof.
  intros f a. induction a as [|x a IH]; intros [|y b] H; simpl in *;
    try discriminate; [reflexivity|].
  rewrite IH by lia. reflexivity.
Qed.

Lemma sum_list_nonneg :
  forall l, Forall (fun x => 0 <= x) l -> 0 <= Torch.sum_list l.
Proof.
  induction 1 as [|x r Hx _ IH]; simpl; [apply Qle_refl|].
  rewrite <- (Qplus_0_l 0). apply Qplus_le_compat; assumption.
Qed.

Lemma penalty_term_nonneg :
  forall (e : Pipeline.ElasticWeightConsolidation) np t,
    (forall n f, Pipeline.dict_get (Pipeline.fisher e) n = Some f ->
                 Forall (fun x => 0 <= x) f) ->
    Pipeline.penalty_term e np = Some t -> 0 <= t.
Proof.
  intros e [n p] t Hf H. unfold Pipeline.penalty_term in H.
  destruct (Pipeline.requires_grad p
            && Pipeline.dict_mem (Pipeline.fisher e) n)%bool;
    [|inversion H; apply Qle_refl].
  destruct (Pipeline.dict_get (Pipeline.fisher e) n) as [f|] eqn:Ef;
    [|discriminate].
  destruct (Pipeline.dict_get (Pipeline.ewc_params e) n) as [s|];
    [|discriminate].
  destruct (Pipeline.zip_with Qminus (Pipeline.data p) s) as [drift|];
    [|discriminate].
  destruct (Pipeline.zip_with Qmult f _) as [weighted|] eqn:Ew;
    [|discriminate].
  inversion H; subst. apply sum_list_nonneg.
  apply zip_with_spec in Ew. destruct Ew as [_ ->].
  apply Forall_forall. intros x Hx. apply in_map_iff in Hx.
  destruct Hx as ([a b] & <- & Hin). cbn.
  pose proof (in_combine_l _ _ _ _ Hin) as Ha.
  pose proof (in_combine_r _ _ _ _ Hin) as Hb.
  specialize (Hf n f Ef). rewrite Forall_forall in Hf.
  apply in_map_iff in Hb. destruct Hb as (d & <- & _).
  apply Qmult_le_0_compat; [now apply Hf|].
  destruct (Qlt_le_dec d 0) as [Hd | Hd].
  - setoid_replace (d * d) with ((- d) * (- d)) by ring.
    apply Qmult_le_0_compat; lra.
  - apply Qmult_le_0_compat; assumption.
Qed.

Lemma penalty_fold_nonneg :
  forall (e : Pipeline.ElasticWeightConsolidation) l a v,
    (forall n f, Pipeline.dict_get (Pipeline.fisher e) n = Some f ->
                 Forall (fun x => 0 <= x) f) ->
    0 <= a ->
    fold_left (fun acc np =>
                 match acc, Pipeline.penalty_term e np with
                 | Some l, Some t => Some (l + t)
                 | _, _ => None
                 end) l (Some a) = Some v ->
    0 <= v.
Proof.
  intros e l. induction l as [|np r IH]; intros a v Hf Ha H; simpl in H.
  - inversion H; subst. exact Ha.
  - destruct (Pipeline.penalty_term e np) as [t|] eqn:Et.
    + apply (IH (a + t) v Hf); [|exact H].
      pose proof (penalty_term_nonneg e np Hf Et). lra.
    + exfalso. clear - H. induction r as [|x r IHr]; simpl in H;
        [discriminate | auto].
Qed.

End FisherFacts.

(** X11.  The EWC penalty is never negative: with a non-negative
    [lambda_ewc] and a Fisher dict without negative entries, whatever the
    current parameters and the snapshot are, the value [penalty()]
    returns is at least zero. *)
Theorem penalty_nonnegative :
  forall (e : Pipeline.ElasticWeightConsolidation)
         (m : Pipeline.EnhancedAIDetector) (v : Q),
    0 <= Pipeline.lambda_ewc e ->
    (forall n f, Pipeline.dict_get (Pipeline.fisher e) n = Some f ->
                 Forall (fun x => 0 <= x) f) ->
    Pipeline.penalty e m = Some v ->
    0 <= v.
Proof.
  intros e m v Hlam Hf H. unfold Pipeline.penalty in H.
  destruct (fold_left _ (Pipeline.named_parameters m) (Some 0))
    as [l|] eqn:El; [|discriminate].
  cbn in H. inversion H; subst.
  apply Qmult_le_0_compat; [exact Hlam|].
  exact (penalty_fold_nonneg e _ Hf (Qle_refl 0) El).
Qed.

Lemma penalty_nonnegative_witness :
  0 <= 3000 # 1000.
Proof.
  apply (@penalty_nonnegative
           {| Pipeline.lambda_ewc := 1000;
              Pipeline.ewc_params := [("classifier.weight"%string, [1])];
              Pipeline.fisher := [("classifier.weight"%string, [3 # 1000])] |}
           {| Pipeline.weights :=
                [("classifier.weight"%string,
                  {| Pipeline.data := [2]; Pipeline.requires_grad := true |})];
              Pipeline.temperature := 3 # 2;
              Pipeline.training := false |}
           (3000 # 1000)).
  - discriminate.
  - intros n f H. cbn in H.
    destruct (String.eqb n "classifier.weight"); inversion H.
    repeat constructor. discriminate.
  - vm_compute. reflexivity.
Defined.

Section ComputeFisherFacts.
Context {BE : Pipeline.Backend}.

Lemma dict_set_existing :
  forall (d : Pipeline.dict) k old v,
    Pipeline.dict_get d k = Some old ->
    length v = length old ->
    Forall (fun x => 0 <= x) v ->
    Forall (fun kv => Forall (fun x => 0 <= x) (snd kv)) d ->
    map (fun kv => (fst kv, length (snd kv))) (Pipeline.dict_set d k v)
    = map (fun kv => (fst kv, length (snd kv))) d
    /\ Forall (fun kv => Forall (fun x => 0 <= x) (snd kv))
              (Pipeline.dict_set d k v).
Proof.
  induction d as [|[k' v'] r IH]; intros k old v Hget Hlen Hv Hd;
    simpl in *; [discriminate|].
  inversion Hd as [|? ? Hv' Hr]; subst.
  destruct (String.eqb k k') eqn:E.
  - apply String.eqb_eq in E. subst. inversion Hget; subst. cbn.
    split; [now rewrite Hlen | constructor; assumption].
  - destruct (IH _ _ _ Hget Hlen Hv Hr) as [H1 H2]. cbn.
    split; [now rewrite H1 | constructor; assumption].
Qed.

Lemma dict_get_nonneg :
  forall (d : Pipeline.dict) k f,
    Forall (fun kv => Forall (fun x => 0 <= x) (snd kv)) d ->
    Pipeline.dict_get d k = Some f ->
    Forall (fun x => 0 <= x) f.
Proof.
  induction d as [|[k' v'] r IH]; intros k f Hd H; simpl in H;
    [discriminate|].
  inversion Hd; subst.
  destruct (String.eqb k k'); [inversion H; subst; assumption | eauto].
Qed.

Lemma accumulate_fisher_keeps :
  forall (m : Pipeline.EnhancedAIDetector) grads fi fi',
    Pipeline.accumulate_fisher m grads fi = Some fi' ->
    Forall (fun kv => Forall (fun x => 0 <= x) (snd kv)) fi ->
    map (fun kv => (fst kv, length (snd kv))) fi'
    = map (fun kv => (fst kv, length (snd kv))) fi
    /\ Forall (fun kv => Forall (fun x => 0 <= x) (snd kv)) fi'.
Proof.
  intros m grads. unfold Pipeline.accumulate_fisher.
  induction (Pipeline.named_parameters m) as [|np l IH]; intros fi fi' H Hd;
    simpl in H.
  - inversion H; subst. split; [reflexivity | assumption].
  - destruct (Pipeline.requires_grad (snd np)); [|eauto].
    destruct (grads (fst np)) as [g|]; [|eauto].
    destruct (Pipeline.dict_get fi (fst np)) as [old|] eqn:Eold.
    + destruct (Pipeline.zip_with Qplus old _) as [new|] eqn:Enew.
      * apply zip_with_spec in Enew. destruct Enew as [Hlen Hnew].
        assert (Hnn : Forall (fun x => 0 <= x) new).
        { subst new. apply Forall_forall. intros x Hx.
          apply in_map_iff in Hx. destruct Hx as ([a b] & <- & Hin). cbn.
          pose proof (in_combine_l _ _ _ _ Hin) as Ha.
          pose proof (in_combine_r _ _ _ _ Hin) as Hb.
          pose proof (@dict_get_nonneg _ _ _ Hd Eold) as Hold.
          rewrite Forall_forall in Hold. specialize (Hold a Ha).
          apply in_map_iff in Hb. destruct Hb as (d & <- & _).
          assert (0 <= d * d).
          { destruct (Qlt_le_dec d 0).
            - setoid_replace (d * d) with ((- d) * (- d)) by ring.
              apply Qmult_le_0_compat; lra.
            - apply Qmult_le_0_compat; assumption. }
          lra. }
        assert (Hl : length new = length old).
        { subst new. rewrite length_map, length_combine, length_map.
          rewrite length_map in Hlen. lia. }
        destruct (@dict_set_existing _ _ _ _ Eold Hl Hnn Hd) as [H1 H2].
        destruct (IH _ _ H H2) as [H3 H4].
        split; [congruence | assumption].
      * exfalso. clear - H. induction l as [|x l IHl]; simpl in H;
          [discriminate | auto].
    + exfalso. clear - H. induction l as [|x l IHl]; simpl in H;
        [discriminate | auto].
Qed.

Lemma compute_fisher_keeps :
  forall (e : Pipeline.ElasticWeightConsolidation)
         (m : Pipeline.EnhancedAIDetector) dataloader e' m',
    NoDup (map fst (Pipeline.named_parameters m)) ->
    dataloader <> [] ->
    Pipeline.compute_fisher e m dataloader = Some (e', m') ->
    m' = Pipeline.set_training m false
    /\ Pipeline.lambda_ewc e' = Pipeline.lambda_ewc e
    /\ Pipeline.ewc_params e' = Pipeline.ewc_params e
    /\ map (fun kv => (fst kv, length (snd kv))) (Pipeline.fisher e')
       = map (fun np => (fst np, length (Pipeline.data (snd np))))
             (Pipeline.trainable m)
    /\ Forall (fun kv => Forall (fun x => 0 <= x) (snd kv))
              (Pipeline.fisher e').
Proof.
  intros e m loader e' m' Hnd Hne H. unfold Pipeline.compute_fisher in H.
  set (zeros := Pipeline.dict_of _) in H.
  assert (Hkeys : NoDup (map fst (Pipeline.trainable m)))
    by (apply NoDup_fst_filter; exact Hnd).
  assert (Hz : zeros
               = map (fun np => (fst np,
                                 map (fun _ => 0) (Pipeline.data (snd np))))
                     (Pipeline.trainable m)).
  { subst zeros. unfold Pipeline.dict_of.
    rewrite dict_of_distinct_keys by (cbn; rewrite map_map; exact Hkeys).
    reflexivity. }
  assert (Hinv : forall l fi fi',
             fold_left (fun acc batch =>
                          match acc with
                          | Some fi =>
                              Pipeline.accumulate_fisher
                                (Pipeline.set_training m false)
                                (Pipeline.cross_entropy_grads
                                   (Pipeline.set_training m false)
                                   (fst batch) (snd batch)) fi
                          | None => None
                          end) l (Some fi) = Some fi' ->
             Forall (fun kv => Forall (fun x => 0 <= x) (snd kv)) fi ->
             map (fun kv => (fst kv, length (snd kv))) fi'
             = map (fun kv => (fst kv, length (snd kv))) fi
             /\ Forall (fun kv => Forall (fun x => 0 <= x) (snd kv)) fi').
  { induction l as [|b l IH]; intros fi fi' Hfold Hd; simpl in Hfold.
    - inversion Hfold; subst. split; [reflexivity | assumption].
    - destruct (Pipeline.accumulate_fisher _ _ fi) as [fi1|] eqn:E1.
      + destruct (@accumulate_fisher_keeps _ _ _ _ E1 Hd) as [H1 H2].
        destruct (IH _ _ Hfold H2) as [H3 H4].
        split; [congruence | assumption].
      + exfalso. clear - Hfold. induction l as [|x l IHl]; simpl in Hfold;
          [discriminate | auto]. }
  destruct (fold_left _ loader (Some zeros)) as [fi|] eqn:Efold;
    [|discriminate].
  inversion H; subst; clear H. cbn.
  assert (Hzn : Forall (fun kv => Forall (fun x => 0 <= x) (snd kv)) zeros).
  { rewrite Hz. apply Forall_forall. intros kv Hkv.
    apply in_map_iff in Hkv. destruct Hkv as (np & <- & _). cbn.
    apply Forall_forall. intros x Hx. apply in_map_iff in Hx.
    destruct Hx as (y & <- & _). apply Qle_refl. }
  destruct (Hinv _ _ _ Efold Hzn) as [Hs Hn].
  repeat split.
  - rewrite map_map. cbn.
    transitivity (map (fun kv => (fst kv, length (snd kv))) fi).
    + apply map_ext. intros [k v]. cbn. now rewrite length_map.
    + rewrite Hs, Hz, map_map. cbn. apply map_ext. intros [k v]. cbn.
      now rewrite length_map.
  - apply Forall_forall. intros kv Hkv. apply in_map_iff in Hkv.
    destruct Hkv as ([k v] & <- & Hin). cbn.
    rewrite Forall_forall in Hn. specialize (Hn _ Hin). cbn in Hn.
    apply Forall_forall. intros x Hx. apply in_map_iff in Hx.
    destruct Hx as (y & <- & Hy). rewrite Forall_forall in Hn.
    assert (Hpos : 0 < inject_Z (Z.of_nat (length loader))).
    { destruct loader; [congruence|].
      replace 0 with (inject_Z 0) by reflexivity.
      rewrite <- Zlt_Qlt. cbn [length]. lia. }
    apply Qle_shift_div_l; [exact Hpos|]. rewrite Qmult_0_l. now apply Hn.
Qed.

Lemma sizes_lookup :
  forall (d : Pipeline.dict) (l : list (string * Pipeline.nn_param)) n p,
    map (fun kv => (fst kv, length (snd kv))) d
    = map (fun np => (fst np, length (Pipeline.data (snd np)))) l ->
    NoDup (map fst l) ->
    In (n, p) l ->
    exists f, Pipeline.dict_get d n = Some f
              /\ length f = length (Pipeline.data p).
Proof.
  intros d l n p Hs Hnd Hin.
  assert (Hk : map fst d = map fst l).
  { apply (f_equal (map fst)) in Hs. rewrite !map_map in Hs. exact Hs. }
  assert (Hin' : In (n, length (Pipeline.data p))
                    (map (fun kv => (fst kv, length (snd kv))) d)).
  { rewrite Hs. apply in_map_iff. now exists (n, p). }
  apply in_map_iff in Hin'. destruct Hin' as ([k f] & Heq & Hf).
  cbn in Heq. inversion Heq; subst.
  exists f. split; [|reflexivity].
  apply dict_get_in; [rewrite Hk; exact Hnd | exact Hf].
Qed.

End ComputeFisherFacts.

(** X12.  The guard as the first retraining call builds it:
    [ElasticWeightConsolidation(model)] followed by [compute_fisher] on a
    non-empty loader.  When [compute_fisher] returns, the model has only
    been switched to eval mode, the snapshot and [lambda_ewc] are those of
    the construction, the Fisher dict has one tensor per trainable
    parameter, of the parameter's size and without negative entries, and
    the penalty of the still unchanged parameters is zero. *)
Theorem compute_fisher_after_construction :
  forall (BE : Pipeline.Backend)
         (m : Pipeline.EnhancedAIDetector) (lambda_ewc : Q)
         (dataloader : list (list Pipeline.image * list Z)) e' m',
    NoDup (map fst (Pipeline.named_parameters m)) ->
    dataloader <> [] ->
    Pipeline.compute_fisher
      (Pipeline.ElasticWeightConsolidation_init m lambda_ewc) m dataloader
    = Some (e', m') ->
    m' = Pipeline.set_training m false
    /\ Pipeline.lambda_ewc e' = lambda_ewc
    /\ Pipeline.ewc_params e'
       = Pipeline.ewc_params
           (Pipeline.ElasticWeightConsolidation_init m lambda_ewc)
    /\ (forall n p,
           In (n, p) (Pipeline.trainable m) ->
           exists f,
             Pipeline.dict_get (Pipeline.fisher e') n = Some f
             /\ length f = length (Pipeline.data p)
             /\ Forall (fun x => 0 <= x) f)
    /\ exists v, Pipeline.penalty e' m' = Some v /\ v == 0.
Proof.
  intros BE m lam loader e' m' Hnd Hne H.
  destruct (@compute_fisher_keeps _ _ _ _ _ _ Hnd Hne H)
    as (Hm & Hl & Hp & Hs & Hn).
  assert (Hkeys : NoDup (map fst (Pipeline.trainable m)))
    by (apply NoDup_fst_filter; exact Hnd).
  assert (Hlook : forall n p,
             In (n, p) (Pipeline.trainable m) ->
             exists f,
               Pipeline.dict_get (Pipeline.fisher e') n = Some f
               /\ length f = length (Pipeline.data p)
               /\ Forall (fun x => 0 <= x) f).
  { intros n p Hin.
    destruct (@sizes_lookup _ _ _ _ Hs Hkeys Hin) as (f & Hf & Hlen).
    exists f. split; [exact Hf|]. split; [exact Hlen|].
    exact (@dict_get_nonneg _ _ _ Hn Hf). }
  split; [exact Hm|]. split; [exact Hl|]. split; [exact Hp|].
  split; [exact Hlook|].
  subst m'. unfold Pipeline.penalty.
  change (Pipeline.named_parameters (Pipeline.set_training m false))
    with (Pipeline.named_parameters m).
  destruct (penalty_fold_zero e' (Pipeline.named_parameters m)) with (a := 0)
    as (v & Hv & Hv0).
  - intros [n p] Hin. unfold Pipeline.penalty_term.
    destruct (Pipeline.requires_grad p) eqn:Hrg; cbn [andb];
      [|exists 0; split; reflexivity].
    assert (Htr : In (n, p) (Pipeline.trainable m))
      by (apply filter_In; split; [exact Hin | exact Hrg]).
    destruct (Hlook n p Htr) as (f & Hf & Hlen & _).
    destruct (ewc_init_lookup m lam n p Hnd Hin Hrg) as [Hsnap _].
    unfold Pipeline.dict_mem. rewrite Hf, Hp, Hsnap.
    rewrite zip_with_self.
    rewrite zip_with_defined by (rewrite !length_map; exact Hlen).
    eexists. split; [reflexivity|].
    apply sum_list_zero. apply Forall_forall. intros x Hx.
    apply in_map_iff in Hx. destruct Hx as ([a b] & <- & Hab). cbn.
    apply in_combine_r in Hab. apply in_map_iff in Hab.
    destruct Hab as (d & <- & Hd). apply in_map_iff in Hd.
    destruct Hd as (y & <- & _). ring.
  - rewrite Hv. cbn. eexists. split; [reflexivity|]. rewrite Hv0. ring.
Qed.

Lemma compute_fisher_after_construction_witness :
  let m := Pipeline.model (Pipeline.scalar_pipeline (3 # 2) 10 []) in
  exists e' m',
    @Pipeline.compute_fisher Pipeline.gradient_backend
       (Pipeline.ElasticWeightConsolidation_init m 1000) m
       [([2; 1], [1%Z; 0%Z])] = Some (e', m')
    /\ Pipeline.dict_get (Pipeline.fisher e') "classifier.weight"%string
       = Some [9 # 1]
    /\ Pipeline.lambda_ewc e' = 1000
    /\ exists v, Pipeline.penalty e' m' = Some v /\ v == 0.
Proof.
  intro m.
  destruct (@Pipeline.compute_fisher Pipeline.gradient_backend
              (Pipeline.ElasticWeightConsolidation_init m 1000) m
              [([2; 1], [1%Z; 0%Z])]) as [[e' m']|] eqn:E;
    [|vm_compute in E; discriminate].
  assert (Hnd : NoDup (map fst (Pipeline.named_parameters m))).
  { cbn. repeat (constructor; [cbn; intuition discriminate|]). constructor. }
  assert (Hne : [([2; 1], [1%Z; 0%Z])]
                <> ([] : list (list (@Pipeline.image Pipeline.gradient_backend)
                               * list Z)))
    by discriminate.
  destruct (@compute_fisher_after_construction Pipeline.gradient_backend
              m 1000 _ e' m' Hnd Hne E) as (_ & Hl & _ & _ & Hv).
  exists e', m'. split; [reflexivity|]. split; [|split; [exact Hl | exact Hv]].
  vm_compute in E. inversion E. reflexivity.
Defined.

(** ** Retraining: what [incremental_train] leaves alone *)

(** Under numpy's law for [choice], [ReplayBuffer.sample] returns. *)
Lemma sample_defined :
  forall (RND : Pipeline.Random) (image : Type)
         (rb : Pipeline.ReplayBuffer image) batch_size g,
    Pipeline.without_replacement RND ->
    exists samples, fst (Pipeline.sample_ rb batch_size g) = Some samples.
Proof.
  intros RND image rb b g Hlaw.
  assert (Hpos : exists ps,
             fst (Pipeline.sample_positions rb b g) = Some ps).
  { unfold Pipeline.sample_positions.
    destruct (Nat.ltb (length (Pipeline.buffer rb)) b);
      [eexists; reflexivity|].
    set (fb := Pipeline.positions (@Pipeline.has_feedback image)
                                  (Pipeline.buffer rb)).
    set (nofb := Pipeline.positions
                   (fun s => negb (Pipeline.has_feedback s))
                   (Pipeline.buffer rb)).
    set (fc := Nat.min (Pipeline.int_times_07 b) (length fb)).
    assert (Hsecond : forall sel g1,
               exists ps,
                 fst (if ((0 <? b - fc)%nat
                          && negb (length nofb =? 0)%nat)%bool
                      then
                        let '(idx, g') :=
                          Pipeline.np_random_choice g1 (length nofb)
                            (Nat.min (b - fc) (length nofb)) in
                        (match idx with
                         | Some no_feedback_indices =>
                             match Pipeline.pick nofb no_feedback_indices with
                             | Some more => Some (sel ++ more)
                             | None => None
                             end
                         | None => None
                         end, g')
                      else (Some sel, g1)) = Some ps).
    { intros sel g1.
      destruct ((0 <? b - fc)%nat && negb (length nofb =? 0)%nat)%bool;
        [|eexists; reflexivity].
      destruct (@choice_then_pick RND nofb
                  (Nat.min (b - fc) (length nofb)) g1 Hlaw
                  (positions_NoDup _ _) (Nat.le_min_r _ _))
        as (idx & ps & Hidx & Hps & _).
      destruct (Pipeline.np_random_choice g1 (length nofb) _) as [i g'].
      cbn in Hidx. subst i. rewrite Hps. eexists. reflexivity. }
    destruct (Nat.ltb 0 fc).
    - destruct (@choice_then_pick RND fb fc g Hlaw
                  (positions_NoDup _ _) (Nat.le_min_r _ _))
        as (idx & ps & Hidx & Hps & _).
      destruct (Pipeline.np_random_choice g (length fb) fc) as [i g1].
      cbn in Hidx. subst i. rewrite Hps. apply Hsecond.
    - apply Hsecond. }
  destruct Hpos as (ps & Hps). unfold Pipeline.sample_.
  destruct (Pipeline.sample_positions rb b g) as [o g'].
  cbn in Hps. subst o. eexists. reflexivity.
Qed.

Section TrainFacts.
Context {BE : Pipeline.Backend} {RND : Pipeline.Random}.

(** The mini-batch loop changes the model, the optimizer and the two
    generators only, whether it completes or raises. *)
Lemma train_batches_keeps :
  forall n batch_size (p : Pipeline.EnhancedAIDetectorPipeline) l k,
    Pipeline.replay_buffer (snd (Pipeline.train_batches n batch_size p l k))
    = Pipeline.replay_buffer p
    /\ Pipeline.confidence_threshold
         (snd (Pipeline.train_batches n batch_size p l k))
       = Pipeline.confidence_threshold p
    /\ Pipeline.ewc (snd (Pipeline.train_batches n batch_size p l k))
       = Pipeline.ewc p
    /\ Pipeline.scheduler (snd (Pipeline.train_batches n batch_size p l k))
       = Pipeline.scheduler p
    /\ Pipeline.log (snd (Pipeline.train_batches n batch_size p l k))
       = Pipeline.log p.
Proof.
  induction n as [|n IH]; intros b p l k; simpl.
  - repeat split.
  - destruct (Pipeline.sample_ _ _ _) as [[samples|] g];
      [|cbn; repeat split].
    destruct (Nat.ltb _ 2).
    + match goal with
      | |- context [Pipeline.train_batches n ?b' ?q ?l' ?k'] =>
          destruct (IH b' q l' k') as (H1 & H2 & H3 & H4 & H5);
            cbn in H1, H2, H3, H4, H5; repeat split; assumption
      end.
    + destruct (match Pipeline.ewc _ with Some _ => _ | None => _ end)
        as [pen|].
      * destruct (Pipeline.train_step _ _ _ _ _ _) as [[[fl m] o] tg].
        match goal with
        | |- context [Pipeline.train_batches n ?b' ?q ?l' ?k'] =>
            destruct (IH b' q l' k') as (H1 & H2 & H3 & H4 & H5);
              cbn in H1, H2, H3, H4, H5; repeat split; assumption
        end.
      * destruct (Pipeline.forward _ _ _) as [[[lg cl] m] tg]. cbn.
        repeat split.
Qed.

(** The loop over epochs adds log lines and nothing else to what the
    mini-batch loop changes. *)
Lemma train_epochs_keeps :
  forall remaining epoch num_epochs batch_size
         (p : Pipeline.EnhancedAIDetectorPipeline),
    Pipeline.replay_buffer
      (snd (Pipeline.train_epochs remaining epoch num_epochs batch_size p))
    = Pipeline.replay_buffer p
    /\ Pipeline.confidence_threshold
         (snd (Pipeline.train_epochs remaining epoch num_epochs batch_size p))
       = Pipeline.confidence_threshold p
    /\ Pipeline.ewc
         (snd (Pipeline.train_epochs remaining epoch num_epochs batch_size p))
       = Pipeline.ewc p
    /\ Pipeline.scheduler
         (snd (Pipeline.train_epochs remaining epoch num_epochs batch_size p))
       = Pipeline.scheduler p.
Proof.
  induction remaining as [|r IH]; intros epoch ne b p; simpl.
  - repeat split.
  - destruct (Nat.eqb b 0); [cbn; repeat split|].
    pose proof (train_batches_keeps
                  (Nat.min 10 (Pipeline.get_size (Pipeline.replay_buffer p) / b))
                  b p 0 0%nat) as (E1 & E2 & E3 & E4 & _).
    destruct (Pipeline.train_batches _ _ _ _ _) as [[[l1 k1]|] p1];
      cbn in E1, E2, E3, E4; [|cbn; repeat split; assumption].
    match goal with
    | |- context [Pipeline.train_epochs r (S epoch) ne b ?q] =>
        destruct (IH (S epoch) ne b q) as (H1 & H2 & H3 & H4)
    end.
    destruct (Nat.ltb 0 k1); cbn in H1, H2, H3, H4;
      repeat split; congruence.
Qed.

(** A batch drawn from a store without ground truth has no labelled
    sample. *)
Lemma sample_without_labels :
  forall (rb : Pipeline.ReplayBuffer Pipeline.image) batch_size g samples g',
    Forall (fun s => Pipeline.ground_truth s = None) (Pipeline.buffer rb) ->
    Pipeline.sample_ rb batch_size g = (Some samples, g') ->
    filter (@Pipeline.labeled BE) samples = [].
Proof.
  intros rb b g samples g' Hall H. unfold Pipeline.sample_ in H.
  destruct (Pipeline.sample_positions rb b g) as [[ps|] g1]; cbn in H;
    [|discriminate].
  inversion H; subst. clear H. unfold Pipeline.deref.
  induction ps as [|i ps IH]; [reflexivity|]. cbn [flat_map].
  rewrite filter_app, IH, app_nil_r.
  destruct (nth_error (Pipeline.buffer rb) i) as [s|] eqn:E; [|reflexivity].
  apply nth_error_In in E. rewrite Forall_forall in Hall.
  cbn. unfold Pipeline.labeled. now rewrite (Hall s E).
Qed.

(** Without ground truth every mini-batch is skipped: only the numpy
    generator moves, and the loop completes when sampling does. *)
Lemma train_batches_without_labels :
  forall n batch_size (p : Pipeline.EnhancedAIDetectorPipeline) l k,
    Forall (fun s => Pipeline.ground_truth s = None)
           (Pipeline.buffer (Pipeline.replay_buffer p)) ->
    Pipeline.model (snd (Pipeline.train_batches n batch_size p l k))
    = Pipeline.model p
    /\ Pipeline.optimizer (snd (Pipeline.train_batches n batch_size p l k))
       = Pipeline.optimizer p
    /\ Pipeline.torch_random (snd (Pipeline.train_batches n batch_size p l k))
       = Pipeline.torch_random p
    /\ (forall r, fst (Pipeline.train_batches n batch_size p l k) = Some r ->
                  r = (l, k))
    /\ (Pipeline.without_replacement RND ->
        fst (Pipeline.train_batches n batch_size p l k) = Some (l, k)).
Proof.
  induction n as [|n IH]; intros b p l k Hall; simpl.
  - repeat split. intros r H. now inversion H.
  - pose proof (@sample_defined RND _ (Pipeline.replay_buffer p) b
                  (Pipeline.np_random p)) as Hdef.
    destruct (Pipeline.sample_ _ _ _) as [[samples|] g] eqn:E.
    + rewrite (sample_without_labels _ _ _ Hall E). cbn.
      destruct (IH b (Pipeline.with_random p g (Pipeline.torch_random p))
                  l k Hall) as (H1 & H2 & H3 & H4 & H5).
      cbn in H1, H2, H3. repeat split; assumption.
    + cbn. repeat split; [discriminate|].
      intro Hlaw. destruct (Hdef Hlaw) as (s & Hs). discriminate.
Qed.

Lemma train_epochs_without_labels :
  forall remaining epoch num_epochs batch_size
         (p : Pipeline.EnhancedAIDetectorPipeline),
    Forall (fun s => Pipeline.ground_truth s = None)
           (Pipeline.buffer (Pipeline.replay_buffer p)) ->
    Pipeline.model
      (snd (Pipeline.train_epochs remaining epoch num_epochs batch_size p))
    = Pipeline.model p
    /\ Pipeline.optimizer
         (snd (Pipeline.train_epochs remaining epoch num_epochs batch_size p))
       = Pipeline.optimizer p
    /\ Pipeline.torch_random
         (snd (Pipeline.train_epochs remaining epoch num_epochs batch_size p))
       = Pipeline.torch_random p
    /\ Pipeline.log
         (snd (Pipeline.train_epochs remaining epoch num_epochs batch_size p))
       = Pipeline.log p
    /\ (Pipeline.without_replacement RND -> (0 < batch_size)%nat ->
        fst (Pipeline.train_epochs remaining epoch num_epochs batch_size p)
        = Some tt).
Proof.
  induction remaining as [|r IH]; intros epoch ne b p Hall; simpl.
  - repeat split.
  - destruct (Nat.eqb b 0) eqn:Eb.
    { cbn. repeat split. intros _ Hb. apply Nat.eqb_eq in Eb. lia. }
    pose proof (train_batches_keeps
                  (Nat.min 10 (Pipeline.get_size (Pipeline.replay_buffer p) / b))
                  b p 0 0%nat) as (R1 & _ & _ & _ & L1).
    pose proof (@train_batches_without_labels
                  (Nat.min 10 (Pipeline.get_size (Pipeline.replay_buffer p) / b))
                  b p 0 0%nat Hall) as (M1 & O1 & T1 & F1 & D1).
    destruct (Pipeline.train_batches _ _ _ _ _) as [[[l1 k1]|] p1];
      cbn in R1, L1, M1, O1, T1, F1, D1.
    + specialize (F1 _ eq_refl). inversion F1; subst l1 k1. cbn.
      assert (Hall1 : Forall (fun s => Pipeline.ground_truth s = None)
                             (Pipeline.buffer (Pipeline.replay_buffer p1)))
        by (rewrite R1; exact Hall).
      destruct (IH (S epoch) ne b p1 Hall1) as (H1 & H2 & H3 & H4 & H5).
      repeat split; try congruence. exact H5.
    + cbn. repeat split; try assumption.
      intros Hlaw _. specialize (D1 Hlaw). discriminate.
Qed.

(** The dataset [_create_dataloader_from_samples] hands to [DataLoader]
    is never empty, so its loader has a first batch. *)
Lemma labels_of_labeled :
  forall (l : list (Pipeline.sample Pipeline.image)),
    length (Pipeline.labels_of (filter (@Pipeline.labeled BE) l))
    = length (filter (@Pipeline.labeled BE) l).
Proof.
  induction l as [|s l IH]; [reflexivity|]. cbn [filter].
  assert (Hs : Pipeline.labeled s
               = match Pipeline.ground_truth s with
                 | Some _ => true
                 | None => false
                 end) by reflexivity.
  rewrite Hs.
  destruct (Pipeline.ground_truth s) as [y|] eqn:E; [|exact IH].
  unfold Pipeline.labels_of in *. cbn [flat_map]. rewrite E.
  cbn [app length]. f_equal. exact IH.
Qed.

Lemma fisher_loader_has_batches :
  forall samples batch_size tg loader tg',
    Pipeline.loader_has_batches BE ->
    Pipeline._create_dataloader_from_samples samples batch_size tg
    = (Some loader, tg') ->
    loader <> [].
Proof.
  intros samples b tg loader tg' Hlaw H.
  unfold Pipeline._create_dataloader_from_samples in H.
  destruct (Nat.eqb (length (filter Pipeline.labeled samples)) 0) eqn:E.
  - destruct (Pipeline.randn_images tg) as [[d0 d1] tg1].
    eapply Hlaw; [|exact H]. discriminate.
  - eapply Hlaw; [|exact H]. apply Nat.eqb_neq in E.
    intro Hnil. apply E.
    pose proof (labels_of_labeled samples) as Hl.
    assert (Hc : length (combine
                           (map (@Pipeline.s_image Pipeline.image)
                                (filter Pipeline.labeled samples))
                           (Pipeline.labels_of
                              (filter Pipeline.labeled samples))) = 0%nat)
      by (rewrite Hnil; reflexivity).
    rewrite length_combine, length_map, Hl, Nat.min_id in Hc. exact Hc.
Qed.

(** On the pipeline's own model the Fisher pass raises at its first
    batch. *)
Lemma compute_fisher_of_pipeline_raises :
  forall e (m : Pipeline.EnhancedAIDetector) tg loader,
    loader <> [] ->
    Pipeline.compute_fisher_of_pipeline e m tg loader = None.
Proof.
  intros e m tg [|[data target] rest] H; [now elim H|].
  unfold Pipeline.compute_fisher_of_pipeline.
  destruct (Pipeline.forward _ _ _) as [[[lg cl] m'] tg']. reflexivity.
Qed.

End TrainFacts.

(** X13.  What [incremental_train] leaves alone, whether it returns or
    raises: the replay buffer, the confidence threshold, and a guard that
    exists (its Fisher dict and its snapshot are not refreshed).  A call
    that went past the size check and returned has stepped the scheduler
    exactly once.  On a pipeline without a guard and with enough samples
    the call never returns: [compute_fisher] raises at [F.cross_entropy]
    on the tuple the model returns, unless sampling or the loader raised
    before it.  The exception comes after the first log line and before
    train mode, the training loop and the scheduler step, so optimizer,
    scheduler, weights and temperature are as before; the guard is
    assigned before [compute_fisher] runs, so what is left is the guard of
    [ElasticWeightConsolidation(self.model)] ([lambda_ewc] 1000, the
    snapshot of the parameters, an all-zero Fisher dict) and the model in
    eval mode. *)
Theorem incremental_train_keeps_store_and_guard :
  forall (BE : Pipeline.Backend) (RND : Pipeline.Random)
         (p : Pipeline.EnhancedAIDetectorPipeline)
         (num_epochs batch_size : nat) res
         (p' : Pipeline.EnhancedAIDetectorPipeline),
    Pipeline.incremental_train p num_epochs batch_size = (res, p') ->
    Pipeline.replay_buffer p' = Pipeline.replay_buffer p
    /\ Pipeline.confidence_threshold p' = Pipeline.confidence_threshold p
    /\ (forall e, Pipeline.ewc p = Some e -> Pipeline.ewc p' = Some e)
    /\ ((batch_size <= Pipeline.get_size (Pipeline.replay_buffer p))%nat ->
        res = Some tt ->
        exists o,
          (Pipeline.scheduler p', Pipeline.optimizer p')
          = Pipeline.scheduler_step (Pipeline.scheduler p) o)
    /\ ((batch_size <= Pipeline.get_size (Pipeline.replay_buffer p))%nat ->
        Pipeline.ewc p = None ->
        Pipeline.loader_has_batches BE ->
        res = None
        /\ Pipeline.optimizer p' = Pipeline.optimizer p
        /\ Pipeline.scheduler p' = Pipeline.scheduler p
        /\ Pipeline.weights (Pipeline.model p')
           = Pipeline.weights (Pipeline.model p)
        /\ Pipeline.temperature (Pipeline.model p')
           = Pipeline.temperature (Pipeline.model p)
        /\ Pipeline.log p'
           = Pipeline.log p
             ++ [Pipeline.info_starting_incremental_training
                   (Pipeline.get_size (Pipeline.replay_buffer p))]
        /\ (Pipeline.ewc p' = None /\ Pipeline.model p' = Pipeline.model p
            \/ Pipeline.ewc p'
               = Some (Pipeline.ElasticWeightConsolidation_init
                         (Pipeline.model p) 1000)
               /\ Pipeline.model p'
                  = Pipeline.set_training (Pipeline.model p) false)).
Proof.
  intros BE RND p ne b res p' H. unfold Pipeline.incremental_train in H.
  destruct (Nat.ltb (Pipeline.get_size (Pipeline.replay_buffer p)) b) eqn:Eb.
  { inversion H; subst. cbn. apply Nat.ltb_lt in Eb.
    split; [reflexivity|]. split; [reflexivity|].
    split; [intros e He; exact He|].
    split; intros Hle; exfalso; lia. }
  cbn [Pipeline.logger Pipeline.ewc Pipeline.replay_buffer
       Pipeline.np_random Pipeline.torch_random] in H.
  match type of H with
  | (let '(_, _) := ?init in _) = _ => destruct init as [i p1] eqn:Einit
  end.
  assert (Hp1 :
            Pipeline.replay_buffer p1 = Pipeline.replay_buffer p
            /\ Pipeline.confidence_threshold p1
               = Pipeline.confidence_threshold p
            /\ Pipeline.scheduler p1 = Pipeline.scheduler p
            /\ Pipeline.optimizer p1 = Pipeline.optimizer p
            /\ Pipeline.log p1
               = Pipeline.log p
                 ++ [Pipeline.info_starting_incremental_training
                       (Pipeline.get_size (Pipeline.replay_buffer p))]
            /\ (forall e, Pipeline.ewc p = Some e -> Pipeline.ewc p1 = Some e)
            /\ (Pipeline.ewc p = None -> Pipeline.loader_has_batches BE ->
                i = false
                /\ (Pipeline.ewc p1 = None
                    /\ Pipeline.model p1 = Pipeline.model p
                    \/ Pipeline.ewc p1
                       = Some (Pipeline.ElasticWeightConsolidation_init
                                 (Pipeline.model p) 1000)
                       /\ Pipeline.model p1
                          = Pipeline.set_training (Pipeline.model p) false))).
  { destruct (Pipeline.ewc p) as [e|] eqn:Ee.
    - injection Einit as <- <-. cbn. rewrite Ee.
      do 5 (split; [reflexivity|]).
      split; [intros e0 He0; exact He0 | intro Hn; discriminate].
    - destruct (Pipeline.sample_ _ _ _) as [[samples|] g].
      + destruct (Pipeline._create_dataloader_from_samples _ _ _)
          as [[loader|] tg] eqn:El.
        * cbn [Pipeline.with_random Pipeline.with_ewc Pipeline.model
               Pipeline.torch_random] in Einit.
          destruct (Pipeline.compute_fisher_of_pipeline _ _ _ _)
            as [[e1 m1]|] eqn:Ef;
            injection Einit as <- <-; cbn;
            do 5 (split; [reflexivity|]);
            (split; [intros e0 He0; discriminate|]);
            intros _ Hlaw.
          -- rewrite compute_fisher_of_pipeline_raises in Ef;
               [discriminate|].
             exact (fisher_loader_has_batches _ _ _ Hlaw El).
          -- split; [reflexivity|]. right. split; reflexivity.
        * injection Einit as <- <-. cbn.
          do 5 (split; [reflexivity|]).
          split; [intros e0 He0; discriminate|].
          intros _ _. split; [reflexivity|]. left.
          split; [exact Ee | reflexivity].
      + injection Einit as <- <-. cbn.
        do 5 (split; [reflexivity|]).
        split; [intros e0 He0; discriminate|].
        intros _ _. split; [reflexivity|]. left.
          split; [exact Ee | reflexivity]. }
  destruct Hp1 as (R1 & T1 & S1 & O1 & L1 & G1 & N1).
  destruct i.
  - match type of H with
    | context [Pipeline.train_epochs ?a ?e ?c ?d ?q] =>
        pose proof (train_epochs_keeps a e c d q) as (R2 & T2 & W2 & S2);
          destruct (Pipeline.train_epochs a e c d q) as [[[]|] p2]
    end; cbn in R2, T2, W2, S2.
    + destruct (Pipeline.scheduler_step _ _) as [s o] eqn:Es.
      inversion H; subst res p'; clear H. cbn.
      split; [congruence|]. split; [congruence|].
      split; [intros e He; rewrite W2; now apply G1|].
      split.
      * intros _ _. exists (Pipeline.optimizer p2).
        rewrite <- S1, <- S2. now rewrite Es.
      * intros _ Hn Hlaw. destruct (N1 Hn Hlaw) as [Hi _]. discriminate.
    + inversion H; subst res p'; clear H.
      split; [congruence|]. split; [congruence|].
      split; [intros e He; rewrite W2; now apply G1|].
      split.
      * intros _ Hr. discriminate.
      * intros _ Hn Hlaw. destruct (N1 Hn Hlaw) as [Hi _]. discriminate.
  - inversion H; subst res p'; clear H.
    split; [exact R1|]. split; [exact T1|]. split; [exact G1|].
    split.
    + intros _ Hr. discriminate.
    + intros _ Hn Hlaw. destruct (N1 Hn Hlaw) as [_ Hg].
      split; [reflexivity|]. split; [exact O1|]. split; [exact S1|].
      split; [destruct Hg as [[_ Hm] | [_ Hm]]; rewrite Hm; reflexivity|].
      split; [destruct Hg as [[_ Hm] | [_ Hm]]; rewrite Hm; reflexivity|].
      split; [exact L1 | exact Hg].
Qed.

Lemma scalar_loader_has_batches :
  Pipeline.loader_has_batches Pipeline.scalar_backend.
Proof.
  intros g ds b sh batches g' Hds H. cbn in H.
  destruct (Nat.eqb b 0); inversion H. discriminate.
Qed.

Lemma incremental_train_keeps_store_and_guard_witness :
  let p := Pipeline.scalar_pipeline (3 # 2) 100
             (Pipeline.buffer (Pipeline.test_store 3 1)) in
  exists p',
    Pipeline.incremental_train p 2 2 = (None, p')
    /\ Pipeline.replay_buffer p' = Pipeline.replay_buffer p
    /\ Pipeline.confidence_threshold p' = 4 # 5
    /\ Pipeline.ewc p'
       = Some (Pipeline.ElasticWeightConsolidation_init
                 (Pipeline.model p) 1000)
    /\ Pipeline.model p' = Pipeline.set_training (Pipeline.model p) false
    /\ Pipeline.log p' = [Pipeline.info_starting_incremental_training 4].
Proof.
  intro p.
  destruct (Pipeline.incremental_train p 2 2) as [res p'] eqn:E.
  destruct (@incremental_train_keeps_store_and_guard
              Pipeline.scalar_backend Pipeline.first_indices p 2 2 res p' E)
    as (Hr & Ht & _ & _ & Hn).
  destruct Hn as (Hres & _ & _ & _ & _ & Hl & _);
    [vm_compute; lia | reflexivity | exact scalar_loader_has_batches |].
  exists p'. subst res. split; [reflexivity|]. split; [exact Hr|].
  split; [rewrite Ht; reflexivity|].
  vm_compute in E. inversion E; subst p'.
  split; [reflexivity|]. split; [reflexivity|]. reflexivity.
Defined.

(** X14.  Retraining, on a pipeline that has its guard, on a replay
    buffer in which no sample has a ground truth (predictions only, no
    feedback yet) trains nothing.  Every mini-batch is skipped: weights,
    temperature, guard, replay buffer, threshold and torch's generator are
    untouched, and the model is in train mode afterwards.  Of the state
    only numpy's generator (sampling draws from it), the scheduler and the
    log move: a call that returns has stepped the scheduler once, with the
    optimizer as it was, and logged its first and its last line and no
    epoch line; one that raises (in [sample], or dividing by a batch size
    of zero) leaves scheduler and optimizer alone and has logged the first
    line.  With numpy's [choice] as documented and a positive batch size
    the call returns. *)
Theorem incremental_train_without_labels :
  forall (BE : Pipeline.Backend) (RND : Pipeline.Random)
         (p : Pipeline.EnhancedAIDetectorPipeline)
         (num_epochs batch_size : nat) e res
         (p' : Pipeline.EnhancedAIDetectorPipeline),
    Forall (fun s => Pipeline.ground_truth s = None)
           (Pipeline.buffer (Pipeline.replay_buffer p)) ->
    (batch_size <= Pipeline.get_size (Pipeline.replay_buffer p))%nat ->
    Pipeline.ewc p = Some e ->
    Pipeline.incremental_train p num_epochs batch_size = (res, p') ->
    Pipeline.model p' = Pipeline.set_training (Pipeline.model p) true
    /\ Pipeline.ewc p' = Some e
    /\ Pipeline.replay_buffer p' = Pipeline.replay_buffer p
    /\ Pipeline.confidence_threshold p' = Pipeline.confidence_threshold p
    /\ Pipeline.torch_random p' = Pipeline.torch_random p
    /\ (res = Some tt ->
        (Pipeline.scheduler p', Pipeline.optimizer p')
        = Pipeline.scheduler_step (Pipeline.scheduler p)
                                  (Pipeline.optimizer p)
        /\ Pipeline.log p'
           = Pipeline.log p
             ++ [Pipeline.info_starting_incremental_training
                   (Pipeline.get_size (Pipeline.replay_buffer p));
                 Pipeline.info_incremental_training_completed])
    /\ (res = None ->
        Pipeline.scheduler p' = Pipeline.scheduler p
        /\ Pipeline.optimizer p' = Pipeline.optimizer p
        /\ Pipeline.log p'
           = Pipeline.log p
             ++ [Pipeline.info_starting_incremental_training
                   (Pipeline.get_size (Pipeline.replay_buffer p))])
    /\ (Pipeline.without_replacement RND -> (0 < batch_size)%nat ->
        res = Some tt).
Proof.
  intros BE RND p ne b e res p' Hall Hb He H.
  unfold Pipeline.incremental_train in H.
  destruct (Nat.ltb (Pipeline.get_size (Pipeline.replay_buffer p)) b) eqn:Eb;
    [apply Nat.ltb_lt in Eb; exfalso; lia|].
  cbn [Pipeline.logger Pipeline.ewc Pipeline.replay_buffer
       Pipeline.np_random Pipeline.torch_random] in H.
  rewrite He in H.
  match type of H with
  | context [Pipeline.train_epochs ?a ?ep ?c ?d ?q] =>
      pose proof (train_epochs_keeps a ep c d q) as (R2 & T2 & W2 & S2);
        pose proof (@train_epochs_without_labels BE RND a ep c d q Hall)
        as (M2 & O2 & G2 & L2 & D2);
        destruct (Pipeline.train_epochs a ep c d q) as [[[]|] p2]
  end; cbn in R2, T2, W2, S2, M2, O2, G2, L2, D2.
  - destruct (Pipeline.scheduler_step _ _) as [s o] eqn:Es.
    inversion H; subst res p'; clear H. cbn.
    split; [exact M2|]. split; [congruence|]. split; [exact R2|].
    split; [exact T2|]. split; [exact G2|].
    split; [|split; [discriminate | intros _ _; reflexivity]].
    intros _. split.
    + rewrite <- Es. congruence.
    + rewrite L2, <- app_assoc. reflexivity.
  - inversion H; subst res p'; clear H.
    split; [exact M2|]. split; [congruence|]. split; [exact R2|].
    split; [exact T2|]. split; [exact G2|].
    split; [discriminate|]. split.
    + intros _. split; [exact S2|]. split; [exact O2 | exact L2].
    + intros Hlaw Hpos. specialize (D2 Hlaw Hpos). discriminate.
Qed.

Lemma incremental_train_without_labels_witness :
  let p0 := Pipeline.scalar_pipeline (3 # 2) 100
              (Pipeline.buffer (Pipeline.test_store 0 3)) in
  let e := Pipeline.ElasticWeightConsolidation_init (Pipeline.model p0) 1000 in
  let p := Pipeline.with_ewc p0 (Some e) in
  exists p',
    Pipeline.incremental_train p 5 2 = (Some tt, p')
    /\ Pipeline.model p' = Pipeline.set_training (Pipeline.model p) true
    /\ Pipeline.ewc p' = Some e
    /\ Pipeline.replay_buffer p' = Pipeline.replay_buffer p
    /\ Pipeline.log p'
       = [Pipeline.info_starting_incremental_training 3;
          Pipeline.info_incremental_training_completed].
Proof.
  intros p0 e p.
  destruct (Pipeline.incremental_train p 5 2) as [res p'] eqn:E.
  assert (Hall : Forall (fun s => Pipeline.ground_truth s = None)
                        (Pipeline.buffer (Pipeline.replay_buffer p)))
    by (cbn; repeat constructor).
  assert (Hb : (2 <= Pipeline.get_size (Pipeline.replay_buffer p))%nat)
    by (vm_compute; lia).
  destruct (@incremental_train_without_labels
              Pipeline.scalar_backend Pipeline.first_indices p 5 2 e res p'
              Hall Hb eq_refl E)
    as (Hm & He & Hr & _ & _ & Hs & _ & Hd).
  assert (Hres : res = Some tt)
    by (apply Hd; [exact first_indices_without_replacement | lia]).
  destruct (Hs Hres) as [_ Hl].
  exists p'. subst res. split; [reflexivity|]. split; [exact Hm|].
  split; [exact He|]. split; [exact Hr | exact Hl].
Defined.

(** ** The prediction log of the fixed detector *)

Section LoggingFacts.
Context {RT : Fixed.Runtime} {image_data : Type}.


(** What one call of [log_prediction] leaves in the log, the model and
    the replay buffer. *)
Lemma log_prediction_effect :
  forall (st : Fixed.EnhancedAIDetector_with_log image_data)
         img r md now now_add,
    let st' := Fixed.log_prediction st img r md now now_add in
    Fixed.prediction_log st'
    = Fixed.prediction_log st
      ++ [{| Fixed.entry_timestamp := now;
             Fixed.entry_prediction := Fixed.prediction r;
             Fixed.entry_confidence := Fixed.confidence r;
             Fixed.entry_synthetic_probability := Fixed.synthetic_probability r;
             Fixed.entry_real_probability := Fixed.real_probability r;
             Fixed.entry_is_uncertain := Fixed.is_uncertain r;
             Fixed.entry_metadata := match md with
                                     | Some m => m
                                     | None => []
                                     end |}]
    /\ Fixed.model st' = Fixed.model st
    /\ Fixed.replay_buffer st'
       = (if (Fixed.is_uncertain r
              || Torch.Qltb (Fixed.confidence r) (4 # 5))%bool
          then Fixed.add (Fixed.replay_buffer st) img (Fixed.prediction r)
                         (Fixed.confidence r) None now_add
          else Fixed.replay_buffer st)
    /\ Fixed.writable (Fixed.fs st') = Fixed.writable (Fixed.fs st).
Proof.
  intros st img r md now now_add. unfold Fixed.log_prediction.
  destruct (Nat.eqb _ 0); [|cbn; repeat split].
  unfold Fixed._save_logs, Fixed.save. cbn.
  destruct (Fixed.writable (Fixed.fs st)) eqn:W; cbn; rewrite ?W; cbn;
    repeat split; assumption.
Qed.

Lemma count_from :
  forall (test : Fixed.log_entry -> bool) l n,
    fold_left (fun n entry => if test entry then (n + 1)%nat else n) l n
    = (n + length (filter test l))%nat.
Proof.
  intros test l. induction l as [|e l IH]; intro n; simpl; [lia|].
  rewrite IH. destruct (test e); simpl; lia.
Qed.

Lemma count_filter :
  forall (test : Fixed.log_entry -> bool) l,
    Fixed.count test l = length (filter test l).
Proof.
  intros. unfold Fixed.count. now rewrite count_from.
Qed.

(** Entries that carry exactly one of the three marks are counted once. *)
Lemma counts_partition :
  forall l,
    Forall (fun e =>
              ((if Fixed.entry_is_uncertain e then 1 else 0)
               + (if String.eqb (Fixed.entry_prediction e) "synthetic"
                  then 1 else 0)
               + (if String.eqb (Fixed.entry_prediction e) "real"
                  then 1 else 0) = 1)%nat) l ->
    (Fixed.count (@Fixed.entry_is_uncertain) l
     + Fixed.count
         (fun e => String.eqb (Fixed.entry_prediction e) "synthetic") l
     + Fixed.count (fun e => String.eqb (Fixed.entry_prediction e) "real") l
     = length l)%nat.
Proof.
  intros l H. rewrite !count_filter.
  induction H as [|e l He Hl IH]; [reflexivity|].
  cbn [filter length].
  destruct (Fixed.entry_is_uncertain e);
    destruct (String.eqb (Fixed.entry_prediction e) "synthetic");
    destruct (String.eqb (Fixed.entry_prediction e) "real");
    cbn [length] in *; lia.
Qed.

(** The log after a run of calls: one entry per call, in order. *)
Lemma log_after_calls :
  forall (calls : list (image_data * Fixed.result
                        * option (list (string * string)) * string * string))
         (st : Fixed.EnhancedAIDetector_with_log image_data),
    let st' :=
      fold_left (fun s c =>
                   let '(img, r, md, now, now_add) := c in
                   Fixed.log_prediction s img r md now now_add) calls st in
    Fixed.model st' = Fixed.model st
    /\ exists entries,
         Fixed.prediction_log st' = Fixed.prediction_log st ++ entries
         /\ length entries = length calls
         /\ map (@Fixed.entry_prediction)  entries
            = map (fun c => Fixed.prediction (snd (fst (fst (fst c)))))
                  calls
         /\ map (@Fixed.entry_is_uncertain) entries
            = map (fun c => Fixed.is_uncertain (snd (fst (fst (fst c)))))
                  calls.
Proof.
  induction calls as [|[[[[img r] md] now] now_add] calls IH]; intro st.
  - cbn. split; [reflexivity|]. exists []. rewrite app_nil_r. repeat split.
  - cbn [fold_left].
    destruct (log_prediction_effect st img r md now now_add)
      as (Hlog & Hm & _ & _).
    specialize (IH (Fixed.log_prediction st img r md now now_add)).
    cbv zeta in IH. destruct IH as (IHm & entries & He & Hlen & Hp & Hu).
    cbv zeta. split; [congruence|].
    eexists (_ :: entries). rewrite He, Hlog, <- app_assoc. cbn [app].
    split; [reflexivity|]. cbn [length map fst snd Fixed.entry_prediction
                                Fixed.entry_is_uncertain].
    repeat split; congruence.
Qed.

(** Entries copied from results of [predict_with_uncertainty] carry
    exactly one mark each. *)
Lemma marks_of_results :
  forall (calls : list (image_data * Fixed.result
                        * option (list (string * string)) * string * string)),
    Forall (fun c =>
              exists threshold lg cal p,
                Fixed.result_of_row threshold lg cal p
                = Some (snd (fst (fst (fst c))))) calls ->
    forall entries : list Fixed.log_entry,
    map (@Fixed.entry_prediction) entries
    = map (fun c => Fixed.prediction (snd (fst (fst (fst c))))) calls ->
    map (@Fixed.entry_is_uncertain) entries
    = map (fun c => Fixed.is_uncertain (snd (fst (fst (fst c))))) calls ->
    Forall (fun e =>
              ((if Fixed.entry_is_uncertain e then 1 else 0)
               + (if String.eqb (Fixed.entry_prediction e) "synthetic"
                  then 1 else 0)
               + (if String.eqb (Fixed.entry_prediction e) "real"
                  then 1 else 0) = 1)%nat) entries.
Proof.
  intros calls Hcalls.
  induction Hcalls as [|c calls' (th & lg & cal & p & Hr) _ IH];
    intros [|e entries] Hp Hu; try discriminate; constructor.
  - cbn in Hp, Hu. inversion Hp as [[Hp1 Hp2]].
    inversion Hu as [[Hu1 Hu2]]. rewrite Hp1, Hu1.
    destruct (result_of_row_flag _ _ _ _ Hr)
      as [[-> ->] | [-> [-> | ->]]]; reflexivity.
  - cbn in Hp, Hu. inversion Hp. inversion Hu. now apply IH.
Qed.

End LoggingFacts.

(** X15.  Statistics of a log written by [log_prediction] from results of
    [predict_with_uncertainty], starting from an empty log: the total is
    the number of calls, and every logged prediction is counted exactly
    once among uncertain, synthetic and real; after at least one call the
    dict has its three settings keys, with the threshold and temperature
    of the unchanged model. *)
Theorem model_stats_partition :
  forall (RT : Fixed.Runtime) (image_data : Type)
         (st : Fixed.EnhancedAIDetector_with_log image_data)
         (calls : list (image_data * Fixed.result
                        * option (list (string * string)) * string * string)),
    Fixed.prediction_log st = [] ->
    Forall (fun c =>
              exists threshold lg cal p,
                Fixed.result_of_row threshold lg cal p
                = Some (snd (fst (fst (fst c))))) calls ->
    let st' :=
      fold_left (fun s c =>
                   let '(img, r, md, now, now_add) := c in
                   Fixed.log_prediction s img r md now now_add) calls st in
    let stats := Fixed.get_model_stats st' in
    Fixed.total_predictions stats = length calls
    /\ (Fixed.uncertain_predictions stats + Fixed.synthetic_predictions stats
        + Fixed.real_predictions stats = Fixed.total_predictions stats)%nat
    /\ (calls <> [] ->
        Fixed.settings stats
        = Some (Fixed.uncertainty_threshold (Fixed.model st),
                Fixed.temperature (Fixed.model st),
                length (Fixed.buffer (Fixed.replay_buffer st')))).
Proof.
  intros RT image_data st calls Hempty Hcalls st' stats.
  destruct (log_after_calls calls st)
    as (Hm & entries & Hlog & Hlen & Hp & Hu).
  fold st' in Hm, Hlog. rewrite Hempty in Hlog. cbn [app] in Hlog.
  pose proof (marks_of_results Hcalls entries Hp Hu) as Hmarks.
  subst stats. unfold Fixed.get_model_stats. rewrite Hlog, Hlen.
  destruct calls as [|c calls'].
  - destruct entries; [|discriminate]. cbn.
    split; [reflexivity|]. split; [reflexivity|]. congruence.
  - cbn [length Nat.eqb Fixed.total_predictions Fixed.uncertain_predictions
         Fixed.synthetic_predictions Fixed.real_predictions Fixed.settings].
    split; [reflexivity|]. split.
    + rewrite (counts_partition Hmarks). exact Hlen.
    + intros _. now rewrite Hm.
Qed.

Lemma model_stats_partition_witness :
  let r1 := {| Fixed.prediction := "synthetic";
               Fixed.confidence := 7 # 8;
               Fixed.synthetic_probability := 7 # 8;
               Fixed.real_probability := 1 # 8;
               Fixed.is_uncertain := false;
               Fixed.logits := [1; 2]; Fixed.calibrated_logits := [1; 2] |} in
  let r2 := {| Fixed.prediction := "UNCERTAIN";
               Fixed.confidence := 5 # 8;
               Fixed.synthetic_probability := 3 # 8;
               Fixed.real_probability := 5 # 8;
               Fixed.is_uncertain := true;
               Fixed.logits := [2; 1]; Fixed.calibrated_logits := [2; 1] |} in
  let stats :=
    Fixed.get_model_stats
      (Fixed.log_prediction
         (Fixed.log_prediction (Fixed.linear_logged 5) 1 r1 None "t1" "t2")
         2 r2 None "t3" "t4") in
  Fixed.total_predictions stats = 2%nat
  /\ (Fixed.uncertain_predictions stats + Fixed.synthetic_predictions stats
      + Fixed.real_predictions stats = Fixed.total_predictions stats)%nat.
Proof.
  intros r1 r2 stats.
  destruct (@model_stats_partition Fixed.linear_runtime Q
              (Fixed.linear_logged 5)
              [(1, r1, None, "t1"%string, "t2"%string);
               (2, r2, None, "t3"%string, "t4"%string)] eq_refl)
    as (Ht & Hp & _).
  - constructor; [|constructor; [|constructor]].
    + exists (3 # 4), [1; 2], [1; 2], [1 # 8; 7 # 8].
      vm_compute. reflexivity.
    + exists (3 # 4), [2; 1], [2; 1], [5 # 8; 3 # 8].
      vm_compute. reflexivity.
  - split; [exact Ht | exact Hp].
Defined.

Section ReplayRuleFacts.
Context {A : Type}.

Lemma filter_id_Forall :
  forall (f : A -> bool) l, filter f l = l <-> Forall (fun x => f x = true) l.
Proof.
  intros f l. split; intro H.
  - apply Forall_forall. intros x Hx. rewrite <- H in Hx.
    apply filter_In in Hx. tauto.
  - induction H as [|x l Hx Hl IH]; [reflexivity|].
    cbn. now rewrite Hx, IH.
Qed.

Lemma Forall_deque_append :
  forall (P : A -> Prop) maxlen d x,
    Forall P d -> P x -> Forall P (Fixed.deque_append maxlen d x).
Proof.
  intros P maxlen d x Hd Hx. unfold Fixed.deque_append.
  destruct (Nat.eqb maxlen 0); [constructor|].
  destruct (Nat.ltb (length d) maxlen); apply Forall_app; split;
    try (constructor; [exact Hx | constructor]); [exact Hd|].
  destruct d; [constructor | now inversion Hd].
Qed.

End ReplayRuleFacts.

(** X16.  The replay rule of [log_prediction] against the default of
    [get_low_confidence_examples]: for a result produced under an
    uncertainty threshold of at most 0.8 the test
    [is_uncertain or confidence < 0.8] is the test [confidence < 0.8]
    alone.  Such a result is stored exactly when its confidence is below
    0.8, and a buffer that [get_low_confidence_examples()] returns in
    full is still returned in full afterwards. *)
Theorem replay_rule_matches_low_confidence :
  forall (RT : Fixed.Runtime) (image_data : Type)
         (st : Fixed.EnhancedAIDetector_with_log image_data)
         (img : image_data) (r : Fixed.result)
         (md : option (list (string * string))) (now now_add : string)
         (threshold : Q) (lg cal p : Torch.tensor),
    threshold <= 4 # 5 ->
    Fixed.result_of_row threshold lg cal p = Some r ->
    let st' := Fixed.log_prediction st img r md now now_add in
    (Fixed.confidence r < 4 # 5 ->
     Fixed.replay_buffer st'
     = Fixed.add (Fixed.replay_buffer st) img (Fixed.prediction r)
                 (Fixed.confidence r) None now_add)
    /\ (4 # 5 <= Fixed.confidence r ->
        Fixed.replay_buffer st' = Fixed.replay_buffer st)
    /\ (Fixed.get_low_confidence_examples (Fixed.replay_buffer st) (4 # 5)
        = Fixed.buffer (Fixed.replay_buffer st) ->
        Fixed.get_low_confidence_examples (Fixed.replay_buffer st') (4 # 5)
        = Fixed.buffer (Fixed.replay_buffer st')).
Proof.
  intros RT image_data st img r md now now_add th lg cal p Hth Hr st'.
  destruct (log_prediction_effect st img r md now now_add)
    as (_ & _ & Hrb & _). fold st' in Hrb.
  destruct (confidence_is_float32 _ _ _ _ Hr) as [Hf32 Hflag].
  assert (Htest : (Fixed.is_uncertain r
                   || Torch.Qltb (Fixed.confidence r) (4 # 5))%bool
                  = Torch.Qltb (Fixed.confidence r) (4 # 5)).
  { destruct (Fixed.is_uncertain r) eqn:Eu; [|reflexivity]. cbn.
    symmetry in Hflag. apply Qltb_lt in Hflag. symmetry. apply Qltb_lt.
    rewrite <- Hf32. apply float32_below_cast with th; [|exact Hth].
    rewrite Hf32. exact Hflag. }
  rewrite Htest in Hrb.
  split; [|split].
  - intro Hlt. apply Qltb_lt in Hlt. now rewrite Hlt in Hrb.
  - intro Hge. apply Qltb_ge in Hge. now rewrite Hge in Hrb.
  - intro Hall. rewrite Hrb.
    destruct (Torch.Qltb (Fixed.confidence r) (4 # 5)) eqn:E; [|exact Hall].
    unfold Fixed.get_low_confidence_examples in *. cbn.
    apply filter_id_Forall. apply Forall_deque_append.
    + apply filter_id_Forall. exact Hall.
    + exact E.
Qed.

Lemma replay_rule_matches_low_confidence_witness :
  let r := {| Fixed.prediction := "real";
              Fixed.confidence := 25 # 32;
              Fixed.synthetic_probability := 7 # 32;
              Fixed.real_probability := 25 # 32;
              Fixed.is_uncertain := false;
              Fixed.logits := [2; 1]; Fixed.calibrated_logits := [2; 1] |} in
  let st' := Fixed.log_prediction (Fixed.linear_logged 5) 7 r None "t1" "t2" in
  Fixed.get_low_confidence_examples (Fixed.replay_buffer st') (4 # 5)
  = Fixed.buffer (Fixed.replay_buffer st')
  /\ length (Fixed.buffer (Fixed.replay_buffer st')) = 1%nat.
Proof.
  intros r st'.
  assert (Hth : 3 # 4 <= 4 # 5) by (unfold Qle; cbn; lia).
  assert (Hr : @Fixed.result_of_row (3 # 4) [2; 1] [2; 1] [25 # 32; 7 # 32]
               = Some r) by (vm_compute; reflexivity).
  destruct (@replay_rule_matches_low_confidence Fixed.linear_runtime Q
              (Fixed.linear_logged 5) 7 r None "t1"%string "t2"%string
              (3 # 4) [2; 1] [2; 1] [25 # 32; 7 # 32] Hth Hr)
    as (_ & _ & Hall).
  split; [apply Hall; reflexivity | reflexivity].
Defined.

Section SavedLogFacts.
Context {RT : Fixed.Runtime} {image_data : Type}.

(** One call of [log_prediction] on a writable disk: the log file is
    rewritten when the log reaches a multiple of ten entries and is left
    alone otherwise. *)
Lemma log_prediction_file :
  forall (st : Fixed.EnhancedAIDetector_with_log image_data)
         img r md now now_add,
    Fixed.writable (Fixed.fs st) = true ->
    let st' := Fixed.log_prediction st img r md now now_add in
    Fixed.log_file (Fixed.fs st')
    = (if (length (Fixed.prediction_log st') mod 10 =? 0)%nat
       then Fixed.content (Fixed.prediction_log st')
       else Fixed.log_file (Fixed.fs st)).
Proof.
  intros st img r md now now_add W st'.
  destruct (log_prediction_effect st img r md now now_add) as (Hlog & _).
  fold st' in Hlog. rewrite Hlog.
  subst st'. unfold Fixed.log_prediction.
  destruct (Nat.eqb _ 0); [|reflexivity].
  unfold Fixed._save_logs, Fixed.save. cbn. rewrite W. cbn. rewrite ?W.
  reflexivity.
Qed.

(** The invariant of the saved log. *)
Lemma saved_log_invariant :
  forall (calls : list (image_data * Fixed.result
                        * option (list (string * string)) * string * string))
         (st : Fixed.EnhancedAIDetector_with_log image_data),
    Fixed.writable (Fixed.fs st) = true ->
    match Fixed.log_file (Fixed.fs st) with
    | Fixed.content saved =>
        exists unsaved,
          Fixed.prediction_log st = saved ++ unsaved
          /\ (length unsaved
              <= length (Fixed.prediction_log st) mod 10)%nat
    | _ => (length (Fixed.prediction_log st) < 10)%nat
    end ->
    let st' :=
      fold_left (fun s c =>
                   let '(img, r, md, now, now_add) := c in
                   Fixed.log_prediction s img r md now now_add) calls st in
    match Fixed.log_file (Fixed.fs st') with
    | Fixed.content saved =>
        exists unsaved,
          Fixed.prediction_log st' = saved ++ unsaved
          /\ (length unsaved
              <= length (Fixed.prediction_log st') mod 10)%nat
    | _ => (length (Fixed.prediction_log st') < 10)%nat
    end.
Proof.
  induction calls as [|[[[[img r] md] now] now_add] calls IH];
    intros st W Hinv; [exact Hinv|].
  cbn [fold_left]. apply IH.
  - destruct (log_prediction_effect st img r md now now_add)
      as (_ & _ & _ & Hw). congruence.
  - rewrite (log_prediction_file st img r md now now_add W).
    destruct (log_prediction_effect st img r md now now_add) as (Hlog & _).
    rewrite Hlog. rewrite length_app. cbn [length].
    set (n := length (Fixed.prediction_log st)) in *.
    assert (Hmod : (n mod 10 < 10)%nat) by (apply Nat.mod_upper_bound; lia).
    assert (Hdiv : n = (10 * (n / 10) + n mod 10)%nat)
      by (apply Nat.div_mod_eq).
    assert (Hstep : ((n + 1) mod 10 = 0 /\ n mod 10 = 9
                     \/ (n + 1) mod 10 = n mod 10 + 1)%nat).
    { destruct (Nat.eq_dec (n mod 10) 9) as [E|E].
      - left. split; [|exact E].
        replace (n + 1)%nat with (0 + (n / 10 + 1) * 10)%nat by lia.
        now rewrite Nat.Div0.mod_add.
      - right.
        replace (n + 1)%nat with ((n mod 10 + 1) + (n / 10) * 10)%nat by lia.
        rewrite Nat.Div0.mod_add. apply Nat.mod_small. lia. }
    destruct (Nat.eqb ((n + 1) mod 10) 0) eqn:E.
    + exists []. rewrite app_nil_r. split; [reflexivity | cbn; lia].
    + apply Nat.eqb_neq in E.
      destruct Hstep as [[H0 _] | Hs]; [congruence|].
      assert (Hup : ((n + 1) mod 10 < 10)%nat)
        by (apply Nat.mod_upper_bound; lia).
      destruct (Fixed.log_file (Fixed.fs st)) as [| |saved].
      * rewrite (Nat.mod_small n 10 Hinv) in Hs. lia.
      * rewrite (Nat.mod_small n 10 Hinv) in Hs. lia.
      * destruct Hinv as (unsaved & Hu & Hn).
        exists (unsaved ++ [{| Fixed.entry_timestamp := now;
             Fixed.entry_prediction := Fixed.prediction r;
             Fixed.entry_confidence := Fixed.confidence r;
             Fixed.entry_synthetic_probability := Fixed.synthetic_probability r;
             Fixed.entry_real_probability := Fixed.real_probability r;
             Fixed.entry_is_uncertain := Fixed.is_uncertain r;
             Fixed.entry_metadata := match md with
                                     | Some m => m
                                     | None => []
                                     end |}]).
        rewrite Hu, <- app_assoc. split; [reflexivity|].
        rewrite length_app. cbn [length]. lia.
Qed.

End SavedLogFacts.

(** X17.  The log file lags the prediction log by fewer than ten
    entries.  After [_load_logs] on a fresh log and any number of
    [log_prediction] calls on a writable disk, a readable
    [prediction_log.json] holds a prefix of the log in memory and what is
    missing from it are the entries after the last multiple of ten; as
    long as there is no readable file the log has fewer than ten entries. *)
Theorem saved_log_lags_by_less_than_ten :
  forall (RT : Fixed.Runtime) (image_data : Type)
         (st0 : Fixed.EnhancedAIDetector_with_log image_data)
         (calls : list (image_data * Fixed.result
                        * option (list (string * string)) * string * string)),
    Fixed.prediction_log st0 = [] ->
    Fixed.writable (Fixed.fs st0) = true ->
    let st' :=
      fold_left (fun s c =>
                   let '(img, r, md, now, now_add) := c in
                   Fixed.log_prediction s img r md now now_add)
                calls (Fixed._load_logs st0) in
    match Fixed.log_file (Fixed.fs st') with
    | Fixed.content saved =>
        exists unsaved,
          Fixed.prediction_log st' = saved ++ unsaved
          /\ (length unsaved
              <= length (Fixed.prediction_log st') mod 10)%nat
    | _ => (length (Fixed.prediction_log st') < 10)%nat
    end.
Proof.
  intros RT image_data st0 calls Hempty W.
  apply saved_log_invariant.
  - unfold Fixed._load_logs.
    destruct (Fixed.log_file (Fixed.fs st0)); exact W.
  - unfold Fixed._load_logs.
    destruct (Fixed.log_file (Fixed.fs st0)) as [| |data] eqn:E; cbn;
      rewrite ?E, ?Hempty; cbn; try lia.
    exists []. rewrite app_nil_r. split; [reflexivity | cbn; lia].
Qed.

Lemma saved_log_lags_by_less_than_ten_witness :
  let r := {| Fixed.prediction := "real";
              Fixed.confidence := 9 # 10;
              Fixed.synthetic_probability := 1 # 10;
              Fixed.real_probability := 9 # 10;
              Fixed.is_uncertain := false;
              Fixed.logits := [2; 1]; Fixed.calibrated_logits := [2; 1] |} in
  let st' :=
    fold_left (fun s c =>
                 let '(img, r, md, now, now_add) := c in
                 Fixed.log_prediction s img r md now now_add)
              (repeat (1, r, None, "t1"%string, "t2"%string) 12)
              (Fixed._load_logs (Fixed.linear_logged 5)) in
  match Fixed.log_file (Fixed.fs st') with
  | Fixed.content saved =>
      exists unsaved,
        Fixed.prediction_log st' = saved ++ unsaved
        /\ (length unsaved <= length (Fixed.prediction_log st') mod 10)%nat
  | _ => (length (Fixed.prediction_log st') < 10)%nat
  end.
Proof.
  intro r.
  apply (@saved_log_lags_by_less_than_ten Fixed.linear_runtime Q
           (Fixed.linear_logged 5)
           (repeat (1, r, None, "t1"%string, "t2"%string) 12));
    reflexivity.
Defined.

(** ** The API adapter of the pipeline *)


(** ** Saving and loading the log and the replay buffer *)

Section PersistFacts.
Context {A : Type}.

(** Extending a bounded deque that has room for all new items appends
    them. *)
Lemma deque_extend_room :
  forall (maxlen : nat) (xs d : list A),
    (length d + length xs <= maxlen)%nat ->
    Fixed.deque_extend maxlen d xs = d ++ xs.
Proof.
  intros maxlen xs. unfold Fixed.deque_extend.
  induction xs as [|x xs IH]; intros d H; cbn [fold_left].
  - now rewrite app_nil_r.
  - cbn [length] in H. unfold Fixed.deque_append at 2.
    destruct (Nat.eqb maxlen 0) eqn:E0; [apply Nat.eqb_eq in E0; lia|].
    destruct (Nat.ltb (length d) maxlen) eqn:El;
      [|apply Nat.ltb_ge in El; lia].
    rewrite IH by (rewrite length_app; cbn; lia).
    now rewrite <- app_assoc.
Qed.

(** The bound of the deque is kept by [deque_append]. *)
Lemma deque_append_bound :
  forall (maxlen : nat) (d : list A) x,
    (length d <= maxlen)%nat ->
    (length (Fixed.deque_append maxlen d x) <= maxlen)%nat.
Proof.
  intros maxlen d x H. unfold Fixed.deque_append.
  destruct (Nat.eqb maxlen 0) eqn:E0; [cbn; lia|].
  apply Nat.eqb_neq in E0.
  destruct (Nat.ltb (length d) maxlen) eqn:El.
  - apply Nat.ltb_lt in El. rewrite length_app. cbn [length]. lia.
  - clear El. rewrite length_app. destruct d; cbn [length tl] in *; lia.
Qed.

End PersistFacts.

(** X19.  Round trip through the two files.  On a writable disk,
    [_save_logs] and [ReplayBuffer.save] followed, in a detector with an
    empty buffer of the same capacity, by [_load_logs] and
    [ReplayBuffer.load] give back the prediction log and
    the replay buffer; the buffer holds no more than its capacity, as
    every deque does, and one more [add] keeps it so. *)
Theorem saved_state_round_trip :
  forall (RT : Fixed.Runtime) (image_data : Type)
         (st fresh : Fixed.EnhancedAIDetector_with_log image_data)
         (d : Fixed.disk image_data) (lines : list Fixed.log_record),
    Fixed.writable (Fixed.fs st) = true ->
    (length (Fixed.buffer (Fixed.replay_buffer st))
     <= Fixed.max_size (Fixed.replay_buffer st))%nat ->
    Fixed.save (Fixed.replay_buffer st) (Fixed.fs (Fixed._save_logs st))
    = (d, lines) ->
    Fixed.replay_buffer fresh
    = {| Fixed.max_size := Fixed.max_size (Fixed.replay_buffer st);
         Fixed.buffer := [] |} ->
    Fixed.fs fresh = d ->
    lines = []
    /\ Fixed.prediction_log (Fixed._load_logs fresh) = Fixed.prediction_log st
    /\ fst (Fixed.load (Fixed.replay_buffer fresh) d) = Fixed.replay_buffer st
    /\ forall img prediction confidence true_label now,
         (length (Fixed.buffer
                    (Fixed.add (Fixed.replay_buffer st) img prediction
                               confidence true_label now))
          <= Fixed.max_size (Fixed.replay_buffer st))%nat.
Proof.
  intros RT image_data st fresh d lines W Hlen Hsave Hrb Hfs.
  unfold Fixed._save_logs, Fixed.save in Hsave. rewrite W in Hsave.
  cbn in Hsave. rewrite ?W in Hsave. inversion Hsave as [[Hd Hl]].
  clear Hsave. rewrite <- Hd in Hfs.
  split; [reflexivity|]. split; [|split].
  - unfold Fixed._load_logs. rewrite Hfs. reflexivity.
  - unfold Fixed.load. cbn. rewrite Hrb. cbn.
    rewrite deque_extend_room by (cbn; exact Hlen). cbn.
    destruct (Fixed.replay_buffer st); reflexivity.
  - intros. cbn. now apply deque_append_bound.
Qed.

Lemma saved_state_round_trip_witness :
  let r := {| Fixed.prediction := "UNCERTAIN";
              Fixed.confidence := 3 # 5;
              Fixed.synthetic_probability := 2 # 5;
              Fixed.real_probability := 3 # 5;
              Fixed.is_uncertain := true;
              Fixed.logits := [2; 1]; Fixed.calibrated_logits := [2; 1] |} in
  let st := Fixed.log_prediction (Fixed.linear_logged 5) 7 r None "t1" "t2" in
  let d := fst (Fixed.save (Fixed.replay_buffer st)
                           (Fixed.fs (Fixed._save_logs st))) in
  let fresh :=
    {| Fixed.model := Fixed.linear_detector;
       Fixed.replay_buffer := {| Fixed.max_size := 5; Fixed.buffer := [] |};
       Fixed.prediction_log := []; Fixed.fs := d; Fixed.log := [] |} in
  Fixed.prediction_log (Fixed._load_logs fresh) = Fixed.prediction_log st
  /\ fst (Fixed.load (Fixed.replay_buffer fresh) d) = Fixed.replay_buffer st
  /\ length (Fixed.buffer (Fixed.replay_buffer st)) = 1%nat.
Proof.
  intros r st d fresh.
  assert (Hlen : (length (Fixed.buffer (Fixed.replay_buffer st))
                  <= Fixed.max_size (Fixed.replay_buffer st))%nat)
    by (vm_compute; lia).
  destruct (@saved_state_round_trip Fixed.linear_runtime Q st fresh d []
              eq_refl Hlen eq_refl eq_refl eq_refl)
    as (_ & Hl & Hb & _).
  split; [exact Hl|]. split; [exact Hb | reflexivity].
Defined.

(** ** Changing the threshold *)

(** X20.  A threshold set with [set_uncertainty_threshold] is the one the
    next [predict_with_uncertainty] applies, whatever mode the detector
    was left in.  The comparison is made in float32: every result is
    flagged exactly when its confidence is below the float32 value of the
    new threshold, and a flagged result has a confidence below the new
    threshold itself.  The detector keeps that threshold; the prediction
    log and the replay buffer are not touched by the change. *)
Theorem threshold_takes_effect :
  forall (RT : Fixed.Runtime) (image_data : Type)
         (st : Fixed.EnhancedAIDetector_with_log image_data)
         (threshold : Q) (x : list Fixed.image) (apply_temperature : bool)
         (rs : list Fixed.result) (m' : Fixed.EnhancedAIDetector),
    Fixed.predict_with_uncertainty
      (Fixed.model (Fixed.set_uncertainty_threshold st threshold))
      x apply_temperature = (Some rs, m') ->
    Forall (fun r =>
              Fixed.is_uncertain r
              = Torch.Qltb (Fixed.confidence r) (Torch.float32 threshold)
              /\ (Fixed.is_uncertain r = true ->
                  Fixed.confidence r < threshold)) rs
    /\ Fixed.uncertainty_threshold m' = threshold
    /\ Fixed.prediction_log (Fixed.set_uncertainty_threshold st threshold)
       = Fixed.prediction_log st
    /\ Fixed.replay_buffer (Fixed.set_uncertainty_threshold st threshold)
       = Fixed.replay_buffer st.
Proof.
  intros RT image_data st t x b rs m' H.
  unfold Fixed.predict_with_uncertainty, Fixed.forward, Fixed.eval in H.
  cbn in H.
  inversion H as [[Hrs Hm]]; clear H.
  split; [|split; [reflexivity | split; reflexivity]].
  apply results_of_rows_rows in Hrs.
  eapply Forall_impl; [|exact Hrs].
  intros r (lg & cal & Hr).
  destruct (confidence_is_float32 _ _ _ _ Hr) as [Hf32 Hflag].
  split; [exact Hflag|].
  intro Hu. rewrite Hu in Hflag. symmetry in Hflag. apply Qltb_lt in Hflag.
  rewrite <- Hf32. apply float32_below_cast with t; [|apply Qle_refl].
  rewrite Hf32. exact Hflag.
Qed.

Lemma threshold_takes_effect_witness :
  exists rs m',
    Fixed.predict_with_uncertainty
      (Fixed.model (Fixed.set_uncertainty_threshold
                      (Fixed.linear_logged 5) (7 # 10)))
      ([1] : list (@Fixed.image Fixed.linear_runtime)) true = (Some rs, m')
    /\ Forall (fun r => Fixed.is_uncertain r
                        = Torch.Qltb (Fixed.confidence r)
                                     (Torch.float32 (7 # 10))
                        /\ (Fixed.is_uncertain r = true ->
                            Fixed.confidence r < 7 # 10)) rs
    /\ Fixed.uncertainty_threshold m' = 7 # 10
    /\ map Fixed.is_uncertain rs = [true].
Proof.
  destruct (Fixed.predict_with_uncertainty
              (Fixed.model (Fixed.set_uncertainty_threshold
                              (Fixed.linear_logged 5) (7 # 10)))
              ([1] : list (@Fixed.image Fixed.linear_runtime)) true)
    as [[rs|] m'] eqn:E; [|vm_compute in E; discriminate].
  destruct (@threshold_takes_effect Fixed.linear_runtime Q
              (Fixed.linear_logged 5) (7 # 10) [1] true rs m' E)
    as (Hf & Ht & _).
  exists rs, m'. split; [reflexivity|]. split; [exact Hf|].
  split; [exact Ht|].
  vm_compute in E. inversion E. reflexivity.
Defined.
